(** * TanQi: the recursive life-cycle workflow, its routing and its data source

    A shallow embedding of the parts of the TanQi agent code that the
    specification makes claims about:

    - [JsString] and [demandHash]: the string operations behind the canonical
      key of a demand ([demand.trim().toLowerCase().substring(0, 100)]);
    - [Js]: JSON values, objects as lists of own properties, truthiness;
    - [Recursion]: [processDemandsRecursively] and [analyzeCompleteLifeCycle]
      (the depth-bounded, tree-recursive controller of [part_001]) as a
      labelled transition system over the JavaScript event loop;
    - [DataSource]: [extractSheetToJson] ([part_000]) and [getSheetData];
    - [KeyAgent]: stages of the LCA key graph of [lcaKeyAgent.ts], which runs
      once per demand;
    - [QueueAgent]: the routing functions and the demand queue of the LCA key
      graph of [part_002], which loops over the demands in one run;
    - [DataSourceTools]: the other readers of the workbook in [part_000];
    - [Lifecycle] and [RecursionShape]: the graph around the recursion of
      [part_001] and the shape of its call tree;
    - [CanonicalKey]: texts with the same canonical key;
    - [QueueGraph] and [QueueStages]: the restart, the conditional edges and
      the flow stages of the graph of [part_002];
    - [FinalSummarizer]: [final_summarizer] of [lcaKeyAgent.ts] with the
      properties that its mapping inherits from [Object.prototype];
    - [QueueKeyStages]: [summarize_technical_grades] and [process_selector]
      of [part_002].

    JavaScript strings are sequences of UTF-16 code units.  The operations of
    [JsString] read a [string] as a sequence of code units in the range
    0..255 (Latin-1 text), one [ascii] per code unit.  The texts that the
    code only stores, compares or concatenates (tool names, column names,
    error messages) are carried as they are written in the source.

    Objects are plain objects, which inherit from [Object.prototype]:
    [Js.objectPrototype] names its members.  Where the code tests [k in o]
    or reads [o[k]] for a key that its input chooses (the filters and the
    projection of [extractSheetToJson], the grouping of the grades, the
    mapping of [final_summarizer]) the inherited members are part of the
    model; a function starts with an [Object.prototype] that holds its
    built-in members only.  [KeyAgent.final_summarizer] reads own properties
    alone: it is the stage for the histories in which no [process_UUID]
    names a member of [Object.prototype], and [FinalSummarizer] is the stage
    for every history.

    Not modelled: the special place of integer-like keys in the order of the
    properties of an object, and numbers that are no integers or that
    [String] writes with an exponent (from 10^21 on). *)

From stdpp Require Import gmap strings list pretty.
From Stdlib Require Import Ascii ZArith Lia.

Set Warnings "-register-all".

(* ===================================================================== *)
(** ** JavaScript string operations *)
(* ===================================================================== *)

Module JsString.

(** ECMAScript [WhiteSpace] and [LineTerminator] code units below 256:
    TAB, LF, VT, FF, CR, SP and NBSP. *)
Definition isWhiteSpace (c : ascii) : bool :=
  let n := N_of_ascii c in
  ((9 <=? n) && (n <=? 13) || (n =? 32) || (n =? 160))%N.

(** Unicode simple lower-case mapping on Latin-1: [A-Z], [U+00C0-U+00D6] and
    [U+00D8-U+00DE] move up by 32, every other code unit is unchanged. *)
Definition toLowerCaseUnit (c : ascii) : ascii :=
  let n := N_of_ascii c in
  if ((65 <=? n) && (n <=? 90) || (192 <=? n) && (n <=? 214)
      || (216 <=? n) && (n <=? 222))%N
  then ascii_of_N (n + 32) else c.

(** [String.prototype.toLowerCase] *)
Fixpoint toLowerCase (s : string) : string :=
  match s with
  | EmptyString => EmptyString
  | String c s' => String (toLowerCaseUnit c) (toLowerCase s')
  end.

(** [String.prototype.trimStart] *)
Fixpoint trimStart (s : string) : string :=
  match s with
  | EmptyString => EmptyString
  | String c s' => if isWhiteSpace c then trimStart s' else s
  end.

(** [String.prototype.trimEnd] *)
Fixpoint trimEnd (s : string) : string :=
  match s with
  | EmptyString => EmptyString
  | String c s' =>
      match trimEnd s' with
      | EmptyString => if isWhiteSpace c then EmptyString else String c EmptyString
      | r => String c r
      end
  end.

(** [String.prototype.trim]: white space is removed from both ends. *)
Definition trim (s : string) : string := trimEnd (trimStart s).

(** [s.substring(from, to)] for [from <= to]: the code units at the indices
    [from .. to - 1] that exist. *)
Definition substring (s : string) (from to : nat) : string :=
  String.substring from (to - from) s.

Definition startsWithWhiteSpace (s : string) : bool :=
  match s with
  | EmptyString => false
  | String c _ => isWhiteSpace c
  end.

Fixpoint endsWithWhiteSpace (s : string) : bool :=
  match s with
  | EmptyString => false
  | String c EmptyString => isWhiteSpace c
  | String _ s' => endsWithWhiteSpace s'
  end.

(** [String.prototype.repeat] *)
Fixpoint repeat (s : string) (n : nat) : string :=
  match n with
  | O => EmptyString
  | S n' => s +:+ repeat s n'
  end.

End JsString.

(** The canonical key of a demand, [part_001] line 65:
    [demand.trim().toLowerCase().substring(0, 100)]. *)
Definition demandHash (demand : string) : string :=
  JsString.substring (JsString.toLowerCase (JsString.trim demand)) 0 100.


(** A text of 101 code units whose 100th is a space: 99 times [a], a space,
    then [b]. *)
Definition text_with_space_at_100 : string :=
  JsString.repeat "a" 99 +:+ " b".

(* ===================================================================== *)
(** ** JSON values and messages *)
(* ===================================================================== *)

(** Values carried by tool-call arguments and spreadsheet rows.  The value
    [undefined] is the absence of a value: [option json] with [None].
    Numbers are integers here: the modelled code only tests them for
    identity and truthiness.  An object is its list of own properties in
    insertion order. *)
Inductive json :=
| JNull
| JBool (b : bool)
| JNum (n : Z)
| JStr (s : string)
| JArr (items : list json)
| JObj (fields : list (string * json)).

Module Js.

(** [o[k]] on a list of own properties *)
Fixpoint lookup {V : Type} (k : string) (fields : list (string * V))
  : option V :=
  match fields with
  | [] => None
  | (k', v) :: rest => if String.eqb k' k then Some v else lookup k rest
  end.

(** [Object.hasOwn(o, k)]: [k] is an own property of [o] *)
Definition has {V : Type} (k : string) (fields : list (string * V)) : bool :=
  match lookup k fields with Some _ => true | None => false end.

(** [v?.k]: [undefined] unless [v] is an object with that property *)
Definition get (k : string) (v : option json) : option json :=
  match v with
  | Some (JObj fields) => lookup k fields
  | _ => None
  end.

(** JavaScript truthiness *)
Definition truthy (v : option json) : bool :=
  match v with
  | None | Some JNull | Some (JBool false) | Some (JNum 0) => false
  | Some (JStr s) => negb (String.eqb s "")
  | _ => true
  end.

(** [a || b] *)
Definition or (a : option json) (b : json) : json :=
  match a with
  | Some v => if truthy a then v else b
  | None => b
  end.

(** [v === "s"] *)
Definition isStr (v : option json) (s : string) : bool :=
  match v with
  | Some (JStr s') => String.eqb s' s
  | _ => false
  end.

(** [v === true] *)
Definition isTrue (v : option json) : bool :=
  match v with
  | Some (JBool true) => true
  | _ => false
  end.

(** [v.length] of a defined, non-null value *)
Definition length (v : json) : option json :=
  match v with
  | JArr items => Some (JNum (Z.of_nat (List.length items)))
  | JStr s => Some (JNum (Z.of_nat (String.length s)))
  | JObj fields => lookup "length" fields
  | _ => None
  end.

(** [v === 0] *)
Definition isZero (v : option json) : bool :=
  match v with
  | Some (JNum 0) => true
  | _ => false
  end.

(** [a === b]: primitives are compared by value; an array or an object is
    only identical to itself, which no comparison made here is about. *)
Definition strictEq (a b : option json) : bool :=
  match a, b with
  | None, None => true
  | Some JNull, Some JNull => true
  | Some (JBool x), Some (JBool y) => Bool.eqb x y
  | Some (JNum x), Some (JNum y) => Z.eqb x y
  | Some (JStr x), Some (JStr y) => String.eqb x y
  | _, _ => false
  end.

(** [o[k] = v]: an own property keeps its place, a new one goes last. *)
Fixpoint set {V : Type} (k : string) (v : V) (fields : list (string * V))
  : list (string * V) :=
  match fields with
  | [] => [(k, v)]
  | (k', v') :: rest =>
      if String.eqb k' k then (k', v) :: rest else (k', v') :: set k v rest
  end.

(** [Object.keys(o)] *)
Definition keys {V : Type} (fields : list (string * V)) : list string :=
  map fst fields.

(** [String(v)], which is also the property key that [o[v]] uses.  An array
    joins the texts of its items with commas, [null] giving the empty
    text. *)
Fixpoint toString (v : json) : string :=
  match v with
  | JNull => "null"
  | JBool true => "true"
  | JBool false => "false"
  | JNum n => pretty n
  | JStr s => s
  | JArr items =>
      (fix join (items : list json) : string :=
         match items with
         | [] => ""
         | [item] => match item with JNull => "" | _ => toString item end
         | item :: rest =>
             match item with JNull => "" | _ => toString item end
             +:+ "," +:+ join rest
         end) items
  | JObj _ => "[object Object]"
  end.

(** The key of [o[v]] for a value that may be [undefined] *)
Definition toPropertyKey (v : option json) : string :=
  match v with
  | Some v => toString v
  | None => "undefined"
  end.

(** [names.includes(n)] for an array of strings *)
Definition includes (n : string) (names : list string) : bool :=
  existsb (String.eqb n) names.

(** [s.includes(sub)] for strings *)
Definition strIncludes (s sub : string) : bool :=
  match String.index 0 sub s with
  | Some _ => true
  | None => false
  end.

(** The names of the members of [Object.prototype]: the accessor [__proto__]
    and eleven functions. *)
Definition objectPrototype : list string :=
  ["constructor"; "__defineGetter__"; "__defineSetter__"; "hasOwnProperty";
   "__lookupGetter__"; "__lookupSetter__"; "isPrototypeOf";
   "propertyIsEnumerable"; "toString"; "valueOf"; "__proto__";
   "toLocaleString"].

(** A plain object inherits the property [k] from [Object.prototype]. *)
Definition inherited (k : string) : bool := includes k objectPrototype.

(** [k in o] for a plain object [o]: an own or an inherited property *)
Definition hasIn {V : Type} (k : string) (fields : list (string * V)) : bool :=
  has k fields || inherited k.

End Js.

(** A thrown value: whether it is an [Error], its [message], and what
    [String(e)] gives. *)
Record Exn := mkExn {
  instanceofError : bool;
  message : string;
  toString : string
}.

(** A computation that returns or throws *)
Inductive Result (A : Type) :=
| Ret (a : A)
| Throw (e : Exn).

Arguments Ret {A} a.
Arguments Throw {A} e.

#[global] Instance Result_bind : MBind Result :=
  fun A B k m =>
    match m with
    | Ret a => k a
    | Throw e => Throw e
    end.

(** [try { m } catch (e) { handler(e) }] *)
Definition tryCatch {A : Type} (m : Result A) (handler : Exn → A) : A :=
  match m with
  | Ret a => a
  | Throw e => handler e
  end.

(** A LangChain tool call: [{ name, args }], [args] being an object. *)
Record ToolCall := mkToolCall {
  name : string;
  args : list (string * json)
}.

(** A message of the history.  A message without [tool_calls] (a
    [HumanMessage]) has the empty list: [tool_calls?.some(..)] and
    [tool_calls?.[0]] cannot tell the two apart. *)
Record Message := mkMessage {
  content : string;
  tool_calls : list ToolCall
}.

(** [msg.tool_calls?.some(tool => tool.name === n)] *)
Definition hasToolCall (n : string) (msg : Message) : bool :=
  existsb (fun tool => String.eqb (name tool) n) (tool_calls msg).

(** [msg.tool_calls?.[0]?.name === n] *)
Definition firstToolCallIs (n : string) (msg : Message) : bool :=
  match tool_calls msg with
  | tool :: _ => String.eqb (name tool) n
  | [] => false
  end.

(** [msg.tool_calls?.[0]?.args] *)
Definition firstArgs (msg : Message) : option json :=
  match tool_calls msg with
  | tool :: _ => Some (JObj (args tool))
  | [] => None
  end.

(** A message with one tool call and no text *)
Definition toolMessage (toolName : string) (fields : list (string * json))
  : Message :=
  mkMessage "" [mkToolCall toolName fields].

(** A new demand as built by [workflow_restarter]:
    [{ content: demand.new_demand, flow_name, flow_UUID }]. *)
Record Demand := mkDemand {
  demand_content : string;
  flow_name : option json;
  flow_UUID : option json
}.

(* ===================================================================== *)
(** ** The tree-recursive controller ([part_001]) *)
(* ===================================================================== *)

Module Recursion.

(** [const MAX_RECURSION_DEPTH = 3] *)
Definition MAX_RECURSION_DEPTH : nat := 3.

(** [const CONCURRENCY_LIMIT = 5] *)
Definition CONCURRENCY_LIMIT : nat := 5.

(** What [lcaKeyGraph.invoke] resolves with: [result.messages] and
    [result.demands || []]. *)
Record GraphResult := mkGraphResult {
  messages : list Message;
  demands : list Demand
}.

(** The promise returned by [lcaKeyGraph.invoke] resolves or rejects. *)
Inductive GraphOutcome :=
| Resolved (result : GraphResult)
| Rejected (error : string).

(** The state shared by all calls of one analysis: the module-level set
    [processedDemands] and the two arrays handed down by reference. *)
Record Store := mkStore {
  processedDemands : gset string;
  processSelectors : list Message;
  workflowRestarters : list Message
}.

(** The value a call returns: [{}], or [{ error: true, message }] for the
    depth limit and for a failed graph run. *)
Inductive CallResult :=
| Success
| DepthLimitReached
| InvokeFailed (error : string).

(** Where a call of [processDemandsRecursively] stands: it has returned, it
    awaits [lcaKeyGraph.invoke], or it awaits the [Promise.all] of the batch
    it launched, the demands of the later batches still queued. *)
Inductive call :=
| Returned (r : CallResult)
| Awaiting (demand : string) (depth : nat)
| InBatches (depth : nat) (running : list call) (rest : list Demand).

(** What a run shows to the outside: the log lines of a call and the
    requests sent to the LCA key graph. *)
Inductive event :=
| EvCall (demand : string) (depth : nat)
| EvDepthLimit (depth : nat)
| EvDuplicate (demand : string)
| EvInvoke (demand : string) (depth : nat).

(** A call up to its first [await] (lines 54-78): the depth check, the
    look-up of the key and its insertion, with no [await] in between. *)
Definition enter (st : Store) (demand : string) (depth : nat)
  : Store * call * list event :=
  if MAX_RECURSION_DEPTH <=? depth then
    (st, Returned DepthLimitReached, [EvCall demand depth; EvDepthLimit depth])
  else
    let demandHash := demandHash demand in
    if decide (demandHash ∈ processedDemands st) then
      (st, Returned Success, [EvCall demand depth; EvDuplicate demand])
    else
      (mkStore ({[demandHash]} ∪ processedDemands st)
               (processSelectors st) (workflowRestarters st),
       Awaiting demand depth,
       [EvCall demand depth; EvInvoke demand depth]).

(** [batch.map(demandObj => processDemandsRecursively(demandObj.content, ..,
    depth + 1))]: the calls start one after the other, each running up to
    its first [await]. *)
Fixpoint enterAll (st : Store) (batch : list Demand) (depth : nat)
  : Store * list call * list event :=
  match batch with
  | [] => (st, [], [])
  | demandObj :: batch' =>
      let '(st1, c, evs1) := enter st (demand_content demandObj) depth in
      let '(st2, cs, evs2) := enterAll st1 batch' depth in
      (st2, c :: cs, evs1 ++ evs2)
  end.

(** One turn of the loop of [processInBatches] over the demands not yet
    launched: [demands.slice(i, i + CONCURRENCY_LIMIT)] is started, or the
    loop is over and the call returns [{}]. *)
Definition processInBatches (st : Store) (depth : nat) (pending : list Demand)
  : Store * call * list event :=
  match pending with
  | [] => (st, Returned Success, [])
  | _ :: _ =>
      let '(st', running, evs) :=
        enterAll st (take CONCURRENCY_LIMIT pending) (depth + 1) in
      (st', InBatches depth running (drop CONCURRENCY_LIMIT pending), evs)
  end.

(** The call after [lcaKeyGraph.invoke] has resolved (lines 80-130). *)
Definition resume (st : Store) (depth : nat) (result : GraphResult)
  : Store * call * list event :=
  let st1 :=
    match find (hasToolCall "process_selector") (messages result) with
    | Some processSelectorMessage =>
        mkStore (processedDemands st)
                (processSelectors st ++ [processSelectorMessage])
                (workflowRestarters st)
    | None => st
    end in
  match find (hasToolCall "workflow_restarter") (messages result) with
  | Some workflowRestarterMessage =>
      let st2 :=
        mkStore (processedDemands st1) (processSelectors st1)
                (workflowRestarters st1 ++ [workflowRestarterMessage]) in
      let newDemands := demands result in
      if 0 <? length newDemands then processInBatches st2 depth newDemands
      else (st2, Returned Success, [])
  | None => (st1, Returned Success, [])
  end.

Definition isReturned (c : call) : bool :=
  match c with
  | Returned _ => true
  | _ => false
  end.

Section EventLoop.

(** The outcomes [lcaKeyGraph.invoke] may have for a demand text. *)
Variable graph : string → GraphOutcome → Prop.

(** One turn of the event loop.  Some pending promise is settled and the
    call that awaits it runs up to its next [await]: a graph run resolves
    or rejects, or the [Promise.all] of a finished batch resolves.  Which
    call of the tree moves is not determined. *)
Inductive step : Store * call → list event → Store * call → Prop :=
| step_resolve st demand depth result :
    graph demand (Resolved result) →
    step (st, Awaiting demand depth)
         (resume st depth result).2
         (resume st depth result).1
| step_reject st demand depth error :
    graph demand (Rejected error) →
    step (st, Awaiting demand depth) [] (st, Returned (InvokeFailed error))
| step_batch st depth running rest :
    forallb isReturned running = true →
    step (st, InBatches depth running rest)
         (processInBatches st depth rest).2
         (processInBatches st depth rest).1
| step_child st st' depth before c c' after rest evs :
    step (st, c) evs (st', c') →
    step (st, InBatches depth (before ++ c :: after) rest)
         evs
         (st', InBatches depth (before ++ c' :: after) rest).

(** Runs: any number of turns, with the events they show. *)
Inductive steps : Store * call → list event → Store * call → Prop :=
| steps_nil cfg : steps cfg [] cfg
| steps_cons cfg1 evs1 cfg2 evs2 cfg3 :
    step cfg1 evs1 cfg2 →
    steps cfg2 evs2 cfg3 →
    steps cfg1 (evs1 ++ evs2) cfg3.

(** [analyzeCompleteLifeCycle]: [processedDemands.clear()], two fresh
    arrays, then the root call at depth 0. *)
Definition analyzeCompleteLifeCycle (initialDemand : string)
  : Store * call * list event :=
  enter (mkStore ∅ [] []) initialDemand 0.

(** The events of a lifecycle analysis after some turns of the event loop,
    and the configuration reached. *)
Definition lifecycle (initialDemand : string) (evs : list event)
    (cfg : Store * call) : Prop :=
  ∃ evs', steps (analyzeCompleteLifeCycle initialDemand).1 evs' cfg
          ∧ evs = (analyzeCompleteLifeCycle initialDemand).2 ++ evs'.

End EventLoop.

(** *** One schedule, executable

    The graph answers by a function of the demand text, and the leftmost
    call that can move always moves first. *)
Definition firstTurn (f : call → option (Store * call * list event))
    (depth : nat) (rest : list Demand)
  : list call → list call → option (Store * call * list event) :=
  fix first (before cs : list call) :=
    match cs with
    | [] => None
    | c :: after =>
        match f c with
        | Some (st', c', evs) =>
            Some (st', InBatches depth (before ++ c' :: after) rest, evs)
        | None => first (before ++ [c]) after
        end
    end.

Section Schedule.

Variable oracle : string → GraphOutcome.

Fixpoint turn (st : Store) (c : call) : option (Store * call * list event) :=
  match c with
  | Returned _ => None
  | Awaiting demand depth =>
      Some (match oracle demand with
            | Resolved result => resume st depth result
            | Rejected error => (st, Returned (InvokeFailed error), [])
            end)
  | InBatches depth running rest =>
      if forallb isReturned running
      then Some (processInBatches st depth rest)
      else firstTurn (turn st) depth rest [] running
  end.

Fixpoint run (fuel : nat) (st : Store) (c : call)
  : Store * call * list event :=
  match fuel with
  | 0 => (st, c, [])
  | S fuel' =>
      match turn st c with
      | None => (st, c, [])
      | Some (st', c', evs) =>
          let '(st'', c'', evs') := run fuel' st' c' in
          (st'', c'', evs ++ evs')
      end
  end.

(** [analyzeCompleteLifeCycle] followed by at most [fuel] turns *)
Definition analyze (fuel : nat) (initialDemand : string)
  : Store * call * list event :=
  let '(st, c, evs) := analyzeCompleteLifeCycle initialDemand in
  let '(st', c', evs') := run fuel st c in
  (st', c', evs ++ evs').

End Schedule.

(** A graph run that found a process and asks for the given new demands *)
Definition restarterReply (newDemands : list string) : GraphOutcome :=
  Resolved
    (mkGraphResult
       [mkMessage "" [mkToolCall "process_selector" []];
        mkMessage "" [mkToolCall "workflow_restarter" []]]
       (map (fun d => mkDemand d None None) newDemands)).

(** Every demand has two inputs of its own. *)
Definition twoInputs (demand : string) : GraphOutcome :=
  restarterReply [demand +:+ " > alumina"; demand +:+ " > power"].

(** Every demand asks for the same input, written in two ways. *)
Definition sameInputs (demand : string) : GraphOutcome :=
  restarterReply ["Alumina production"; "  alumina PRODUCTION "].

(** The canonical keys of the calls that were admitted, in order. *)
Definition admittedKeys (evs : list event) : list string :=
  omap (fun ev => match ev with
                  | EvInvoke demand _ => Some (demandHash demand)
                  | _ => None
                  end) evs.

(** [fresh st evs st']: the keys admitted by [evs] are pairwise distinct, none
    was in the set of [st], and the set of [st'] is that of [st] plus them. *)
Definition fresh (st : Store) (evs : list event) (st' : Store) : Prop :=
  NoDup (admittedKeys evs)
  ∧ (∀ k, k ∈ admittedKeys evs → k ∉ processedDemands st)
  ∧ (∀ k, k ∈ processedDemands st'
          ↔ k ∈ admittedKeys evs ∨ k ∈ processedDemands st).

(** The number of admitted calls below the root. *)
Definition childAdmissions (evs : list event) : nat :=
  length (List.filter (fun ev => match ev with
                                 | EvInvoke _ depth => 0 <? depth
                                 | _ => false
                                 end) evs).

(** The number of recursive calls issued below the root. *)
Definition childCalls (evs : list event) : nat :=
  length (List.filter (fun ev => match ev with
                                 | EvCall _ depth => 0 <? depth
                                 | _ => false
                                 end) evs).

(** *** Budgets for the runs with two new demands per graph run

    A call event weighs [wc], an admission [wi].  [weightBelow depth] bounds
    the weight of everything an admitted call at [depth] can still cause,
    [weightFrom depth] that of a call still to be issued at [depth]. *)
Section Budget.

Variables wc wi : nat.

Definition weight (ev : event) : nat :=
  match ev with
  | EvCall _ _ => wc
  | EvInvoke _ _ => wi
  | _ => 0
  end.

Definition totalWeight (evs : list event) : nat := sum_list_with weight evs.

Definition weightBelow (depth : nat) : nat :=
  match depth with
  | 0 => 14 * wc + 6 * wi
  | 1 => 6 * wc + 2 * wi
  | _ => 2 * wc
  end.

Definition weightFrom (depth : nat) : nat :=
  wc + (if MAX_RECURSION_DEPTH <=? depth then 0 else wi + weightBelow depth).

Fixpoint budget (c : call) : nat :=
  match c with
  | Returned _ => 0
  | Awaiting _ depth => weightBelow depth
  | InBatches depth running rest =>
      sum_list_with budget running + length rest * weightFrom (depth + 1)
  end.

End Budget.

End Recursion.

(* ===================================================================== *)
(** ** The spreadsheet data source ([part_000]) *)
(* ===================================================================== *)

(** A JSON text is represented by the value it denotes: [JSON.stringify]
    wraps a value and [JSON.parse] unwraps it. *)
Inductive JsonText :=
| JSON_stringify (v : json).

Module DataSource.

(** A row as [sheet_to_json] makes it: one own property per filled cell, the
    header of the column being the key. *)
Definition Row : Type := list (string * json).

(** A worksheet stands for what [xlsx.utils.sheet_to_json] makes of it: its
    rows, or the exception the conversion throws. *)
Definition Worksheet : Type := Result (list Row).

Record Workbook := mkWorkbook {
  SheetNames : list string;
  Sheets : list (string * Worksheet)
}.

(** The file system as the code sees it: [fs.existsSync] and [xlsx.readFile],
    which returns a workbook or throws. *)
Record FileSystem := mkFileSystem {
  existsSync : string → bool;
  readFile : string → Result Workbook
}.

(** [workbook.Sheets[sheetName]] *)
Fixpoint getSheet (sheetName : string) (sheets : list (string * Worksheet))
  : option Worksheet :=
  match sheets with
  | [] => None
  | (n, w) :: rest => if String.eqb n sheetName then Some w else getSheet sheetName rest
  end.

(** [xlsx.utils.sheet_to_json(worksheet)]; a missing worksheet has no rows. *)
Definition sheet_to_json (worksheet : option Worksheet) : Result (list Row) :=
  match worksheet with
  | Some w => w
  | None => Ret []
  end.

(** [JSON.stringify({ error: .., data: [] })] *)
Definition errorJson (error : string) : JsonText :=
  JSON_stringify (JObj [("error", JStr error); ("data", JArr [])]).

(** The loop over [Object.entries(filterConditions)] (lines 106-112): it
    returns from the function with an error object at the first column that
    is not [in] the first remaining row, and narrows [data] otherwise.  A
    column that the row inherits from [Object.prototype] is [in] the row;
    its value there is a function or an object, which is [===] to no filter
    value. *)
Fixpoint applyFilters (entries : list (string * json)) (data : list Row)
  : JsonText + list Row :=
  match entries with
  | [] => inr data
  | (column, value) :: entries' =>
      if match head data with
         | None => true
         | Some row0 => negb (Js.hasIn column row0)
         end
      then inl (errorJson ("筛选条件中的列 '" +:+ column +:+ "' 不存在。"))
      else applyFilters entries'
             (List.filter
                (fun row => Js.strictEq (Js.lookup column row) (Some value))
                data)
  end.

(** [col in row ? row[col] : null] as far as [JSON.stringify] will show it:
    the own cell of the row, [null] for a column that is not [in] the row,
    and nothing for a column that the row only inherits from
    [Object.prototype], whose value there is a function. *)
Definition cellOrNull (row : Row) (col : string) : option json :=
  match Js.lookup col row with
  | Some v => Some v
  | None => if Js.inherited col then None else Some JNull
  end.

(** [newRow[col] = col in row ? row[col] : null] (line 149) as it shows in
    the own properties of [newRow] that [JSON.stringify] writes.  The name
    [__proto__] is always [in] the row and assigning to it makes no own
    property: it sets or keeps the prototype of [newRow]. *)
Definition projectCell (row : Row) (newRow : Row) (col : string) : Row :=
  if String.eqb col "__proto__" then newRow
  else
    match cellOrNull row col with
    | Some v => Js.set col v newRow
    | None => newRow
    end.

(** The new row of lines 145-152, the columns taken in turn *)
Definition projectRow (extractColumns : list string) (row : Row) : Row :=
  foldl (projectCell row) [] extractColumns.

(** The [try] block of [extractSheetToJson] (lines 79-160).  On rows that are
    objects nothing inside the two inner [try] blocks throws, so their
    [catch] clauses, which return an error object as well, do not appear. *)
Definition extractSheetToJson_try (fs : FileSystem)
    (filePath sheetName : string)
    (filterConditions : option (list (string * json)))
    (extractColumns : option (list string)) : Result JsonText :=
  if negb (existsSync fs filePath) then
    Ret (errorJson "文件不存在，请检查文件路径。")
  else
    workbook ← readFile fs filePath;
    if negb (Js.includes sheetName (SheetNames workbook)) then
      Ret (errorJson ("Sheet名称 '" +:+ sheetName
                      +:+ "' 不存在，请检查Sheet名称。"))
    else
      data ← sheet_to_json (getSheet sheetName (Sheets workbook));
      match match filterConditions with
            | Some conditions => applyFilters conditions data
            | None => inr data
            end with
      | inl errorText => Ret errorText
      | inr data =>
          match extractColumns with
          | Some columns =>
              if length data =? 0 then
                Ret (errorJson "工作表为空，无法提取列")
              else
                Ret (JSON_stringify
                       (JArr (map (fun row => JObj (projectRow columns row))
                                  data)))
          | None => Ret (JSON_stringify (JArr (map JObj data)))
          end
      end.

(** [extractSheetToJson]: the [try] block and the outer [catch] (lines
    162-168). *)
Definition extractSheetToJson (fs : FileSystem)
    (filePath sheetName : string)
    (filterConditions : option (list (string * json)))
    (extractColumns : option (list string)) : JsonText :=
  tryCatch
    (extractSheetToJson_try fs filePath sheetName filterConditions
       extractColumns)
    (fun e =>
       if instanceofError e && Js.strIncludes (message e) "ENOENT" then
         errorJson "文件未找到，请检查文件路径。"
       else
         errorJson ("无法读取Excel文件。详情: " +:+ toString e)).

(** [JSON.parse] of a text that [JSON.stringify] produced *)
Definition JSON_parse (text : JsonText) : Result json :=
  match text with
  | JSON_stringify v => Ret v
  end.

(** [getSheetData] of [lcaKeyAgent.ts] (lines 29-42); [file_path] is the
    module-level constant. *)
Definition getSheetData (fs : FileSystem) (file_path sheetName : string)
    (filterConditions : option (list (string * json)))
    (extractColumns : option (list string)) : json :=
  tryCatch
    (JSON_parse (extractSheetToJson fs file_path sheetName filterConditions
                   extractColumns))
    (fun _ => JArr []).

(** The rows an error object offers to its readers: [result.data] *)
Definition isErrorObject (v : json) : Prop :=
  ∃ error, v = JObj [("error", JStr error); ("data", JArr [])].

(** A small workbook: two processes, the second without a location. *)
Definition sampleBook : Workbook :=
  mkWorkbook
    ["process_Al"]
    [("process_Al",
      Ret [[("process_UUID", JStr "p-1"); ("process_name", JStr "smelting");
            ("location", JStr "CN"); ("flow_count", JNum 12)];
           [("process_UUID", JStr "p-2"); ("process_name", JStr "casting");
            ("flow_count", JNum 7)]])].

Definition sampleFs : FileSystem :=
  mkFileSystem
    (fun p => String.eqb p "T2C_dataset_Al.xlsx")
    (fun p => Ret sampleBook).

End DataSource.

(* ===================================================================== *)
(** ** The oracle *)
(* ===================================================================== *)

(** One call of [chain.invoke]: the tool whose schema the model is bound to
    and the values of the placeholders of the prompt.  A placeholder filled
    with [JSON.stringify(v)] holds [v]. *)
Record Request := mkRequest {
  tool : string;
  inputs : list (string * json)
}.

(** The chat model.  It may answer the same request differently each time it
    is asked: its answer depends on the number of calls made before.  A call
    answers with a message or throws. *)
Definition Oracle : Type := nat → Request → Result Message.

(** An [async] stage: started after [n] calls of the oracle, it returns or
    throws, and gives the number of calls made by then. *)
Definition Async (A : Type) : Type := nat → Result A * nat.

#[global] Instance Async_ret : MRet Async := fun A a n => (Ret a, n).

#[global] Instance Async_bind : MBind Async :=
  fun A B k m n =>
    match m n with
    | (Ret a, n') => k a n'
    | (Throw e, n') => (Throw e, n')
    end.

(** [await chain.invoke(..)] *)
Definition invoke (oracle : Oracle) (request : Request) : Async Message :=
  fun n => (oracle n request, S n).

(** [try { await m } catch (e) { handler(e) }] *)
Definition tryCatchAsync {A : Type} (m : Async A) (handler : Exn → Async A)
  : Async A :=
  fun n =>
    match m n with
    | (Ret a, n') => (Ret a, n')
    | (Throw e, n') => handler e n'
    end.

(** The [TypeError] of a property read on [undefined] *)
Definition typeError (text : string) : Exn :=
  mkExn true text ("TypeError: " +:+ text).

(* ===================================================================== *)
(** ** The LCA key graph, one demand per run ([lcaKeyAgent.ts]) *)
(* ===================================================================== *)

Module KeyAgent.

(** The state of the graph (lines 67-86) *)
Record State := mkState {
  messages : list Message;
  selected_flow : option json;
  upstream_process_info : option json;
  upstream_flow_info : option json;
  selected_flow_sheet : string;
  iteration_count : Z;
  demands : list Demand
}.

(** What the stages modelled here return: the messages to append and, from
    [process_selector], the flows of the selected process.  The further keys
    [all_technical_summaries] and [all_process_summaries] hold the returned
    messages once more. *)
Record Update := mkUpdate {
  new_messages : list Message;
  new_selected_flow : option json
}.

(** The body of the loop of lines 718-727.  [processGrades[processUUID]] is
    the group of the process, or a member of [Object.prototype] when the
    key names one: that member is truthy, no group is made, and it has no
    [push]. *)
Definition addGrade (processGrades : list (string * list json))
    (gradeMsg : Message) : Result (list (string * list json)) :=
  match firstArgs gradeMsg with
  | Some gradeData =>
      let processUUID :=
        Js.toPropertyKey (Js.get "process_UUID" (Some gradeData)) in
      match Js.lookup processUUID processGrades with
      | Some grades =>
          Ret (Js.set processUUID (grades ++ [gradeData]) processGrades)
      | None =>
          if Js.inherited processUUID then
            Throw (typeError
                     "processGrades[processUUID].push is not a function")
          else Ret (Js.set processUUID [gradeData] processGrades)
      end
  | None => Ret processGrades
  end.

Fixpoint addGrades (processGrades : list (string * list json))
    (allTechnicalGrades : list Message)
  : Result (list (string * list json)) :=
  match allTechnicalGrades with
  | [] => Ret processGrades
  | gradeMsg :: rest =>
      processGrades' ← addGrade processGrades gradeMsg;
      addGrades processGrades' rest
  end.

(** Lines 716-727: the grades of the history, grouped by [process_UUID] in
    the order in which the processes first appear. *)
Definition groupGrades (allTechnicalGrades : list Message)
  : Result (list (string * list json)) :=
  addGrades [] allTechnicalGrades.

(** The request for the summary of the grades of one process (lines
    777-783) *)
Definition summaryRequest (processUUID : string) (grades : list json)
  : Request :=
  mkRequest "technical_summary"
    [("process_uuid", JStr processUUID);
     ("process_name",
      Js.or (Js.get "process_name" (head grades)) (JStr "Unknown Process"));
     ("grades", JArr grades)].

(** The loop of lines 772-789: one call of the oracle per process; a call
    that throws is logged and its process gets no summary. *)
Fixpoint summarizeEach (oracle : Oracle) (entries : list (string * list json))
  : Async (list Message) :=
  match entries with
  | [] => mret []
  | (processUUID, grades) :: rest =>
      if length grades =? 0 then summarizeEach oracle rest
      else
        response ← tryCatchAsync
                     (r ← invoke oracle (summaryRequest processUUID grades);
                      mret (Some r))
                     (fun _ => mret None);
        allSummaries ← summarizeEach oracle rest;
        mret (match response with
              | Some r => r :: allSummaries
              | None => allSummaries
              end)
  end.

(** [summarize_technical_grades] (lines 707-795); the grouping stands
    outside the [try] of the loop that asks the oracle. *)
Definition summarize_technical_grades (oracle : Oracle) (state : State)
  : Async Update :=
  let allTechnicalGrades :=
    List.filter (firstToolCallIs "technical_grader") (messages state) in
  match groupGrades allTechnicalGrades with
  | Ret processGrades =>
      allSummaries ← summarizeEach oracle processGrades;
      mret (mkUpdate allSummaries None)
  | Throw e => (fun n => (Throw e, n)) : Async Update
  end.

(** The final grade of each summary a stage returned *)
Definition finalTechnicalGrades (result : Result Update)
  : list (option json) :=
  match result with
  | Ret update =>
      map (fun msg => Js.get "final_technical_representativeness"
                        (firstArgs msg))
          (new_messages update)
  | Throw _ => []
  end.

(** An entry of [allProcesses] in [final_summarizer]; a property that was
    never set, or set to [undefined], is [None]. *)
Record ProcessData := mkProcessData {
  process_UUID : option json;
  process_name : option json;
  location : option json;
  flow_count : option json;
  technical_grade : option json;
  spatial_grade : option json;
  time_grade : option json
}.

(** Lines 999-1012 *)
Definition addTechnical (allProcesses : list (string * ProcessData))
    (summary : Message) : list (string * ProcessData) :=
  let data := firstArgs summary in
  if Js.truthy data && Js.truthy (Js.get "process_UUID" data) then
    let key := Js.toPropertyKey (Js.get "process_UUID" data) in
    let entry :=
      match Js.lookup key allProcesses with
      | Some entry => entry
      | None =>
          mkProcessData (Js.get "process_UUID" data)
            (Js.get "process_name" data) None (Js.get "flow_count" data)
            None None None
      end in
    Js.set key
      (mkProcessData (process_UUID entry) (process_name entry)
         (location entry) (flow_count entry)
         (Js.get "final_technical_representativeness" data)
         (spatial_grade entry) (time_grade entry))
      allProcesses
  else allProcesses.

(** Lines 1015-1031 *)
Definition addSpatial (allProcesses : list (string * ProcessData))
    (summary : Message) : list (string * ProcessData) :=
  let data := firstArgs summary in
  if Js.truthy data && Js.truthy (Js.get "process_UUID" data) then
    let key := Js.toPropertyKey (Js.get "process_UUID" data) in
    let entry :=
      match Js.lookup key allProcesses with
      | Some entry =>
          if Js.truthy (Js.get "location" data) then
            mkProcessData (process_UUID entry) (process_name entry)
              (Js.get "location" data) (flow_count entry)
              (technical_grade entry) (spatial_grade entry) (time_grade entry)
          else entry
      | None =>
          mkProcessData (Js.get "process_UUID" data)
            (Js.get "process_name" data) (Js.get "location" data)
            (Js.get "flow_count" data) None None None
      end in
    Js.set key
      (mkProcessData (process_UUID entry) (process_name entry)
         (location entry) (flow_count entry) (technical_grade entry)
         (Js.get "final_spatial_representativeness" data) (time_grade entry))
      allProcesses
  else allProcesses.

(** Lines 1034-1047 *)
Definition addTime (allProcesses : list (string * ProcessData))
    (summary : Message) : list (string * ProcessData) :=
  let data := firstArgs summary in
  if Js.truthy data && Js.truthy (Js.get "process_UUID" data) then
    let key := Js.toPropertyKey (Js.get "process_UUID" data) in
    let entry :=
      match Js.lookup key allProcesses with
      | Some entry => entry
      | None =>
          mkProcessData (Js.get "process_UUID" data)
            (Js.get "process_name" data) None (Js.get "flow_count" data)
            None None None
      end in
    Js.set key
      (mkProcessData (process_UUID entry) (process_name entry)
         (location entry) (flow_count entry) (technical_grade entry)
         (spatial_grade entry)
         (Js.get "final_time_representativeness" data))
      allProcesses
  else allProcesses.

(** The mapping built by lines 996-1047 *)
Definition collectGrades (messages : list Message)
  : list (string * ProcessData) :=
  let technicalSummaries :=
    List.filter (hasToolCall "technical_summary") messages in
  let spatialSummaries :=
    List.filter (hasToolCall "spatial_summary") messages in
  let timeSummaries :=
    List.filter (hasToolCall "time_summary") messages in
  foldl addTime
    (foldl addSpatial (foldl addTechnical [] technicalSummaries)
       spatialSummaries)
    timeSummaries.

(** The synthetic message of lines 1065-1082 *)
Definition finalSummaryMessage (processUUID : string)
    (processData : ProcessData) (technical spatial time : json) : Message :=
  mkMessage ""
    [mkToolCall "final_summary"
       [("process_UUID", JStr processUUID);
        ("process_name",
         Js.or (process_name processData) (JStr "Unknown Process"));
        ("location", Js.or (location processData) (JStr "Unknown Location"));
        ("flow_count", Js.or (flow_count processData) (JStr "0"));
        ("technical_representativeness", technical);
        ("spatial_representativeness", spatial);
        ("time_representativeness", time)]].

(** The loop of lines 1056-1089: a process without one of its three grades
    is skipped. *)
Definition materialize (entry : string * ProcessData) : option Message :=
  let '(processUUID, processData) := entry in
  if negb (Js.truthy (technical_grade processData))
     || negb (Js.truthy (spatial_grade processData))
     || negb (Js.truthy (time_grade processData))
  then None
  else
    match technical_grade processData, spatial_grade processData,
          time_grade processData with
    | Some technical, Some spatial, Some time =>
        Some (finalSummaryMessage processUUID processData technical spatial
                time)
    | _, _, _ => None
    end.

(** A grade has a source in the history: a message with a tool call of the
    given name whose first arguments name the process and give the grade. *)
Definition gradeSource (toolName gradeField : string) (history : list Message)
    (processUUID : string) (grade : json) : Prop :=
  ∃ summary,
    summary ∈ history
    ∧ hasToolCall toolName summary = true
    ∧ Js.toPropertyKey (Js.get "process_UUID" (firstArgs summary)) = processUUID
    ∧ Js.get gradeField (firstArgs summary) = Some grade.

(** Every grade recorded in [allProcesses] has its source in the history. *)
Definition graded (history : list Message)
    (allProcesses : list (string * ProcessData)) : Prop :=
  ∀ key entry,
    (key, entry) ∈ allProcesses →
    (∀ g, technical_grade entry = Some g →
          gradeSource "technical_summary" "final_technical_representativeness"
            history key g)
    ∧ (∀ g, spatial_grade entry = Some g →
            gradeSource "spatial_summary" "final_spatial_representativeness"
              history key g)
    ∧ (∀ g, time_grade entry = Some g →
            gradeSource "time_summary" "final_time_representativeness"
              history key g).

(** [final_summarizer] (lines 977-1097); it calls no oracle. *)
Definition final_summarizer (state : State) : Update :=
  let finalSummaries := omap materialize (collectGrades (messages state)) in
  mkUpdate finalSummaries None.

(** [getSelectedFlow] (lines 45-62) *)
Definition getSelectedFlow (fs : DataSource.FileSystem) (file_path : string)
    (processUUID : json) (state : State) : json :=
  let sheetName := selected_flow_sheet state in
  if String.eqb sheetName "" then JArr []
  else
    DataSource.getSheetData fs file_path sheetName
      (Some [("process_UUID", processUUID); ("Input/Output", JStr "Input")])
      (Some ["flow_name"; "flow_UUID"]).

(** The candidates handed to the oracle (lines 1150-1163): the arguments of
    every [final_summary] message. *)
Definition allProcesses (state : State) : list json :=
  omap firstArgs (List.filter (hasToolCall "final_summary") (messages state)).

(** [heterogeneityEval?.tool_calls?.[0]?.args || "No data"] *)
Definition heterogeneityInfo (state : State) : json :=
  Js.or (match find (hasToolCall "heterogeneity_evaluator") (messages state)
         with
         | Some heterogeneityEval => firstArgs heterogeneityEval
         | None => None
         end)
        (JStr "No data").

(** The request of lines 1214-1217 *)
Definition selectorRequest (state : State) : Request :=
  mkRequest "process_selector"
    [("process_info", JArr (allProcesses state));
     ("heterogeneity", heterogeneityInfo state)].

(** [process_selector] (lines 1146-1232) *)
Definition process_selector (fs : DataSource.FileSystem) (file_path : string)
    (oracle : Oracle) (state : State) : Async Update :=
  response ← invoke oracle (selectorRequest state);
  let selectedProcessUUID :=
    Js.or (Js.get "process_UUID" (firstArgs response)) (JStr "") in
  let selectedFlows := getSelectedFlow fs file_path selectedProcessUUID state in
  mret (mkUpdate [response] (Some selectedFlows)).

(** The process a stage result selects: the arguments of the first tool call
    of its message, if it has any. *)
Definition selectedProcess (result : Result Update) : option json :=
  match result with
  | Ret update =>
      match new_messages update with
      | response :: _ => firstArgs response
      | [] => None
      end
  | Throw _ => None
  end.

(** *** What the prompt of [process_selector] asks of the oracle

    Lines 1173-1187.  Grades and counts are read as numbers; a value that is
    no number loses against every number. *)

Fixpoint digits (acc : Z) (s : string) : option Z :=
  match s with
  | EmptyString => Some acc
  | String c s' =>
      let n := Z.of_N (N_of_ascii c) in
      if (48 <=? n)%Z && (n <=? 57)%Z then digits (10 * acc + (n - 48)) s'
      else None
  end.

Definition numeric (v : option json) : option Z :=
  match v with
  | Some (JNum n) => Some n
  | Some (JStr (String c s)) => digits 0 (String c s)
  | _ => None
  end.

(** [a] is no higher than [b] *)
Definition noHigher (a b : option Z) : bool :=
  match a, b with
  | Some x, Some y => (x <=? y)%Z
  | Some _, None => true
  | None, Some _ => false
  | None, None => true
  end.

Definition field (name : string) (candidate : json) : option Z :=
  numeric (Js.get name (Some candidate)).

(** The candidates with the numerically lowest value of a field *)
Definition lowest (name : string) (pool : list json) : list json :=
  List.filter
    (fun c => forallb (fun c' => noHigher (field name c) (field name c')) pool)
    pool.

(** The candidates with the highest value of a field *)
Definition highest (name : string) (pool : list json) : list json :=
  List.filter
    (fun c => forallb (fun c' => noHigher (field name c') (field name c)) pool)
    pool.

(** Steps 1 to 4 for the two results of the heterogeneity evaluation *)
Definition instructed (heterogeneity : json) (pool : list json)
  : option (list json) :=
  let step1 := lowest "technical_representativeness" pool in
  if Js.isStr (Js.get "heterogeneity" (Some heterogeneity)) "RESULT_A" then
    Some (highest "flow_count"
            (lowest "spatial_representativeness"
               (lowest "time_representativeness" step1)))
  else if Js.isStr (Js.get "heterogeneity" (Some heterogeneity)) "RESULT_B" then
    Some (highest "flow_count"
            (lowest "time_representativeness"
               (lowest "spatial_representativeness" step1)))
  else None.

(** The answer names a candidate that is left after step 4. *)
Definition followsInstructions (state : State) (answer : json) : Prop :=
  ∃ remaining candidate,
    instructed (heterogeneityInfo state) (allProcesses state) = Some remaining
    ∧ candidate ∈ remaining
    ∧ Js.get "process_UUID" (Some candidate)
      = Js.get "process_UUID" (Some answer).

(** *** Sample histories and oracles *)

Definition stateOf (history : list Message) : State :=
  mkState history None None None "" 0 [].

(** Two grades for process [p-1], one for [p-2] *)
Definition gradedHistory : list Message :=
  [toolMessage "technical_grader"
     [("process_UUID", JStr "p-1"); ("process_name", JStr "smelting");
      ("technical_representativeness", JStr "2")];
   toolMessage "technical_grader"
     [("process_UUID", JStr "p-2"); ("process_name", JStr "casting");
      ("technical_representativeness", JStr "3")];
   toolMessage "technical_grader"
     [("process_UUID", JStr "p-1"); ("process_name", JStr "smelting");
      ("technical_representativeness", JStr "1")]].

(** The three samples 2, 2 and 3 for one process *)
Definition threeSamples : list Message :=
  [toolMessage "technical_grader"
     [("process_UUID", JStr "p-1"); ("process_name", JStr "smelting");
      ("technical_representativeness", JStr "2")];
   toolMessage "technical_grader"
     [("process_UUID", JStr "p-1"); ("process_name", JStr "smelting");
      ("technical_representativeness", JStr "2")];
   toolMessage "technical_grader"
     [("process_UUID", JStr "p-1"); ("process_name", JStr "smelting");
      ("technical_representativeness", JStr "3")]].

(** Process [p-1] has its three summaries, [p-2] lacks the time summary. *)
Definition summarizedHistory : list Message :=
  [toolMessage "technical_summary"
     [("process_UUID", JStr "p-1"); ("process_name", JStr "smelting");
      ("flow_count", JStr "12");
      ("final_technical_representativeness", JStr "1")];
   toolMessage "technical_summary"
     [("process_UUID", JStr "p-2"); ("process_name", JStr "casting");
      ("flow_count", JStr "7");
      ("final_technical_representativeness", JStr "2")];
   toolMessage "spatial_summary"
     [("process_UUID", JStr "p-1"); ("location", JStr "CN");
      ("final_spatial_representativeness", JStr "2")];
   toolMessage "spatial_summary"
     [("process_UUID", JStr "p-2"); ("location", JStr "DE");
      ("final_spatial_representativeness", JStr "1")];
   toolMessage "time_summary"
     [("process_UUID", JStr "p-1");
      ("final_time_representativeness", JStr "3")]].

(** The candidates A and B of the scenario of the specification, and the
    result of the heterogeneity evaluation that puts spatial before
    temporal. *)
Definition candidateA : list (string * json) :=
  [("process_UUID", JStr "A"); ("process_name", JStr "process A");
   ("location", JStr "CN"); ("flow_count", JStr "5");
   ("technical_representativeness", JStr "1");
   ("spatial_representativeness", JStr "2");
   ("time_representativeness", JStr "3")].

Definition candidateB : list (string * json) :=
  [("process_UUID", JStr "B"); ("process_name", JStr "process B");
   ("location", JStr "CN"); ("flow_count", JStr "2");
   ("technical_representativeness", JStr "1");
   ("spatial_representativeness", JStr "1");
   ("time_representativeness", JStr "4")].

Definition scenarioHistory : list Message :=
  [toolMessage "final_summary" candidateA;
   toolMessage "final_summary" candidateB;
   toolMessage "heterogeneity_evaluator" [("heterogeneity", JStr "RESULT_B")]].

(** An oracle that always answers with the same message *)
Definition steady (answer : Message) : Oracle := fun _ _ => Ret answer.

(** An oracle whose summaries alternate between grade 2 and grade 3 *)
Definition flaky : Oracle :=
  fun n request =>
    Ret (toolMessage (tool request)
           [("process_UUID", JStr "p-1");
            ("final_technical_representativeness",
             JStr (if Nat.even n then "2" else "3"))]).

(** An oracle that selects a process nobody offered *)
Definition ghost : Oracle :=
  steady (toolMessage "process_selector"
            [("process_UUID", JStr "ghost"); ("process_name", JStr "nowhere");
             ("location", JStr "GLO"); ("flow_count", JStr "0")]).

(** What the specification says of the selection: the selected process is one
    of the candidates, there is none exactly when there is no candidate, and
    no candidate has a lower technical grade. *)
Definition selectionAsSpecified (candidates : list json)
    (selected : option json) : Prop :=
  (selected = None ↔ candidates = [])
  ∧ ∀ answer,
      selected = Some answer →
      ∃ candidate,
        candidate ∈ candidates
        ∧ Js.get "process_UUID" (Some candidate)
          = Js.get "process_UUID" (Some answer)
        ∧ ∀ other, other ∈ candidates →
            noHigher (field "technical_representativeness" candidate)
                     (field "technical_representativeness" other) = true.

End KeyAgent.

(* ===================================================================== *)
(** ** The LCA key graph with a queue of demands ([part_002]) *)
(* ===================================================================== *)

Module QueueAgent.

(** The state of the graph (lines 56-79); a demand of the queue is an object
    [{ content, flow_name, flow_UUID }]. *)
Record State := mkState {
  messages : list Message;
  selected_flow : option json;
  upstream_process_info : option json;
  upstream_flow_info : option json;
  iteration_count : Z;
  demands : list json;
  current_demand_index : nat;
  has_parallel_demands : bool
}.

(** What a stage returns: a value for some of the keys of the state. *)
Record Update := mkUpdate {
  new_messages : list Message;
  new_selected_flow : option json;
  new_iteration_count : option Z;
  new_demands : option (list json);
  new_current_demand_index : option nat;
  new_has_parallel_demands : option bool
}.

(** The reducers of the state: [messages] are appended, [iteration_count]
    is added up, every other key is replaced. *)
Definition applyUpdate (state : State) (update : Update) : State :=
  mkState
    (messages state ++ new_messages update)
    (match new_selected_flow update with
     | Some y => Some y
     | None => selected_flow state
     end)
    (upstream_process_info state)
    (upstream_flow_info state)
    (match new_iteration_count update with
     | Some y => iteration_count state + y
     | None => iteration_count state
     end)%Z
    (default (demands state) (new_demands update))
    (default (current_demand_index state) (new_current_demand_index update))
    (default (has_parallel_demands state) (new_has_parallel_demands update)).

(** The request of [demand_extractor]: the query fills the prompt, which
    turns it into text. *)
Definition extractorRequest (query : string) : Request :=
  mkRequest "demand_extractor" [("query", JStr query)].

(** [demand_extractor] (lines 81-181).  In the branch of the queue the log
    of line 90 reads [currentDemand.flow_name], which throws when the demand
    is [null]. *)
Definition demand_extractor (oracle : Oracle) (state : State) : Async Update :=
  if has_parallel_demands state && (0 <? length (demands state)) then
    if current_demand_index state <? length (demands state) then
      let currentDemand := demands state !! current_demand_index state in
      match currentDemand with
      | Some JNull =>
          (fun n =>
             (Throw (typeError
                       "Cannot read properties of null (reading 'flow_name')"),
              n)) : Async Update
      | _ =>
          let query := Js.get "content" currentDemand in
          response ← invoke oracle (extractorRequest (Js.toPropertyKey query));
          mret (mkUpdate [response] None None None
                  (Some (current_demand_index state + 1))
                  (Some (current_demand_index state + 1
                         <? length (demands state))))
      end
    else
      mret (mkUpdate [] None None (Some []) (Some 0) (Some false))
  else
    match last (messages state) with
    | Some lastMessage =>
        response ← invoke oracle (extractorRequest (content lastMessage));
        mret (mkUpdate [response] None None None None None)
    | None =>
        fun n =>
          (Throw (typeError "Cannot read properties of undefined"), n)
    end.

(** [shouldProcessNextDemand] (lines 184-201) *)
Definition shouldProcessNextDemand (state : State) : string :=
  if has_parallel_demands state && (0 <? length (demands state)) then
    if current_demand_index state <? length (demands state)
    then "process_next_demand"
    else "normal_flow"
  else "normal_flow".

(** The conditional edge of [demand_extractor] (lines 1461-1470): the stage
    runs again while the routing says [process_next_demand], at most [fuel]
    times. *)
Fixpoint extractDemands (fuel : nat) (oracle : Oracle) (state : State)
  : Async State :=
  match fuel with
  | 0 => mret state
  | S fuel' =>
      update ← demand_extractor oracle state;
      let state' := applyUpdate state update in
      if String.eqb (shouldProcessNextDemand state') "process_next_demand"
      then extractDemands fuel' oracle state'
      else mret state'
  end.

(** The number of messages of the history with a [demand_extractor] tool
    call (lines 1301-1303) *)
Definition iterationCount (state : State) : nat :=
  length (List.filter (hasToolCall "demand_extractor") (messages state)).

(** [shouldContinueBoundaryAnalysis] (lines 1296-1338) *)
Definition shouldContinueBoundaryAnalysis (state : State) : string :=
  if 10 <? iterationCount state then "end_workflow"
  else
    match find (hasToolCall "boundary_judger") (messages state) with
    | Some judgerOutput =>
        let whether_reach_cradle :=
          Js.get "whether_reach_cradle" (firstArgs judgerOutput) in
        if Js.isStr whether_reach_cradle "Yes" then "end_workflow"
        else "continue_analysis"
    | None => "end_workflow"
    end.

(** [shouldContinueFlowAnalysis] (lines 1340-1388) *)
Definition shouldContinueFlowAnalysis (state : State) : string :=
  let iterationCount :=
    length (List.filter (hasToolCall "flow_filter") (messages state)) in
  if 10 <? iterationCount then "end_workflow"
  else
    match find (hasToolCall "flow_filter") (messages state) with
    | Some filterOutput =>
        let args := firstArgs filterOutput in
        let allElementaryFlows :=
          Js.or (Js.get "all_elementary_flows" args) (JBool false) in
        let nonElementaryFlows :=
          Js.or (Js.get "non_elementary_flows" args) (JArr []) in
        if Js.isTrue (Some allElementaryFlows)
           || Js.isZero (Js.length nonElementaryFlows)
        then "end_workflow"
        else "continue_workflow"
    | None => "end_workflow"
    end.

(** [shouldContinueFlowJudger] (lines 1390-1435) *)
Definition shouldContinueFlowJudger (state : State) : string :=
  let iterationCount :=
    length (List.filter (hasToolCall "flow_judger") (messages state)) in
  if 10 <? iterationCount then "end_workflow"
  else
    match find (hasToolCall "flow_judger") (messages state) with
    | Some judgerOutput =>
        let args := firstArgs judgerOutput in
        let emptyResult := Js.get "empty_result" args in
        let combinedFlows := Js.or (Js.get "combined_flows" args) (JArr []) in
        if Js.isTrue emptyResult || Js.isZero (Js.length combinedFlows)
        then "end_workflow"
        else "continue_workflow"
    | None => "end_workflow"
    end.

(** The output of the fan-in that has just run: the newest message of the
    history with a [flow_judger] tool call. *)
Definition latestFlowJudger (state : State) : option Message :=
  last (List.filter (hasToolCall "flow_judger") (messages state)).

(** The merged list a [flow_judger] message reports is empty: its flag is
    set or it lists no flow. *)
Definition reportsEmpty (judgerOutput : Message) : bool :=
  Js.isTrue (Js.get "empty_result" (firstArgs judgerOutput))
  || Js.isZero
       (Js.length
          (Js.or (Js.get "combined_flows" (firstArgs judgerOutput))
                 (JArr []))).

(** The states of one run at its successive boundary checks: from one check
    to the next the history gained a [demand_extractor] message. *)
Fixpoint successiveChecks (states : list State) : Prop :=
  match states with
  | state1 :: rest =>
      match rest with
      | state2 :: _ => iterationCount state1 < iterationCount state2
      | [] => True
      end
      ∧ successiveChecks rest
  | [] => True
  end.

(** *** Sample histories *)

Definition queueStateOf (history : list Message) : State :=
  mkState history None None None 0 [] 0 false.

Definition extracted : Message :=
  toolMessage "demand_extractor" [("Process", JStr "bauxite mining")].

(** Ten extractions, and a boundary judgement that says No *)
Definition tenExtractions : State :=
  queueStateOf (toolMessage "boundary_judger" [("whether_reach_cradle", JStr "No")]
           :: replicate 10 extracted).

(** The first fan-in found a flow, the second found none. *)
Definition secondFanInEmpty : State :=
  queueStateOf
    [toolMessage "flow_judger"
       [("combined_flows",
         JArr [JObj [("flow_name", JStr "alumina"); ("flow_UUID", JStr "f-1");
                     ("industry_relevance", JStr "high")]]);
        ("empty_result", JBool false)];
     toolMessage "flow_judger"
       [("combined_flows", JArr []); ("empty_result", JBool true)]].

(** A queue of three demands as [workflow_restarter] leaves it *)
Definition queueOfThree : State :=
  mkState [extracted] None None None 1
    [JObj [("content", JStr "alumina demand")];
     JObj [("content", JStr "power demand")];
     JObj [("content", JStr "anode demand")]]
    0 true.

End QueueAgent.

(* ===================================================================== *)
(** ** The other tools of the data source ([part_000]) *)
(* ===================================================================== *)

Module DataSourceTools.
Import DataSource.

(** [loadExcel] (lines 177-201): the rows of a sheet, or no row when the file
    or the sheet is missing or something throws. *)
Definition loadExcel (fs : FileSystem) (filePath sheetName : string)
  : list Row :=
  tryCatch
    (if negb (existsSync fs filePath) then Ret []
     else
       workbook ← readFile fs filePath;
       if negb (Js.includes sheetName (SheetNames workbook)) then Ret []
       else sheet_to_json (getSheet sheetName (Sheets workbook)))
    (fun _ => []).

(** An object literal [{ k1: row.k1, k2: row.k2, .. }] as [JSON.stringify]
    writes it: a property whose value is [undefined] is left out. *)
Definition pick (columns : list string) (row : Row) : Row :=
  omap (fun col => match Js.lookup col row with
                   | Some v => Some (col, v)
                   | None => None
                   end) columns.

(** [row[column] === "text"] *)
Definition cellIs (column text : string) (row : Row) : bool :=
  Js.strictEq (Js.lookup column row) (Some (JStr text)).

(** The row passes every condition of [filterConditions]. *)
Definition passes (conditions : list (string * json)) (row : Row) : bool :=
  forallb (fun '(column, value) =>
             Js.strictEq (Js.lookup column row) (Some value)) conditions.

(** [extractDownstreamProcess] (lines 209-230).  Nothing in its [try] block
    throws, [loadExcel] catching what the file system throws. *)
Definition extractDownstreamProcess (fs : FileSystem)
    (filePath processUUID : string) : JsonText :=
  let data := loadExcel fs filePath "Process" in
  if length data =? 0 then errorJson "无法加载Process工作表"
  else
    let filteredData := List.filter (cellIs "process_UUID" processUUID) data in
    let mappedData :=
      map (pick ["process_UUID"; "process_name"; "location"; "validity_start"])
          filteredData in
    JSON_stringify (JArr (map JObj mappedData)).

(** [extractDownstreamFlow] (lines 238-264) *)
Definition extractDownstreamFlow (fs : FileSystem)
    (filePath processUUID : string) : JsonText :=
  let data := loadExcel fs filePath "Flow" in
  if length data =? 0 then errorJson "无法加载Flow工作表"
  else
    let filteredData :=
      List.filter (fun row => cellIs "process_UUID" processUUID row
                              && cellIs "Input/Output" "Input" row) data in
    let mappedData :=
      map (pick ["flow_name"; "flow_UUID"; "flow_classification"; "flow_type";
                 "process_UUID"])
          filteredData in
    JSON_stringify (JArr (map JObj mappedData)).

(** [getProcessIds] (lines 271-273): [processData.map(item =>
    item.process_UUID)].  Only an array has [map]: a text has none, and an
    object that was parsed from JSON has at most a property of that name,
    which is no function.  Reading a property of [null] throws as well. *)
Definition getProcessIds (processData : json) : Result (list (option json)) :=
  match processData with
  | JArr items =>
      if existsb (fun item => match item with JNull => true | _ => false end)
                 items
      then Throw (typeError "Cannot read properties of null")
      else Ret (map (fun item => Js.get "process_UUID" (Some item)) items)
  | _ => Throw (typeError "processData.map is not a function")
  end.

(** [processIds.includes(row.process_UUID)] *)
Definition idListed (processIds : list (option json)) (row : Row) : bool :=
  existsb (Js.strictEq (Js.lookup "process_UUID" row)) processIds.

Section CleanJson.

(** The text that the pattern of [cleanJson] captures between the fences
    [```json] and [```], trimmed, if the pattern matches.  The pattern is
    [\{.*?\}]: the captured text goes from an opening to a closing brace. *)
Variable fencedJson : string → option string.

(** [JSON.parse] on a captured text.  A JSON text that opens with a brace
    denotes an object: the parser gives its properties, or throws. *)
Variable JSON_parse_object : string → Result (list (string * json)).

(** [cleanJson] (lines 19-40): the parsed block, or the text itself when no
    block is found or the block does not parse. *)
Definition cleanJson (jsonStr : string) : json :=
  tryCatch
    (match fencedJson jsonStr with
     | None => Ret (JStr jsonStr)
     | Some jsonCleaned =>
         fields ← JSON_parse_object jsonCleaned;
         Ret (JObj fields)
     end)
    (fun _ => JStr jsonStr).

(** [extractUpstreamFlow] (lines 281-308); it has no [try]. *)
Definition extractUpstreamFlow (fs : FileSystem) (jsonStr filePath : string)
  : Result JsonText :=
  let processData := cleanJson jsonStr in
  processIds ← getProcessIds processData;
  let df := loadExcel fs filePath "Flow" in
  let filteredDf :=
    List.filter (fun row => cellIs "reference" "Siu" row
                            && cellIs "Input/Output" "Output" row
                            && idListed processIds row) df in
  let selectedColumns :=
    map (pick ["process_UUID"; "process_name"; "flow_name"; "flow_UUID";
               "flow_classification"; "flow_type"])
        filteredDf in
  Ret (JSON_stringify (JArr (map JObj selectedColumns))).

(** [extractUpstreamProcess] (lines 316-341); it has no [try]. *)
Definition extractUpstreamProcess (fs : FileSystem) (jsonStr filePath : string)
  : Result JsonText :=
  let processData := cleanJson jsonStr in
  processIds ← getProcessIds processData;
  let df := loadExcel fs filePath "Process" in
  let filteredDf := List.filter (idListed processIds) df in
  let selectedColumns :=
    map (pick ["process_UUID"; "process_name"; "technical_type"; "location";
               "validity_start"; "flow_count"])
        filteredDf in
  Ret (JSON_stringify (JArr (map JObj selectedColumns))).

End CleanJson.

(** [extractDownstreamDemand] (lines 398-436): one entry per reference flow
    of the process, with the place and the year of the first row of the
    process in the sheet [Process]. *)
Definition extractDownstreamDemand (fs : FileSystem)
    (filePath processUUID techniqueType : string) : JsonText :=
  let processData := loadExcel fs filePath "Process" in
  let filteredProcessData :=
    List.filter (cellIs "process_UUID" processUUID) processData in
  let processInfo := map (pick ["location"; "validity_start"])
                         filteredProcessData in
  let flowData := loadExcel fs filePath "Flow" in
  let filteredFlowData :=
    List.filter (fun row => cellIs "process_UUID" processUUID row
                            && cellIs "reference" "Siu" row) flowData in
  let flowInfo := map (pick ["flow_name"; "flow_classification"; "flow_type"])
                      filteredFlowData in
  let processItem := default [] (head processInfo) in
  let combinedData :=
    map (fun flowItem =>
           pick ["flow_name"] flowItem
           ++ [("technique_type", JStr techniqueType)]
           ++ pick ["flow_classification"; "flow_type"] flowItem
           ++ pick ["validity_start"; "location"] processItem)
        flowInfo in
  JSON_stringify (JArr (map JObj combinedData)).

(** A workbook with the sheets [Process] and [Flow] *)
Definition lcaBook : Workbook :=
  mkWorkbook
    ["Process"; "Flow"]
    [("Process",
      Ret [[("process_UUID", JStr "p-1"); ("process_name", JStr "smelting");
            ("location", JStr "CN"); ("validity_start", JNum 2020)];
           [("process_UUID", JStr "p-2"); ("process_name", JStr "casting")]]);
     ("Flow",
      Ret [[("process_UUID", JStr "p-1"); ("flow_name", JStr "aluminium");
            ("flow_UUID", JStr "f-0"); ("reference", JStr "Siu");
            ("Input/Output", JStr "Output")];
           [("process_UUID", JStr "p-1"); ("flow_name", JStr "alumina");
            ("flow_UUID", JStr "f-1"); ("Input/Output", JStr "Input")];
           [("process_UUID", JStr "p-2"); ("flow_name", JStr "ingot");
            ("flow_UUID", JStr "f-2"); ("Input/Output", JStr "Input")]])].

Definition lcaFs : FileSystem :=
  mkFileSystem (fun _ => true) (fun _ => Ret lcaBook).

End DataSourceTools.

(* ===================================================================== *)
(** ** The lifecycle graph around the recursion ([part_001]) *)
(* ===================================================================== *)

Module Lifecycle.

(** The state of the graph (lines 12-32) *)
Record State := mkState {
  messages : list Message;
  processSelectors : list Message;
  workflowRestarters : list Message;
  demands : list Demand;
  errors : list string
}.

(** What a stage returns *)
Record Update := mkUpdate {
  new_messages : list Message;
  new_processSelectors : list Message;
  new_workflowRestarters : list Message;
  new_errors : list string
}.

(** The reducers: the three arrays of messages and the errors are appended
    to; no stage modelled here returns [demands]. *)
Definition applyUpdate (state : State) (update : Update) : State :=
  mkState (messages state ++ new_messages update)
          (processSelectors state ++ new_processSelectors update)
          (workflowRestarters state ++ new_workflowRestarters update)
          (demands state)
          (errors state ++ new_errors update).

(** [msg.tool_calls?.find(tool => tool.name === toolName)?.args || null],
    [None] standing for [null]; the arguments of a tool call are an object
    and so truthy. *)
Definition toolArgs (toolName : string) (msg : Message)
  : option (list (string * json)) :=
  match find (fun tool => String.eqb (name tool) toolName) (tool_calls msg) with
  | Some toolCall => Some (args toolCall)
  | None => None
  end.

(** [formatToolResults] (lines 147-174); [sourceData] is the array that
    [sourceKey] names in the state.  The text of the message gives the number
    of results. *)
Definition formatToolResults (sourceData : list Message)
    (toolName outputName outputLabel : string) : Update :=
  let formattedResults := omap (toolArgs toolName) sourceData in
  let response :=
    mkMessage
      ("格式化了 " +:+ pretty (length formattedResults) +:+ " 个"
       +:+ outputLabel +:+ "结果")
      [mkToolCall outputName
         [("results", JArr (map JObj formattedResults))]] in
  mkUpdate [response] [] [] [].

(** [formatProcessSelectors] (lines 181-189) *)
Definition formatProcessSelectors (state : State) : Update :=
  formatToolResults (processSelectors state) "process_selector"
    "formatted_process_selectors" "process_selector".

(** [formatWorkflowRestarters] (lines 196-204) *)
Definition formatWorkflowRestarters (state : State) : Update :=
  formatToolResults (workflowRestarters state) "workflow_restarter"
    "formatted_workflow_restarters" "workflow_restarter".

(** The [message] of the value a call at depth 0 returns, if it has one
    (lines 59 and 132); the indentation of depth 0 is empty. *)
Definition resultMessage (r : Recursion.CallResult) : option string :=
  match r with
  | Recursion.Success => None
  | Recursion.DepthLimitReached => Some "达到最大递归深度 3，停止递归处理"
  | Recursion.InvokeFailed error => Some ("处理需求时出错: " +:+ error)
  end.

(** [analyzeCompleteLifeCycle] once the root call has returned [r] and left
    the store [st] (lines 229-256). *)
Definition lifeCycleComplete (st : Recursion.Store) (r : Recursion.CallResult)
  : Update :=
  let errors := match resultMessage r with
                | Some message => [message]
                | None => []
                end in
  let response :=
    mkMessage "生命周期分析完成"
      [mkToolCall "lifecycle_analysis_complete"
         [("processSelectorCount",
           JNum (Z.of_nat (length (Recursion.processSelectors st))));
          ("workflowRestarterCount",
           JNum (Z.of_nat (length (Recursion.workflowRestarters st))));
          ("errorCount", JNum (Z.of_nat (length errors)))]] in
  mkUpdate [response] (Recursion.processSelectors st)
           (Recursion.workflowRestarters st) errors.

(** [msg?.tool_calls?.find(t => t.name === toolName)?.args?.results || []]
    for the message found in the history *)
Definition formattedResultsOf (toolName : string) (history : list Message)
  : json :=
  Js.or (match find (hasToolCall toolName) history with
         | Some msg =>
             match toolArgs toolName msg with
             | Some fields => Js.lookup "results" fields
             | None => None
             end
         | None => None
         end)
        (JArr []).

(** [summarizeResults] (lines 264-303) *)
Definition summarizeResults (state : State) : Update :=
  let processSelectors :=
    formattedResultsOf "formatted_process_selectors" (messages state) in
  let workflowRestarters :=
    formattedResultsOf "formatted_workflow_restarters" (messages state) in
  let response :=
    mkMessage "分析结果总结完成"
      [mkToolCall "analysis_summary"
         [("processSelectors", processSelectors);
          ("workflowRestarters", workflowRestarters);
          ("errors", JArr (map JStr (errors state)));
          ("errorCount", JNum (Z.of_nat (length (errors state))))]] in
  mkUpdate [response] [] [] [].

(** The graph (lines 306-315) from the return of the root call on: the four
    stages follow one another. *)
Definition graphFrom (state : State) (st : Recursion.Store)
    (r : Recursion.CallResult) : State :=
  let state1 := applyUpdate state (lifeCycleComplete st r) in
  let state2 := applyUpdate state1 (formatProcessSelectors state1) in
  let state3 := applyUpdate state2 (formatWorkflowRestarters state2) in
  applyUpdate state3 (summarizeResults state3).

(** The state a run starts from: the demand as the only message *)
Definition initialState (initialDemand : string) : State :=
  mkState [mkMessage initialDemand []] [] [] [] [].

(** The arguments of the [analysis_summary] of a final state *)
Definition analysisSummary (state : State) : option (list (string * json)) :=
  match last (messages state) with
  | Some msg => toolArgs "analysis_summary" msg
  | None => None
  end.

End Lifecycle.

(* ===================================================================== *)
(** ** Shapes and budgets of the recursion *)
(* ===================================================================== *)

Module RecursionShape.
Import Recursion.

(** Every call that awaits something is above the maximum depth, and no
    batch has more calls than the concurrency limit. *)
Fixpoint wellFormed (c : call) : Prop :=
  match c with
  | Returned _ => True
  | Awaiting _ depth => depth < MAX_RECURSION_DEPTH
  | InBatches depth running rest =>
      depth < MAX_RECURSION_DEPTH
      ∧ length running ≤ CONCURRENCY_LIMIT
      ∧ (fix all (cs : list call) : Prop :=
           match cs with
           | [] => True
           | c' :: cs' => wellFormed c' ∧ all cs'
           end) running
  end.

(** The graph is only asked at depths 0, 1 and 2; calls are issued down to
    depth 3. *)
Definition withinDepth (ev : event) : Prop :=
  match ev with
  | EvInvoke _ depth => depth < MAX_RECURSION_DEPTH
  | EvCall _ depth => depth ≤ MAX_RECURSION_DEPTH
  | EvDepthLimit depth => depth = MAX_RECURSION_DEPTH
  | EvDuplicate _ => True
  end.

(** The calls of the tree that await the graph *)
Fixpoint awaiting (c : call) : nat :=
  match c with
  | Returned _ => 0
  | Awaiting _ _ => 1
  | InBatches _ running _ => sum_list_with awaiting running
  end.

(** The root call: it awaits the graph for the initial demand, it awaits its
    batches, or it has returned without error or with the error of its own
    graph run. *)
Definition rootShape (graph : string → GraphOutcome → Prop)
    (initialDemand : string) (c : call) : Prop :=
  match c with
  | Awaiting demand depth => demand = initialDemand ∧ depth = 0
  | InBatches depth _ _ => depth = 0
  | Returned Success => True
  | Returned DepthLimitReached => False
  | Returned (InvokeFailed error) => graph initialDemand (Rejected error)
  end.

(** The two arrays hold messages with the tool call they were searched for,
    and grow by at most one message per admitted call. *)
Definition collected (st : Store) (c : call) (admitted : nat) : Prop :=
  Forall (fun m => hasToolCall "process_selector" m = true)
         (processSelectors st)
  ∧ Forall (fun m => hasToolCall "workflow_restarter" m = true)
           (workflowRestarters st)
  ∧ length (processSelectors st) + awaiting c ≤ admitted
  ∧ length (workflowRestarters st) + awaiting c ≤ admitted.

(** *** Budgets for at most [K] new demands per graph run *)
Section BudgetK.

Variables K wc wi : nat.

Definition weightBelowK (depth : nat) : nat :=
  match depth with
  | 0 => (K + K * K + K * K * K) * wc + (K + K * K) * wi
  | 1 => (K + K * K) * wc + K * wi
  | _ => K * wc
  end.

Definition weightFromK (depth : nat) : nat :=
  wc + (if MAX_RECURSION_DEPTH <=? depth then 0 else wi + weightBelowK depth).

Fixpoint budgetK (c : call) : nat :=
  match c with
  | Returned _ => 0
  | Awaiting _ depth => weightBelowK depth
  | InBatches depth running rest =>
      sum_list_with budgetK running + length rest * weightFromK (depth + 1)
  end.

End BudgetK.

(** Every demand has the same four inputs. *)
Definition fourInputs (demand : string) : GraphOutcome :=
  restarterReply [demand +:+ " > a"; demand +:+ " > b"; demand +:+ " > c";
                  demand +:+ " > d"].

(** The graph fails on every input of the root. *)
Definition failingInputs (demand : string) : GraphOutcome :=
  if String.eqb demand "Al" then restarterReply ["alumina"; "power"]
  else Rejected "timeout".

(** The state a second run on the same thread starts from: the final state
    of a first run, and the new demand. *)
Definition secondRun : Lifecycle.State :=
  let first :=
    Lifecycle.graphFrom (Lifecycle.initialState "Al")
      (analyze failingInputs 10 "Al").1.1 Success in
  Lifecycle.mkState (Lifecycle.messages first ++ [mkMessage "Cu" []])
    (Lifecycle.processSelectors first) (Lifecycle.workflowRestarters first)
    (Lifecycle.demands first) (Lifecycle.errors first).

End RecursionShape.

(* ===================================================================== *)
(** ** Texts with the same canonical key *)
(* ===================================================================== *)

Module CanonicalKey.

(** A text of white space only *)
Fixpoint isBlank (s : string) : bool :=
  match s with
  | EmptyString => true
  | String c s' => JsString.isWhiteSpace c && isBlank s'
  end.

(** A text of 100 code units without white space at its ends *)
Definition hundred_units : string := JsString.repeat "Bauxite > " 9 +:+ "Bauxite 10".

End CanonicalKey.

(* ===================================================================== *)
(** ** The restart of the queue graph and its conditional edges
       ([part_002], lines 1200-1293 and 1438-1525) *)
(* ===================================================================== *)

Module QueueGraph.
Import QueueAgent.

(** [msg?.tool_calls?.[0]?.args] of a message that may be missing *)
Definition firstArgsOf (msg : option Message) : option json :=
  match msg with
  | Some m => firstArgs m
  | None => None
  end.

(** The request of [workflow_restarter] (lines 1250-1261) *)
Definition restarterRequest (state : State) : Request :=
  let flowFilterOutput :=
    find (hasToolCall "flow_filter") (messages state) in
  let demandExtractorOutput :=
    find (hasToolCall "demand_extractor") (messages state) in
  let filterData :=
    Js.or (firstArgsOf flowFilterOutput)
      (JObj [("all_elementary_flows", JBool true);
             ("non_elementary_flows", JArr [])]) in
  let demandData := Js.or (firstArgsOf demandExtractorOutput) (JObj []) in
  let timeFrame :=
    Js.or (Js.get "timeFrame" (Some demandData)) (JStr "current year") in
  let geographicLocation :=
    Js.or (Js.get "geographicLocation" (Some demandData)) (JStr "global") in
  mkRequest "workflow_restarter"
    [("downstream_demand", demandData);
     ("flow_filter_output", filterData);
     ("demand_extractor_output", demandData);
     ("time_frame", timeFrame);
     ("geographic_location", geographicLocation)].

(** [{ content: demand.new_demand, flow_name: demand.flow_name,
       flow_UUID: demand.flow_UUID }] (line 1281); a property whose value is
    [undefined] is left out, and reading a property of [null] throws. *)
Definition demandMessage (demand : json) : Result json :=
  match demand with
  | JNull =>
      Throw (typeError "Cannot read properties of null (reading 'new_demand')")
  | _ =>
      Ret (JObj (omap (fun '(key, source) =>
                         match Js.get source (Some demand) with
                         | Some v => Some (key, v)
                         | None => None
                         end)
                      [("content", "new_demand"); ("flow_name", "flow_name");
                       ("flow_UUID", "flow_UUID")]))
  end.

(** [newDemands.map(..)] on the items of an array *)
Fixpoint demandMessages (newDemands : list json) : Result (list json) :=
  match newDemands with
  | [] => Ret []
  | demand :: rest =>
      match demandMessage demand with
      | Ret d =>
          match demandMessages rest with
          | Ret ds => Ret (d :: ds)
          | Throw e => Throw e
          end
      | Throw e => Throw e
      end
  end.

(** [response.tool_calls?.[0]?.args?.new_demands || []] *)
Definition newDemandsOf (response : Message) : json :=
  Js.or (Js.get "new_demands" (firstArgs response)) (JArr []).

(** [workflow_restarter] (lines 1200-1293).  A value of [new_demands] that
    is no array has no [map]. *)
Definition workflow_restarter (oracle : Oracle) (state : State)
  : Async Update :=
  response ← invoke oracle (restarterRequest state);
  let newDemands := newDemandsOf response in
  if Js.isZero (Js.length newDemands) then
    mret (mkUpdate [response] None (Some 1%Z) (Some []) (Some 0) (Some false))
  else
    match newDemands with
    | JArr items =>
        match demandMessages items with
        | Ret demandMessages =>
            mret (mkUpdate [response] None (Some 1%Z) (Some demandMessages)
                    (Some 0) (Some true))
        | Throw e => (fun n => (Throw e, n)) : Async Update
        end
    | _ =>
        (fun n => (Throw (typeError "newDemands.map is not a function"), n))
        : Async Update
    end.

(** The edge from [workflow_restarter] to [demand_extractor] and the
    conditional edge of [demand_extractor] (lines 1459-1470, 1522):
    the restart and the extractions that follow it, until the routing says
    [normal_flow]. *)
Definition restart (fuel : nat) (oracle : Oracle) (state : State)
  : Async State :=
  update ← workflow_restarter oracle state;
  extractDemands fuel oracle (applyUpdate state update).

(** The conditional edges (lines 1461-1518): the node, its routing function
    and the map from the labels to the next node. *)
Definition conditionalEdges
  : list (string * ((State → string) * list (string * string))) :=
  [("demand_extractor",
    (shouldProcessNextDemand,
     [("process_next_demand", "demand_extractor");
      ("normal_flow", "title_matcher")]));
   ("boundary_judger",
    (shouldContinueBoundaryAnalysis,
     [("end_workflow", "__end__"); ("continue_analysis", "industry_analyst")]));
   ("flow_judger",
    (shouldContinueFlowJudger,
     [("end_workflow", "__end__"); ("continue_workflow", "flow_filter")]));
   ("flow_filter",
    (shouldContinueFlowAnalysis,
     [("end_workflow", "__end__");
      ("continue_workflow", "workflow_restarter")]))].

(** The node that follows a node with a conditional edge, if the label the
    routing returns is one of the map *)
Definition nextNode (node : string) (state : State) : option string :=
  match Js.lookup node conditionalEdges with
  | Some (route, targets) => Js.lookup (route state) targets
  | None => None
  end.

(** The state after further stages have appended [more] to the history *)
Definition later (state : State) (more : list Message) : State :=
  applyUpdate state (mkUpdate more None None None None None).

(** The number of messages of the history with a tool call of a stage *)
Definition stageCount (toolName : string) (state : State) : nat :=
  length (List.filter (hasToolCall toolName) (messages state)).

(** An oracle that asks for two new demands *)
Definition twoNewDemands : Oracle :=
  fun n request =>
    if String.eqb (tool request) "workflow_restarter" then
      Ret (toolMessage "workflow_restarter"
             [("new_demands",
               JArr [JObj [("flow_name", JStr "alumina");
                           ("flow_UUID", JStr "f-1");
                           ("new_demand", JStr "alumina demand")];
                     JObj [("flow_name", JStr "power");
                           ("flow_UUID", JStr "f-2");
                           ("new_demand", JStr "power demand")]])])
    else Ret extracted.

(** An oracle that asks for no new demand *)
Definition noNewDemand : Oracle :=
  fun n request =>
    if String.eqb (tool request) "workflow_restarter" then
      Ret (mkMessage "no further flows"
             [mkToolCall "workflow_restarter" [("new_demands", JArr [])]])
    else Ret extracted.

(** A boundary judgement that says No, then one that says Yes *)
Definition judgedTwice : State :=
  queueStateOf
    [extracted;
     toolMessage "boundary_judger" [("whether_reach_cradle", JStr "No")]].

End QueueGraph.

(* ===================================================================== *)
(** ** The flow stages of the queue graph ([part_002], lines 1083-1198) *)
(* ===================================================================== *)

Module QueueStages.
Import QueueAgent QueueGraph.

(** [{ industry_specific_flows: [] }] *)
Definition noFlows : json := JObj [("industry_specific_flows", JArr [])].

(** [flowAnalystResults[i]?.tool_calls?.[0]?.args || { .. }], and the
    default when the array has no such index (lines 1131-1133) *)
Definition analystOutput (flowAnalystResults : list Message) (i : nat)
  : json :=
  Js.or (firstArgsOf (flowAnalystResults !! i)) noFlows.

(** The request of [flow_judger] (lines 1135-1139) *)
Definition judgerRequest (state : State) : Request :=
  let flowAnalystResults :=
    List.filter (hasToolCall "flow_analyst") (messages state) in
  mkRequest "flow_judger"
    [("flow_analyst_output_1", analystOutput flowAnalystResults 0);
     ("flow_analyst_output_2", analystOutput flowAnalystResults 1);
     ("flow_analyst_output_3", analystOutput flowAnalystResults 2)].

(** [flow_judger] (lines 1083-1143) *)
Definition flow_judger (oracle : Oracle) (state : State) : Async Update :=
  response ← invoke oracle (judgerRequest state);
  mret (mkUpdate [response] None None None None None).

(** The request of [flow_filter] (lines 1189-1193) *)
Definition filterRequest (state : State) : Request :=
  let flowJudgerOutput :=
    find (hasToolCall "flow_judger") (messages state) in
  mkRequest "flow_filter"
    [("flow_judger_output",
      Js.or (firstArgsOf flowJudgerOutput)
        (JObj [("combined_flows", JArr []); ("empty_result", JBool true)]))].

(** [flow_filter] (lines 1145-1198) *)
Definition flow_filter (oracle : Oracle) (state : State) : Async Update :=
  response ← invoke oracle (filterRequest state);
  mret (mkUpdate [response] None None None None None).

(** A first pass of the flow stages, as it stands in the history *)
Definition firstPass : State :=
  queueStateOf
    [extracted;
     toolMessage "flow_analyst"
       [("industry_specific_flows", JArr [JStr "alumina"])];
     toolMessage "flow_analyst"
       [("industry_specific_flows", JArr [JStr "power"])];
     toolMessage "flow_analyst"
       [("industry_specific_flows", JArr [JStr "anode"])];
     toolMessage "flow_judger"
       [("combined_flows", JArr [JStr "alumina"; JStr "power"]);
        ("empty_result", JBool false)];
     toolMessage "flow_filter"
       [("all_elementary_flows", JBool false);
        ("non_elementary_flows", JArr [JStr "alumina"])]].

(** What a second pass appends *)
Definition secondPass : list Message :=
  [toolMessage "demand_extractor" [("Process", JStr "alumina refining")];
   toolMessage "flow_analyst"
     [("industry_specific_flows", JArr [JStr "bauxite"])];
   toolMessage "flow_judger"
     [("combined_flows", JArr [JStr "bauxite"]);
      ("empty_result", JBool false)];
   toolMessage "flow_filter"
     [("all_elementary_flows", JBool true);
      ("non_elementary_flows", JArr [])]].

End QueueStages.

(* ===================================================================== *)
(** ** [final_summarizer] with the members of [Object.prototype]
       ([lcaKeyAgent.ts], lines 977-1097) *)
(* ===================================================================== *)

Module FinalSummarizer.
Import KeyAgent.

(** A property of an object: absent ([None]), or present with a value that
    may be [undefined]. *)
Definition Slot : Type := option (option json).

(** [o.p] for an own slot and the slot of the same name of the prototype *)
Definition readSlot (own inherited : Slot) : option json :=
  match own with
  | Some v => v
  | None => match inherited with
            | Some v => v
            | None => None
            end
  end.

(** The four properties that the stage assigns to *)
Inductive Field := Location | TechnicalGrade | SpatialGrade | TimeGrade.

Definition fieldName (f : Field) : string :=
  match f with
  | Location => "location"
  | TechnicalGrade => "technical_grade"
  | SpatialGrade => "spatial_grade"
  | TimeGrade => "time_grade"
  end.

(** An entry of [allProcesses]: the own properties of the object *)
Record Entry := mkEntry {
  own_process_UUID : Slot;
  own_process_name : Slot;
  own_location : Slot;
  own_flow_count : Slot;
  own_technical_grade : Slot;
  own_spatial_grade : Slot;
  own_time_grade : Slot
}.

(** The properties that the stage has added to [Object.prototype] *)
Record Prototype := mkPrototype {
  added_location : Slot;
  added_technical_grade : Slot;
  added_spatial_grade : Slot;
  added_time_grade : Slot
}.

(** [Object.prototype] when the stage starts *)
Definition cleanPrototype : Prototype := mkPrototype None None None None.

(** The own properties of [allProcesses] and what [Object.prototype] has
    gained *)
Definition Store : Type := list (string * Entry) * Prototype.

(** [entry.f = v] *)
Definition assignEntry (f : Field) (v : option json) (e : Entry) : Entry :=
  match f with
  | Location =>
      mkEntry (own_process_UUID e) (own_process_name e) (Some v)
        (own_flow_count e) (own_technical_grade e) (own_spatial_grade e)
        (own_time_grade e)
  | TechnicalGrade =>
      mkEntry (own_process_UUID e) (own_process_name e) (own_location e)
        (own_flow_count e) (Some v) (own_spatial_grade e) (own_time_grade e)
  | SpatialGrade =>
      mkEntry (own_process_UUID e) (own_process_name e) (own_location e)
        (own_flow_count e) (own_technical_grade e) (Some v) (own_time_grade e)
  | TimeGrade =>
      mkEntry (own_process_UUID e) (own_process_name e) (own_location e)
        (own_flow_count e) (own_technical_grade e) (own_spatial_grade e)
        (Some v)
  end.

(** [Object.prototype.f = v] *)
Definition assignPrototype (f : Field) (v : option json) (p : Prototype)
  : Prototype :=
  match f with
  | Location =>
      mkPrototype (Some v) (added_technical_grade p) (added_spatial_grade p)
        (added_time_grade p)
  | TechnicalGrade =>
      mkPrototype (added_location p) (Some v) (added_spatial_grade p)
        (added_time_grade p)
  | SpatialGrade =>
      mkPrototype (added_location p) (added_technical_grade p) (Some v)
        (added_time_grade p)
  | TimeGrade =>
      mkPrototype (added_location p) (added_technical_grade p)
        (added_spatial_grade p) (Some v)
  end.

(** The field that a key names, if it names one *)
Definition fieldOfName (k : string) : option Field :=
  if String.eqb k "location" then Some Location
  else if String.eqb k "technical_grade" then Some TechnicalGrade
  else if String.eqb k "spatial_grade" then Some SpatialGrade
  else if String.eqb k "time_grade" then Some TimeGrade
  else None.

Definition addedSlot (f : Field) (p : Prototype) : Slot :=
  match f with
  | Location => added_location p
  | TechnicalGrade => added_technical_grade p
  | SpatialGrade => added_spatial_grade p
  | TimeGrade => added_time_grade p
  end.

(** What [allProcesses[k]] is: an entry of the mapping, [Object.prototype]
    itself (for [__proto__]), one of its functions, a value that the stage
    has put on [Object.prototype] under the name [k], or [undefined]. *)
Inductive Target :=
| IsEntry (e : Entry)
| IsPrototype
| IsFunction
| IsAdded (f : Field) (v : option json)
| IsMissing.

Definition target (store : Store) (k : string) : Target :=
  match Js.lookup k store.1 with
  | Some e => IsEntry e
  | None =>
      if String.eqb k "__proto__" then IsPrototype
      else if Js.inherited k then IsFunction
      else
        match fieldOfName k with
        | Some f =>
            match addedSlot f store.2 with
            | Some v => IsAdded f v
            | None => IsMissing
            end
        | None => IsMissing
        end
  end.

(** [!!allProcesses[k]] *)
Definition present (store : Store) (k : string) : bool :=
  match target store k with
  | IsEntry _ | IsPrototype | IsFunction => true
  | IsAdded _ v => Js.truthy v
  | IsMissing => false
  end.

(** [o[k] = undefined] or [o[k] = x] on an object that came out of JSON, as
    [JSON.stringify] will show it *)
Definition setOrDrop (k : string) (v : option json)
    (fields : list (string * json)) : list (string * json) :=
  match v with
  | Some x => Js.set k x fields
  | None => List.filter (fun kv => negb (String.eqb kv.1 k)) fields
  end.

(** How the engine names a primitive in the error of an assignment to one
    of its properties *)
Definition primitiveName (v : json) : string :=
  match v with
  | JStr s => "string '" +:+ s +:+ "'"
  | JNum n => "number '" +:+ pretty n +:+ "'"
  | JBool true => "boolean 'true'"
  | JBool false => "boolean 'false'"
  | _ => "null"
  end.

(** [allProcesses[k].f = v] (lines 1010, 1026, 1029 and 1045).  The target
    is an entry; [Object.prototype], which gains the property; a function,
    on which the property shows nowhere; or a value that the stage has put
    on [Object.prototype] before: an object gains the property, an array
    shows none, and a primitive makes the assignment throw, the module
    being in strict mode. *)
Definition assign (store : Store) (k : string) (f : Field)
    (v : option json) : Result Store :=
  match target store k with
  | IsEntry e => Ret (Js.set k (assignEntry f v e) store.1, store.2)
  | IsPrototype => Ret (store.1, assignPrototype f v store.2)
  | IsFunction => Ret store
  | IsAdded g (Some (JObj fields)) =>
      Ret (store.1,
           assignPrototype g (Some (JObj (setOrDrop (fieldName f) v fields)))
             store.2)
  | IsAdded _ (Some (JArr _)) => Ret store
  | IsAdded _ (Some JNull) =>
      Throw (typeError ("Cannot set properties of null (setting '"
                        +:+ fieldName f +:+ "')"))
  | IsAdded _ (Some primitive) =>
      Throw (typeError ("Cannot create property '" +:+ fieldName f
                        +:+ "' on " +:+ primitiveName primitive))
  | IsAdded _ None | IsMissing =>
      Throw (typeError ("Cannot set properties of undefined (setting '"
                        +:+ fieldName f +:+ "')"))
  end.

(** The object literals of lines 1003-1007, 1019-1024 and 1038-1042: every
    property they name is an own property, also when its value is
    [undefined]. *)
Definition newEntry (data : option json) (withLocation : bool) : Entry :=
  mkEntry (Some (Js.get "process_UUID" data))
          (Some (Js.get "process_name" data))
          (if withLocation then Some (Js.get "location" data) else None)
          (Some (Js.get "flow_count" data))
          None None None.

(** [allProcesses[k] = { .. }]: the mapping gains an own property. *)
Definition create (store : Store) (k : string) (e : Entry) : Store :=
  (Js.set k e store.1, store.2).

(** Lines 999-1012 *)
Definition addTechnical (store : Store) (summary : Message) : Result Store :=
  let data := firstArgs summary in
  if Js.truthy data && Js.truthy (Js.get "process_UUID" data) then
    let k := Js.toPropertyKey (Js.get "process_UUID" data) in
    let store' :=
      if present store k then store else create store k (newEntry data false)
    in
    assign store' k TechnicalGrade
      (Js.get "final_technical_representativeness" data)
  else Ret store.

(** Lines 1015-1031 *)
Definition addSpatial (store : Store) (summary : Message) : Result Store :=
  let data := firstArgs summary in
  if Js.truthy data && Js.truthy (Js.get "process_UUID" data) then
    let k := Js.toPropertyKey (Js.get "process_UUID" data) in
    store' ←
      (if present store k then
         if Js.truthy (Js.get "location" data)
         then assign store k Location (Js.get "location" data)
         else Ret store
       else Ret (create store k (newEntry data true)));
    assign store' k SpatialGrade
      (Js.get "final_spatial_representativeness" data)
  else Ret store.

(** Lines 1034-1047 *)
Definition addTime (store : Store) (summary : Message) : Result Store :=
  let data := firstArgs summary in
  if Js.truthy data && Js.truthy (Js.get "process_UUID" data) then
    let k := Js.toPropertyKey (Js.get "process_UUID" data) in
    let store' :=
      if present store k then store else create store k (newEntry data false)
    in
    assign store' k TimeGrade (Js.get "final_time_representativeness" data)
  else Ret store.

(** A [for] loop whose body may throw *)
Fixpoint forEach (body : Store → Message → Result Store) (store : Store)
    (summaries : list Message) : Result Store :=
  match summaries with
  | [] => Ret store
  | summary :: rest =>
      store' ← body store summary;
      forEach body store' rest
  end.

(** The mapping built by lines 996-1047 *)
Definition collectGrades (messages : list Message) : Result Store :=
  let technicalSummaries :=
    List.filter (hasToolCall "technical_summary") messages in
  let spatialSummaries :=
    List.filter (hasToolCall "spatial_summary") messages in
  let timeSummaries :=
    List.filter (hasToolCall "time_summary") messages in
  store1 ← forEach addTechnical ([], cleanPrototype) technicalSummaries;
  store2 ← forEach addSpatial store1 spatialSummaries;
  forEach addTime store2 timeSummaries.

(** What the loop of lines 1056-1089 reads from an entry: its own
    properties and, where it has none of the name, what [Object.prototype]
    has gained. *)
Definition processDataOf (p : Prototype) (e : Entry) : ProcessData :=
  mkProcessData
    (readSlot (own_process_UUID e) None)
    (readSlot (own_process_name e) None)
    (readSlot (own_location e) (added_location p))
    (readSlot (own_flow_count e) None)
    (readSlot (own_technical_grade e) (added_technical_grade p))
    (readSlot (own_spatial_grade e) (added_spatial_grade p))
    (readSlot (own_time_grade e) (added_time_grade p)).

(** [final_summarizer] (lines 977-1097): it calls no oracle, and it throws
    what an assignment of its three loops throws. *)
Definition final_summarizer (state : State) : Result Update :=
  store ← collectGrades (messages state);
  let finalSummaries :=
    omap (fun entry : string * Entry =>
            materialize (entry.1, processDataOf store.2 entry.2))
         store.1 in
  Ret (mkUpdate finalSummaries None).

(** No message of the history names a member of [Object.prototype] as its
    process. *)
Definition plainHistory (history : list Message) : Prop :=
  Forall (fun m =>
            Js.inherited
              (Js.toPropertyKey (Js.get "process_UUID" (firstArgs m)))
            = false)
         history.

(** A technical summary for the process [__proto__], and the spatial and
    the time summary of the process [p-2], which has no technical summary *)
Definition pollutedHistory : list Message :=
  [toolMessage "technical_summary"
     [("process_UUID", JStr "__proto__"); ("process_name", JStr "smelting");
      ("final_technical_representativeness", JStr "1")];
   toolMessage "spatial_summary"
     [("process_UUID", JStr "p-2"); ("process_name", JStr "casting");
      ("location", JStr "DE");
      ("final_spatial_representativeness", JStr "1")];
   toolMessage "time_summary"
     [("process_UUID", JStr "p-2");
      ("final_time_representativeness", JStr "2")]].

End FinalSummarizer.

(* ===================================================================== *)
(** ** The summary of the grades and the selection in the queue graph
       ([part_002], lines 45-52, 558-613 and 844-920) *)
(* ===================================================================== *)

Module QueueKeyStages.
Import QueueAgent.

(** [technicalResults[i]?.tool_calls?.[0]?.args || "No data"] *)
Definition graderOutput (technicalResults : list Message) (i : nat) : json :=
  Js.or (QueueGraph.firstArgsOf (technicalResults !! i)) (JStr "No data").

(** The request of [summarize_technical_grades] (lines 600-608): the first
    three grader outputs of the history *)
Definition summaryRequest (state : State) : Request :=
  let technicalResults :=
    List.filter (firstToolCallIs "technical_grader") (messages state) in
  mkRequest "technical_summary"
    [("output1", graderOutput technicalResults 0);
     ("output2", graderOutput technicalResults 1);
     ("output3", graderOutput technicalResults 2)].

(** [summarize_technical_grades] (lines 558-613): one call of the oracle,
    outside any [try] *)
Definition summarize_technical_grades (oracle : Oracle) (state : State)
  : Async Update :=
  response ← invoke oracle (summaryRequest state);
  mret (mkUpdate [response] None None None None None).

(** [getSelectedFlow] (lines 45-52) *)
Definition getSelectedFlow (fs : DataSource.FileSystem) (file_path : string)
    (processUUID : json) : json :=
  DataSource.getSheetData fs file_path "flow_all"
    (Some [("process_UUID", processUUID); ("Input/Output", JStr "Input")])
    (Some ["flow_name"; "flow_UUID"]).

(** The request of [process_selector] (lines 848-850 and 901-907): the
    first [final_summary] of the history, not all of them *)
Definition selectorRequest (state : State) : Request :=
  let finalSummary :=
    find (hasToolCall "final_summary") (messages state) in
  let heterogeneityEval :=
    find (hasToolCall "heterogeneity_evaluator") (messages state) in
  mkRequest "process_selector"
    [("process_info",
      Js.or (QueueGraph.firstArgsOf finalSummary) (JStr "No data"));
     ("heterogeneity",
      Js.or (QueueGraph.firstArgsOf heterogeneityEval) (JStr "No data"))].

(** [process_selector] (lines 844-920) *)
Definition process_selector (fs : DataSource.FileSystem) (file_path : string)
    (oracle : Oracle) (state : State) : Async Update :=
  response ← invoke oracle (selectorRequest state);
  let selectedProcessUUID :=
    Js.or (Js.get "process_UUID" (firstArgs response)) (JStr "") in
  let selectedFlows := getSelectedFlow fs file_path selectedProcessUUID in
  mret (mkUpdate [response] (Some selectedFlows) None None None None).

(** The process a stage result selects *)
Definition selectedProcess (result : Result Update) : option json :=
  match result with
  | Ret update =>
      match new_messages update with
      | response :: _ => firstArgs response
      | [] => None
      end
  | Throw _ => None
  end.

(** Two processes with their final summaries, the second with the lower
    technical grade *)
Definition twoSummaries : State :=
  queueStateOf
    [toolMessage "final_summary"
       [("process_UUID", JStr "A");
        ("technical_representativeness", JStr "2")];
     toolMessage "final_summary"
       [("process_UUID", JStr "B");
        ("technical_representativeness", JStr "1")]].

(** An oracle that selects the process it is shown *)
Definition shown : Oracle :=
  fun _ request =>
    Ret (toolMessage "process_selector"
           match Js.lookup "process_info" (inputs request) with
           | Some (JObj fields) => fields
           | _ => []
           end).

End QueueKeyStages.

(* ===================================================================== *)
(** * Properties *)
(* ===================================================================== *)

(* --------------------------------------------------------------------- *)
(** ** The canonical key *)
(* --------------------------------------------------------------------- *)

Section CanonicalKey.

Import JsString.

Lemma toLowerCaseUnit_idem (c : ascii) :
  toLowerCaseUnit (toLowerCaseUnit c) = toLowerCaseUnit c.
Proof. destruct c as [[] [] [] [] [] [] [] []]; reflexivity. Qed.

Lemma isWhiteSpace_toLowerCaseUnit (c : ascii) :
  isWhiteSpace (toLowerCaseUnit c) = isWhiteSpace c.
Proof. destruct c as [[] [] [] [] [] [] [] []]; reflexivity. Qed.

Lemma prefix_nil (n : nat) : String.substring 0 n EmptyString = EmptyString.
Proof. destruct n; reflexivity. Qed.

Lemma prefix_cons (n : nat) (c : ascii) (s : string) :
  String.substring 0 (S n) (String c s) = String c (String.substring 0 n s).
Proof. reflexivity. Qed.

Lemma prefix_idem (n : nat) (s : string) :
  String.substring 0 n (String.substring 0 n s) = String.substring 0 n s.
Proof.
  revert s; induction n as [|n IH]; intros [|c s]; try reflexivity.
  rewrite !prefix_cons, IH. reflexivity.
Qed.

Lemma prefix_length (n : nat) (s : string) :
  String.length (String.substring 0 n s) ≤ String.length s.
Proof.
  revert s; induction n as [|n IH]; intros [|c s]; simpl; try lia.
  specialize (IH s). lia.
Qed.

Lemma prefix_short (n : nat) (s : string) :
  String.length s ≤ n → String.substring 0 n s = s.
Proof.
  revert s; induction n as [|n IH]; intros [|c s] Hlen; simpl in *;
    try reflexivity; try lia.
  f_equal. apply IH. lia.
Qed.

Lemma toLowerCase_length (s : string) :
  String.length (toLowerCase s) = String.length s.
Proof. induction s as [|c s IH]; simpl; congruence. Qed.

Lemma toLowerCase_prefix_fixed (n : nat) (s : string) :
  toLowerCase (String.substring 0 n (toLowerCase s))
  = String.substring 0 n (toLowerCase s).
Proof.
  revert s; induction n as [|n IH]; intros [|c s]; try reflexivity.
  simpl toLowerCase at 2 3. rewrite !prefix_cons. simpl.
  rewrite toLowerCaseUnit_idem, IH. reflexivity.
Qed.

Lemma startsWithWhiteSpace_trimStart (s : string) :
  startsWithWhiteSpace (trimStart s) = false.
Proof.
  induction s as [|c s IH]; simpl; [reflexivity|].
  destruct (isWhiteSpace c) eqn:Hc; [exact IH|]. simpl. exact Hc.
Qed.

Lemma startsWithWhiteSpace_trimEnd (s : string) :
  startsWithWhiteSpace s = false → startsWithWhiteSpace (trimEnd s) = false.
Proof.
  destruct s as [|c s]; simpl; [reflexivity|]. intros Hc.
  destruct (trimEnd s); [rewrite Hc|]; simpl; auto.
Qed.

Lemma startsWithWhiteSpace_toLowerCase (s : string) :
  startsWithWhiteSpace (toLowerCase s) = startsWithWhiteSpace s.
Proof. destruct s; simpl; [reflexivity|apply isWhiteSpace_toLowerCaseUnit]. Qed.

Lemma startsWithWhiteSpace_prefix (n : nat) (s : string) :
  startsWithWhiteSpace s = false →
  startsWithWhiteSpace (String.substring 0 n s) = false.
Proof. destruct n, s; simpl; auto. Qed.

Lemma trimStart_fixed (s : string) :
  startsWithWhiteSpace s = false → trimStart s = s.
Proof. destruct s; simpl; [reflexivity|]. intros ->. reflexivity. Qed.

Lemma trimEnd_fixed (s : string) :
  endsWithWhiteSpace s = false → trimEnd s = s.
Proof.
  induction s as [|c s IH]; [reflexivity|]. simpl.
  destruct s as [|c' s'].
  - simpl. intros ->. reflexivity.
  - intros H. rewrite (IH H). reflexivity.
Qed.

Lemma trimStart_length (s : string) :
  String.length (trimStart s) ≤ String.length s.
Proof.
  induction s as [|c s IH]; simpl; [lia|].
  destruct (isWhiteSpace c); simpl; lia.
Qed.

Lemma trimEnd_length (s : string) :
  String.length (trimEnd s) ≤ String.length s.
Proof.
  induction s as [|c s IH]; simpl; [lia|].
  destruct (trimEnd s); [destruct (isWhiteSpace c)|]; simpl in *; lia.
Qed.

Lemma trimEnd_shorter (s : string) :
  endsWithWhiteSpace s = true → String.length (trimEnd s) < String.length s.
Proof.
  induction s as [|c s IH]; [discriminate|]. simpl.
  destruct s as [|c' s'].
  - simpl. intros ->. simpl. lia.
  - intros H. specialize (IH H).
    destruct (trimEnd (String c' s')); [destruct (isWhiteSpace c)|];
      simpl in *; lia.
Qed.

Lemma demandHash_unfold (T : string) :
  demandHash T = String.substring 0 100 (toLowerCase (trim T)).
Proof. reflexivity. Qed.

Lemma demandHash_length (T : string) : String.length (demandHash T) ≤ 100.
Proof.
  rewrite demandHash_unfold. generalize (toLowerCase (trim T)), 100.
  intros s n; revert s; induction n as [|n IH]; intros [|c s]; simpl; try lia.
  specialize (IH s). lia.
Qed.

Lemma demandHash_no_leading_white_space (T : string) :
  startsWithWhiteSpace (demandHash T) = false.
Proof.
  rewrite demandHash_unfold. apply startsWithWhiteSpace_prefix.
  rewrite startsWithWhiteSpace_toLowerCase.
  apply startsWithWhiteSpace_trimEnd, startsWithWhiteSpace_trimStart.
Qed.

(** A key that does not end in white space is a fixed point. *)
Lemma demandHash_fixed (T : string) :
  endsWithWhiteSpace (demandHash T) = false →
  demandHash (demandHash T) = demandHash T.
Proof.
  intros Hend.
  rewrite (demandHash_unfold (demandHash T)). unfold trim.
  rewrite (trimStart_fixed _ (demandHash_no_leading_white_space T)).
  rewrite (trimEnd_fixed _ Hend).
  rewrite (demandHash_unfold T), toLowerCase_prefix_fixed.
  apply prefix_idem.
Qed.

(** A key that ends in white space is shortened by a second application. *)
Lemma demandHash_shrinks (T : string) :
  endsWithWhiteSpace (demandHash T) = true →
  String.length (demandHash (demandHash T)) < String.length (demandHash T).
Proof.
  intros Hend.
  rewrite (demandHash_unfold (demandHash T)). unfold trim.
  rewrite (trimStart_fixed _ (demandHash_no_leading_white_space T)).
  pose proof (trimEnd_shorter _ Hend) as Hlt.
  pose proof (prefix_length 100 (toLowerCase (trimEnd (demandHash T)))) as Hle.
  rewrite toLowerCase_length in Hle. lia.
Qed.

End CanonicalKey.

Example demandHash_sample :
  demandHash "  Aluminium INGOT production, CN, 2020  "
  = "aluminium ingot production, cn, 2020".
Proof. reflexivity. Qed.

(** C4, counterexample: the key of [text_with_space_at_100] ends in the space
    that the truncation exposes, and taking the key of that key trims it. *)
Lemma demandHash_not_idempotent :
  demandHash (demandHash text_with_space_at_100)
  ≠ demandHash text_with_space_at_100.
Proof. vm_compute. discriminate. Qed.

(** C4, amended: for a text [T] of Latin-1 characters (every code unit below
    256, which is what a [string] holds here),
    [demandHash (demandHash T) = demandHash T] holds exactly when the key of
    [T] does not end in a white-space code unit. *)
Theorem demandHash_idempotent_iff (T : string) :
  demandHash (demandHash T) = demandHash T
  ↔ JsString.endsWithWhiteSpace (demandHash T) = false.
Proof.
  split.
  - intros Heq.
    destruct (JsString.endsWithWhiteSpace (demandHash T)) eqn:Hend;
      [|reflexivity].
    pose proof (demandHash_shrinks T Hend) as Hlt.
    rewrite Heq in Hlt. lia.
  - apply demandHash_fixed.
Qed.

Lemma demandHash_idempotent_witness :
  demandHash (demandHash "  Bauxite Mining, CN ")
  = demandHash "  Bauxite Mining, CN ".
Proof.
  apply (proj2 (demandHash_idempotent_iff "  Bauxite Mining, CN ")).
  reflexivity.
Defined.

Lemma endsWithWhiteSpace_trimEnd (s : string) :
  JsString.endsWithWhiteSpace (JsString.trimEnd s) = false.
Proof.
  induction s as [|c s IH]; [reflexivity|]. simpl.
  destruct (JsString.trimEnd s) as [|c' r].
  - destruct (JsString.isWhiteSpace c) eqn:Hc; simpl; auto.
  - exact IH.
Qed.

Lemma endsWithWhiteSpace_toLowerCase (s : string) :
  JsString.endsWithWhiteSpace (JsString.toLowerCase s)
  = JsString.endsWithWhiteSpace s.
Proof.
  induction s as [|c s IH]; [reflexivity|].
  destruct s as [|c' s']; [apply isWhiteSpace_toLowerCaseUnit|exact IH].
Qed.

(** Texts of Latin-1 characters that fit into the prefix once trimmed are
    never cut, and their keys are fixed points: on such a text
    [toLowerCase] keeps the number of code units. *)
Corollary demandHash_idempotent_short (T : string) :
  String.length (JsString.trim T) ≤ 100 →
  demandHash (demandHash T) = demandHash T.
Proof.
  intros Hlen. apply demandHash_fixed.
  rewrite demandHash_unfold, prefix_short
    by (rewrite toLowerCase_length; exact Hlen).
  rewrite endsWithWhiteSpace_toLowerCase.
  apply endsWithWhiteSpace_trimEnd.
Qed.

(* --------------------------------------------------------------------- *)
(** ** The tree-recursive controller: no key is admitted twice *)
(* --------------------------------------------------------------------- *)

Module RecursionFacts.
Import Recursion.

Lemma admittedKeys_app (evs1 evs2 : list event) :
  admittedKeys (evs1 ++ evs2) = admittedKeys evs1 ++ admittedKeys evs2.
Proof. apply omap_app. Qed.

Lemma fresh_nil (st st' : Store) :
  processedDemands st' = processedDemands st → fresh st [] st'.
Proof.
  intros Heq. repeat split; simpl.
  - constructor.
  - intros k Hk. inversion Hk.
  - rewrite Heq. auto.
  - rewrite Heq. intros [Hk|Hk]; [inversion Hk|exact Hk].
Qed.

Lemma fresh_app (st st1 st2 : Store) (evs1 evs2 : list event) :
  fresh st evs1 st1 → fresh st1 evs2 st2 → fresh st (evs1 ++ evs2) st2.
Proof.
  intros (Hnd1 & Hnew1 & Hset1) (Hnd2 & Hnew2 & Hset2).
  unfold fresh. rewrite admittedKeys_app. repeat split.
  - apply NoDup_app. repeat split; auto.
    intros k Hk1 Hk2. apply (Hnew2 k Hk2). apply Hset1. auto.
  - intros k [Hk|Hk]%elem_of_app; [auto|].
    intros Hin. apply (Hnew2 k Hk). apply Hset1. auto.
  - intros Hk. apply Hset2 in Hk as [Hk|Hk].
    + left. apply elem_of_app. auto.
    + apply Hset1 in Hk as [Hk|Hk]; [left; apply elem_of_app|]; auto.
  - intros [[Hk|Hk]%elem_of_app|Hk]; apply Hset2.
    + right. apply Hset1. auto.
    + auto.
    + right. apply Hset1. auto.
Qed.

Lemma fresh_same_set (st st0 st' : Store) (evs : list event) :
  processedDemands st = processedDemands st0 →
  fresh st0 evs st' → fresh st evs st'.
Proof. unfold fresh. intros ->. auto. Qed.

Lemma enter_fresh (st : Store) (demand : string) (depth : nat) :
  fresh st (enter st demand depth).2 (enter st demand depth).1.1.
Proof.
  unfold enter. destruct (MAX_RECURSION_DEPTH <=? depth).
  { apply fresh_nil. reflexivity. }
  destruct (decide (demandHash demand ∈ processedDemands st)) as [Hin|Hout].
  { apply fresh_nil. reflexivity. }
  repeat split; simpl.
  - apply NoDup_singleton.
  - intros k ->%list_elem_of_singleton. exact Hout.
  - intros [->%elem_of_singleton|Hk]%elem_of_union;
      [left; apply list_elem_of_singleton; reflexivity|right; exact Hk].
  - intros [->%list_elem_of_singleton|Hk]; set_solver.
Qed.

Lemma enterAll_fresh (batch : list Demand) (depth : nat) (st : Store) :
  fresh st (enterAll st batch depth).2 (enterAll st batch depth).1.1.
Proof.
  revert st; induction batch as [|d batch IH]; intros st; simpl.
  { apply fresh_nil. reflexivity. }
  pose proof (enter_fresh st (demand_content d) depth) as H1.
  destruct (enter st (demand_content d) depth) as [[st1 c] evs1].
  specialize (IH st1).
  destruct (enterAll st1 batch depth) as [[st2 cs] evs2]. simpl in *.
  eapply fresh_app; eauto.
Qed.

Lemma processInBatches_fresh (st : Store) (depth : nat) (pending : list Demand) :
  fresh st (processInBatches st depth pending).2
        (processInBatches st depth pending).1.1.
Proof.
  destruct pending as [|d pending]; simpl.
  { apply fresh_nil. reflexivity. }
  pose proof (enterAll_fresh (take CONCURRENCY_LIMIT (d :: pending))
                (depth + 1) st) as H.
  simpl in H.
  destruct (enter st (demand_content d) (depth + 1)) as [[st1 c] evs1].
  destruct (enterAll st1 _ (depth + 1)) as [[st2 cs] evs2]. exact H.
Qed.

Lemma resume_fresh (st : Store) (depth : nat) (result : GraphResult) :
  fresh st (resume st depth result).2 (resume st depth result).1.1.
Proof.
  unfold resume.
  set (st1 := match find (hasToolCall "process_selector") (messages result)
              with Some _ => _ | None => st end).
  assert (Hst1 : processedDemands st1 = processedDemands st)
    by (subst st1; destruct (find _ _); reflexivity).
  destruct (find (hasToolCall "workflow_restarter") (messages result));
    [|apply fresh_nil; exact Hst1].
  destruct (0 <? length (demands result)); [|apply fresh_nil; exact Hst1].
  eapply fresh_same_set; [|apply processInBatches_fresh]. simpl. auto.
Qed.

Section AnyGraph.

Variable graph : string → GraphOutcome → Prop.

Lemma step_fresh cfg evs cfg' :
  step graph cfg evs cfg' → fresh cfg.1 evs cfg'.1.
Proof.
  induction 1; simpl in *.
  - apply resume_fresh.
  - apply fresh_nil. reflexivity.
  - apply processInBatches_fresh.
  - assumption.
Qed.

Lemma steps_fresh cfg evs cfg' :
  steps graph cfg evs cfg' → fresh cfg.1 evs cfg'.1.
Proof.
  induction 1 as [cfg|cfg1 evs1 cfg2 evs2 cfg3 Hstep Hsteps IH].
  - apply fresh_nil. reflexivity.
  - eapply fresh_app; [eapply step_fresh; eassumption|exact IH].
Qed.

Lemma lifecycle_fresh initialDemand evs cfg :
  lifecycle graph initialDemand evs cfg →
  fresh (mkStore ∅ [] []) evs cfg.1.
Proof.
  intros (evs' & Hsteps & ->).
  eapply fresh_app; [apply enter_fresh|].
  apply steps_fresh in Hsteps. exact Hsteps.
Qed.

End AnyGraph.

(** A call whose key is in the set is turned away before anything else
    happens: the store is unchanged and no graph run is requested. *)
Lemma enter_visited (st : Store) (demand : string) (depth : nat) :
  demandHash demand ∈ processedDemands st →
  (enter st demand depth).1.1 = st
  ∧ isReturned (enter st demand depth).1.2 = true
  ∧ admittedKeys (enter st demand depth).2 = [].
Proof.
  intros Hin. unfold enter. destruct (MAX_RECURSION_DEPTH <=? depth); [auto|].
  destruct (decide _) as [|Hout]; [auto|contradiction].
Qed.

(** The executable schedule is one of the interleavings. *)
Section ScheduleSound.

Variable oracle : string → GraphOutcome.

Let graph : string → GraphOutcome → Prop := fun demand o => o = oracle demand.

Lemma call_nested_ind (P : call → Prop) :
  (∀ r, P (Returned r)) →
  (∀ demand depth, P (Awaiting demand depth)) →
  (∀ depth running rest, Forall P running → P (InBatches depth running rest)) →
  ∀ c, P c.
Proof.
  intros HR HA HB. fix IH 1. intros [r|demand depth|depth running rest].
  - apply HR.
  - apply HA.
  - apply HB. induction running as [|c running IHr]; constructor.
    + apply IH.
    + exact IHr.
Qed.

Lemma firstTurn_step (st : Store) (depth : nat) (rest : list Demand)
    (cs before : list call) res :
  Forall (fun c => ∀ st st' c' evs, turn oracle st c = Some (st', c', evs) →
                   step graph (st, c) evs (st', c')) cs →
  firstTurn (turn oracle st) depth rest before cs = Some res →
  step graph (st, InBatches depth (before ++ cs) rest) res.2 res.1.
Proof.
  intros Hall; revert before.
  induction Hall as [|c cs Hc Hcs IH]; intros before; simpl; [discriminate|].
  destruct (turn oracle st c) as [[[st' c'] evs]|] eqn:Hturn.
  - intros [= <-]. simpl. apply step_child. apply Hc. exact Hturn.
  - intros Hfirst. apply IH in Hfirst.
    rewrite <- app_assoc in Hfirst. exact Hfirst.
Qed.

Lemma turn_step (c : call) :
  ∀ st st' c' evs, turn oracle st c = Some (st', c', evs) →
                   step graph (st, c) evs (st', c').
Proof.
  induction c as [r|demand depth|depth running rest IH] using call_nested_ind;
    intros st st' c' evs; simpl.
  - discriminate.
  - intros [= Heq]. destruct (oracle demand) as [result|error] eqn:Ho.
    + pose proof (step_resolve graph st demand depth result
                    (eq_sym Ho)) as Hstep.
      rewrite Heq in Hstep. exact Hstep.
    + inversion Heq; subst. apply step_reject. exact (eq_sym Ho).
  - destruct (forallb isReturned running) eqn:Hdone.
    + intros [= Heq].
      pose proof (step_batch graph st depth running rest Hdone) as Hstep.
      rewrite Heq in Hstep. exact Hstep.
    + intros Hfirst.
      apply (firstTurn_step st depth rest running [] _ IH) in Hfirst.
      exact Hfirst.
Qed.

Lemma run_steps (fuel : nat) (st : Store) (c : call) :
  steps graph (st, c) (run oracle fuel st c).2 (run oracle fuel st c).1.
Proof.
  revert st c; induction fuel as [|fuel IH]; intros st c; simpl.
  { apply steps_nil. }
  destruct (turn oracle st c) as [[[st' c'] evs]|] eqn:Hturn;
    [|apply steps_nil].
  specialize (IH st' c').
  destruct (run oracle fuel st' c') as [[st'' c''] evs']. simpl in *.
  eapply steps_cons; [apply turn_step; exact Hturn|exact IH].
Qed.

Lemma analyze_lifecycle (fuel : nat) (initialDemand : string) :
  lifecycle graph initialDemand
            (analyze oracle fuel initialDemand).2
            (analyze oracle fuel initialDemand).1.
Proof.
  unfold analyze, lifecycle.
  destruct (analyzeCompleteLifeCycle initialDemand) as [[st c] evs] eqn:Hstart.
  pose proof (run_steps fuel st c) as Hrun.
  destruct (run oracle fuel st c) as [[st' c'] evs']. simpl in *.
  exists evs'. split; [exact Hrun|reflexivity].
Qed.

End ScheduleSound.

(** The run of [sameInputs]: the second input of the root has the key of the
    first and is skipped, and so are both inputs of the first input. *)
Example sameInputs_run :
  (analyze sameInputs 10 "Aluminium ingot").2
  = [EvCall "Aluminium ingot" 0; EvInvoke "Aluminium ingot" 0;
     EvCall "Alumina production" 1; EvInvoke "Alumina production" 1;
     EvCall "  alumina PRODUCTION " 1; EvDuplicate "  alumina PRODUCTION ";
     EvCall "Alumina production" 2; EvDuplicate "Alumina production";
     EvCall "  alumina PRODUCTION " 2; EvDuplicate "  alumina PRODUCTION "]
  ∧ (analyze sameInputs 10 "Aluminium ingot").1.2 = Returned Success.
Proof. vm_compute. split; reflexivity. Qed.

(** The run of [twoInputs]: 2 + 4 + 8 calls below the root, of which the
    2 + 4 above depth 3 are admitted. *)
Example twoInputs_run :
  childCalls (analyze twoInputs 20 "Al").2 = 14
  ∧ childAdmissions (analyze twoInputs 20 "Al").2 = 6
  ∧ (analyze twoInputs 20 "Al").1.2 = Returned Success.
Proof. vm_compute. repeat split; reflexivity. Qed.

(** C1: within one lifecycle analysis, whatever the graph answers and in
    whatever order the pending promises are settled, no two admitted calls
    have the same canonical key.  The set [processedDemands] holds exactly the
    admitted keys, a call whose key is in the set is turned away without
    touching the store, and the keys a turn of the event loop admits are
    absent from the set when the turn starts and present when it ends: the
    look-up and the insertion are never separated by another turn. *)
Theorem no_key_accepted_twice (graph : string → GraphOutcome → Prop)
    (initialDemand : string) (evs : list event) (cfg : Store * call) :
  lifecycle graph initialDemand evs cfg →
  NoDup (admittedKeys evs)
  ∧ (∀ k, k ∈ processedDemands cfg.1 ↔ k ∈ admittedKeys evs)
  ∧ (∀ demand depth,
       demandHash demand ∈ processedDemands cfg.1 →
       (enter cfg.1 demand depth).1.1 = cfg.1
       ∧ isReturned (enter cfg.1 demand depth).1.2 = true
       ∧ admittedKeys (enter cfg.1 demand depth).2 = [])
  ∧ (∀ evs' cfg', step graph cfg evs' cfg' → fresh cfg.1 evs' cfg'.1).
Proof.
  intros Hrun.
  destruct (lifecycle_fresh graph initialDemand evs cfg Hrun)
    as (Hnd & _ & Hset).
  split; [exact Hnd|]. split; [|split].
  - intros k. rewrite Hset. simpl. split; [|auto].
    intros [Hk|Hk]; [exact Hk|]. apply not_elem_of_empty in Hk. contradiction.
  - intros demand depth. apply enter_visited.
  - intros evs' cfg'. apply step_fresh.
Qed.

Lemma no_key_accepted_twice_witness :
  NoDup (admittedKeys (analyze sameInputs 10 "Aluminium ingot").2).
Proof.
  exact (proj1 (no_key_accepted_twice _ "Aluminium ingot" _ _
                  (analyze_lifecycle sameInputs 10 "Aluminium ingot"))).
Defined.

(* --------------------------------------------------------------------- *)
(** ** The tree-recursive controller: bounded branching *)
(* --------------------------------------------------------------------- *)

Section Budgets.

Variables wc wi : nat.

Lemma totalWeight_app (evs1 evs2 : list event) :
  totalWeight wc wi (evs1 ++ evs2)
  = totalWeight wc wi evs1 + totalWeight wc wi evs2.
Proof. apply sum_list_with_app. Qed.

Lemma weightBelow_two_calls (depth : nat) :
  2 * weightFrom wc wi (depth + 1) ≤ weightBelow wc wi depth.
Proof.
  unfold weightFrom, MAX_RECURSION_DEPTH.
  destruct depth as [|[|[|depth]]]; simpl; lia.
Qed.

Lemma enter_budget (st : Store) (demand : string) (depth : nat) :
  totalWeight wc wi (enter st demand depth).2
  + budget wc wi (enter st demand depth).1.2
  ≤ weightFrom wc wi depth.
Proof.
  unfold enter, weightFrom.
  destruct (MAX_RECURSION_DEPTH <=? depth); [simpl; lia|].
  destruct (decide _); simpl; lia.
Qed.

Lemma enterAll_budget (batch : list Demand) (depth : nat) (st : Store) :
  totalWeight wc wi (enterAll st batch depth).2
  + sum_list_with (budget wc wi) (enterAll st batch depth).1.2
  ≤ length batch * weightFrom wc wi depth.
Proof.
  revert st; induction batch as [|d batch IH]; intros st; simpl; [lia|].
  pose proof (enter_budget st (demand_content d) depth) as H1.
  destruct (enter st (demand_content d) depth) as [[st1 c] evs1].
  specialize (IH st1).
  destruct (enterAll st1 batch depth) as [[st2 cs] evs2]. simpl in *.
  rewrite totalWeight_app. lia.
Qed.

Lemma processInBatches_budget (st : Store) (depth : nat)
    (pending : list Demand) :
  totalWeight wc wi (processInBatches st depth pending).2
  + budget wc wi (processInBatches st depth pending).1.2
  ≤ length pending * weightFrom wc wi (depth + 1).
Proof.
  destruct pending as [|d pending]; [simpl; lia|].
  unfold processInBatches.
  pose proof (enterAll_budget (take CONCURRENCY_LIMIT (d :: pending))
                (depth + 1) st) as H.
  destruct (enterAll st _ (depth + 1)) as [[st2 cs] evs2].
  cbn [fst snd budget] in *.
  pose proof (length_take (d :: pending) CONCURRENCY_LIMIT) as Htake.
  pose proof (length_drop (d :: pending) CONCURRENCY_LIMIT) as Hdrop.
  rewrite Hdrop. nia.
Qed.

Lemma resume_budget (st : Store) (depth : nat) (result : GraphResult) :
  length (demands result) = 2 →
  totalWeight wc wi (resume st depth result).2
  + budget wc wi (resume st depth result).1.2
  ≤ weightBelow wc wi depth.
Proof.
  intros Htwo. unfold resume.
  destruct (find (hasToolCall "workflow_restarter") (messages result));
    [|simpl; lia].
  destruct (0 <? length (demands result)); [|simpl; lia].
  match goal with |- context [processInBatches ?s ?d ?p] =>
    pose proof (processInBatches_budget s d p) as H end.
  rewrite Htwo in H. pose proof (weightBelow_two_calls depth). lia.
Qed.

Section TwoDemands.

Variable graph : string → GraphOutcome → Prop.

(** Every graph run that resolves yields exactly two new demands. *)
Hypothesis graph_two :
  ∀ demand result, graph demand (Resolved result) →
                   length (demands result) = 2.

Lemma step_budget cfg evs cfg' :
  step graph cfg evs cfg' →
  totalWeight wc wi evs + budget wc wi cfg'.2 ≤ budget wc wi cfg.2.
Proof.
  induction 1 as [st demand depth result Hg|st demand depth error Hg
                 |st depth running rest Hdone
                 |st st' depth before c c' after rest evs Hstep IH].
  - apply resume_budget. eauto.
  - simpl. lia.
  - pose proof (processInBatches_budget st depth rest). simpl in *. lia.
  - simpl in *. rewrite !sum_list_with_app. simpl. lia.
Qed.

Lemma steps_budget cfg evs cfg' :
  steps graph cfg evs cfg' →
  totalWeight wc wi evs + budget wc wi cfg'.2 ≤ budget wc wi cfg.2.
Proof.
  induction 1 as [cfg|cfg1 evs1 cfg2 evs2 cfg3 Hstep Hsteps IH]; [simpl; lia|].
  apply step_budget in Hstep. rewrite totalWeight_app. lia.
Qed.

End TwoDemands.

End Budgets.

Lemma childAdmissions_app (evs1 evs2 : list event) :
  childAdmissions (evs1 ++ evs2) = childAdmissions evs1 + childAdmissions evs2.
Proof. unfold childAdmissions. rewrite List.filter_app, length_app. done. Qed.

Lemma childCalls_app (evs1 evs2 : list event) :
  childCalls (evs1 ++ evs2) = childCalls evs1 + childCalls evs2.
Proof. unfold childCalls. rewrite List.filter_app, length_app. done. Qed.

Lemma childAdmissions_weight (evs : list event) :
  childAdmissions evs ≤ totalWeight 0 1 evs.
Proof.
  induction evs as [|[d n|n|d|d [|n]] evs IH];
    unfold childAdmissions in *; simpl in *; lia.
Qed.

Lemma childCalls_weight (evs : list event) :
  childCalls evs ≤ totalWeight 1 0 evs.
Proof.
  induction evs as [|[d [|n]|n|d|d n] evs IH];
    unfold childCalls in *; simpl in *; lia.
Qed.

Lemma root_call_budget (wc wi : nat) (initialDemand : string) :
  budget wc wi (analyzeCompleteLifeCycle initialDemand).1.2
  = weightBelow wc wi 0.
Proof. reflexivity. Qed.

Lemma root_call_events (initialDemand : string) :
  (analyzeCompleteLifeCycle initialDemand).2
  = [EvCall initialDemand 0; EvInvoke initialDemand 0].
Proof. reflexivity. Qed.

Section TwoDemandsBounds.

Variable graph : string → GraphOutcome → Prop.

Hypothesis graph_two :
  ∀ demand result, graph demand (Resolved result) →
                   length (demands result) = 2.

(** At most 2 + 4 calls below the root are admitted: those at depth 3 are
    all turned away by the depth check. *)
Lemma childAdmissions_at_most_6 initialDemand evs cfg :
  lifecycle graph initialDemand evs cfg → childAdmissions evs ≤ 6.
Proof.
  intros (evs' & Hsteps & ->).
  apply (steps_budget 0 1 graph graph_two) in Hsteps.
  rewrite root_call_budget in Hsteps.
  rewrite childAdmissions_app, root_call_events.
  pose proof (childAdmissions_weight evs').
  unfold childAdmissions at 1. simpl in *. lia.
Qed.

(** At most 2 + 4 + 8 calls are issued below the root. *)
Lemma childCalls_at_most_14 initialDemand evs cfg :
  lifecycle graph initialDemand evs cfg → childCalls evs ≤ 14.
Proof.
  intros (evs' & Hsteps & ->).
  apply (steps_budget 1 0 graph graph_two) in Hsteps.
  rewrite root_call_budget in Hsteps.
  rewrite childCalls_app, root_call_events.
  pose proof (childCalls_weight evs').
  unfold childCalls at 1. simpl in *. lia.
Qed.

End TwoDemandsBounds.

(** C2: with the maximum depth 3 and a graph that yields exactly two new
    demands whenever it resolves, at most 2 + 4 + 8 = 14 calls below the root
    are admitted, in every run and for every order of the turns. *)
Theorem childAdmissions_bounded (graph : string → GraphOutcome → Prop)
    (initialDemand : string) (evs : list event) (cfg : Store * call) :
  (∀ demand result, graph demand (Resolved result) →
                    length (demands result) = 2) →
  lifecycle graph initialDemand evs cfg →
  childAdmissions evs ≤ 2 + 4 + 8.
Proof.
  intros Htwo Hrun.
  pose proof (childAdmissions_at_most_6 graph Htwo initialDemand evs cfg Hrun).
  lia.
Qed.

Lemma twoInputs_two (demand : string) (result : GraphResult) :
  Resolved result = twoInputs demand → length (demands result) = 2.
Proof. intros [= ->]. reflexivity. Qed.

Lemma childAdmissions_bounded_witness :
  childAdmissions (analyze twoInputs 20 "Al").2 ≤ 2 + 4 + 8.
Proof.
  exact (childAdmissions_bounded _ "Al" _ _ twoInputs_two
           (analyze_lifecycle twoInputs 20 "Al")).
Defined.

End RecursionFacts.


(* --------------------------------------------------------------------- *)
(** ** Objects as lists of own properties *)
(* --------------------------------------------------------------------- *)

Section JsFacts.

Lemma eqb_true (a b : string) : String.eqb a b = true ↔ a = b.
Proof. apply String.eqb_eq. Qed.

Lemma eqb_false (a b : string) : String.eqb a b = false ↔ a ≠ b.
Proof. apply String.eqb_neq. Qed.

Lemma keys_set (k : string) {V : Type} (v : V) (fields : list (string * V)) (k' : string) :
  k' ∈ Js.keys (Js.set k v fields) ↔ k' = k ∨ k' ∈ Js.keys fields.
Proof.
  unfold Js.keys. induction fields as [|[k0 v0] fields IH]; simpl.
  - rewrite list_elem_of_singleton. split; [auto|].
    intros [H|H]; [exact H|inversion H].
  - destruct (String.eqb k0 k) eqn:Hk; simpl.
    + apply eqb_true in Hk as ->. rewrite elem_of_cons. tauto.
    + rewrite !elem_of_cons, IH. tauto.
Qed.

Lemma NoDup_keys_set (k : string) {V : Type} (v : V) (fields : list (string * V)) :
  NoDup (Js.keys fields) → NoDup (Js.keys (Js.set k v fields)).
Proof.
  induction fields as [|[k0 v0] fields IH]; simpl.
  - intros _. apply NoDup_singleton.
  - intros [Hnotin Hnd]%NoDup_cons.
    destruct (String.eqb k0 k) eqn:Hk; simpl.
    + apply NoDup_cons. auto.
    + apply NoDup_cons. split; [|auto].
      intros [->|Hin]%keys_set; [|contradiction].
      apply eqb_false in Hk. contradiction.
Qed.

Lemma lookup_set (k : string) {V : Type} (v : V) (fields : list (string * V)) (k' : string) :
  Js.lookup k' (Js.set k v fields)
  = if String.eqb k k' then Some v else Js.lookup k' fields.
Proof.
  induction fields as [|[k0 v0] fields IH]; simpl.
  - destruct (String.eqb k k'); reflexivity.
  - destruct (String.eqb k0 k) eqn:Hk0; simpl.
    + apply eqb_true in Hk0 as ->. destruct (String.eqb k k'); reflexivity.
    + destruct (String.eqb k0 k') eqn:Hk0'.
      * apply eqb_true in Hk0' as ->. rewrite String.eqb_sym, Hk0. reflexivity.
      * exact IH.
Qed.

Lemma lookup_elem_of {V : Type} (k : string) (v : V)
    (fields : list (string * V)) :
  Js.lookup k fields = Some v → (k, v) ∈ fields.
Proof.
  induction fields as [|[k0 v0] fields IH]; simpl; [discriminate|].
  destruct (String.eqb k0 k) eqn:Hk.
  - apply eqb_true in Hk as ->. intros [= ->]. left.
  - intros H. right. auto.
Qed.

Lemma elem_of_set {V : Type} (k : string) (v : V)
    (fields : list (string * V)) (k' : string) (v' : V) :
  (k', v') ∈ Js.set k v fields → (k' = k ∧ v' = v) ∨ (k', v') ∈ fields.
Proof.
  induction fields as [|[k0 v0] fields IH]; simpl.
  - intros [= -> ->]%list_elem_of_singleton. auto.
  - destruct (String.eqb k0 k) eqn:Hk.
    + apply eqb_true in Hk as ->.
      intros [[= -> ->]|H]%elem_of_cons; [auto|].
      right. right. exact H.
    + intros [[= -> ->]|H]%elem_of_cons; [right; left|].
      destruct (IH H) as [?|?]; [auto|right; right; auto].
Qed.

Lemma set_set {V : Type} (k : string) (v w : V) (fields : list (string * V)) :
  Js.set k v (Js.set k w fields) = Js.set k v fields.
Proof.
  induction fields as [|[k0 v0] fields IH]; simpl.
  - rewrite String.eqb_refl. reflexivity.
  - destruct (String.eqb k0 k) eqn:Hk; simpl; rewrite Hk;
      [reflexivity|rewrite IH; reflexivity].
Qed.

Lemma foldl_invariant {A B : Type} (P : A → Prop) (Q : B → Prop)
    (f : A → B → A) (l : list B) (a : A) :
  P a → (∀ a b, P a → Q b → P (f a b)) → Forall Q l → P (foldl f a l).
Proof.
  intros Ha Hstep Hall; revert a Ha.
  induction Hall as [|b l Hb Hl IH]; intros a Ha; simpl; auto.
Qed.

End JsFacts.

(* --------------------------------------------------------------------- *)
(** ** The spreadsheet data source *)
(* --------------------------------------------------------------------- *)

Module DataSourceFacts.
Import DataSource.

Example extract_projection :
  extractSheetToJson sampleFs "T2C_dataset_Al.xlsx" "process_Al" (Some [])
    (Some ["process_UUID"; "location"])
  = JSON_stringify
      (JArr [JObj [("process_UUID", JStr "p-1"); ("location", JStr "CN")];
             JObj [("process_UUID", JStr "p-2"); ("location", JNull)]]).
Proof. reflexivity. Qed.

Example extract_filter :
  extractSheetToJson sampleFs "T2C_dataset_Al.xlsx" "process_Al"
    (Some [("process_UUID", JStr "p-2")]) (Some ["process_name"])
  = JSON_stringify (JArr [JObj [("process_name", JStr "casting")]]).
Proof. reflexivity. Qed.

Example extract_missing_file :
  extractSheetToJson sampleFs "other.xlsx" "process_Al" None None
  = errorJson "文件不存在，请检查文件路径。".
Proof. reflexivity. Qed.

Example extract_missing_sheet :
  extractSheetToJson sampleFs "T2C_dataset_Al.xlsx" "flow_Al" None None
  = errorJson "Sheet名称 'flow_Al' 不存在，请检查Sheet名称。".
Proof. reflexivity. Qed.

(** A filter that leaves no row makes the next filter column "missing". *)
Example extract_second_filter_on_no_rows :
  extractSheetToJson sampleFs "T2C_dataset_Al.xlsx" "process_Al"
    (Some [("process_UUID", JStr "p-9"); ("process_name", JStr "casting")])
    None
  = errorJson "筛选条件中的列 'process_name' 不存在。".
Proof. reflexivity. Qed.

Lemma inherited_proto : Js.inherited "__proto__" = true.
Proof. reflexivity. Qed.

(** For a column that names no member of [Object.prototype] the projection
    stores the cell of the row, or [null]. *)
Lemma projectCell_plain (row newRow : Row) (col : string) :
  Js.inherited col = false →
  projectCell row newRow col
  = Js.set col (match Js.lookup col row with
                | Some v => v
                | None => JNull
                end) newRow.
Proof.
  intros Hplain. unfold projectCell, cellOrNull.
  destruct (String.eqb col "__proto__") eqn:Hproto.
  - apply eqb_true in Hproto as ->. discriminate.
  - rewrite Hplain. destruct (Js.lookup col row); reflexivity.
Qed.

(** A column that the row only inherits leaves no key in the new row. *)
Lemma projectCell_inherited (row newRow : Row) (col : string) :
  Js.lookup col row = None → Js.inherited col = true →
  projectCell row newRow col = newRow.
Proof.
  intros Hnone Hin. unfold projectCell, cellOrNull.
  rewrite Hnone, Hin. destruct (String.eqb col "__proto__"); reflexivity.
Qed.

Lemma projectCell_keys (row newRow : Row) (col k : string) :
  k ∈ Js.keys (projectCell row newRow col) → k = col ∨ k ∈ Js.keys newRow.
Proof.
  unfold projectCell.
  destruct (String.eqb col "__proto__"); [auto|].
  destruct (cellOrNull row col); [|auto].
  intros H. apply keys_set in H. exact H.
Qed.

Lemma projectCell_NoDup (row newRow : Row) (col : string) :
  NoDup (Js.keys newRow) → NoDup (Js.keys (projectCell row newRow col)).
Proof.
  unfold projectCell.
  destruct (String.eqb col "__proto__"); [auto|].
  destruct (cellOrNull row col); [apply NoDup_keys_set|auto].
Qed.

Lemma projectRow_fold (row : Row) (columns : list string) (acc : Row) :
  Forall (fun col => Js.inherited col = false) columns →
  let newRow := foldl (projectCell row) acc columns in
  (NoDup (Js.keys acc) → NoDup (Js.keys newRow))
  ∧ (∀ k, k ∈ Js.keys newRow ↔ k ∈ Js.keys acc ∨ k ∈ columns)
  ∧ (∀ k, Js.lookup k newRow
          = if decide (k ∈ columns)
            then Some (match Js.lookup k row with
                       | Some v => v
                       | None => JNull
                       end)
            else Js.lookup k acc).
Proof.
  intros Hplain; revert acc.
  induction Hplain as [|col columns Hcol _ IH]; intros acc; simpl.
  - split; [auto|]. split.
    + intros k. split; [auto|]. intros [H|H]; [exact H|inversion H].
    + intros k. destruct (decide (k ∈ [])) as [H|_]; [inversion H|reflexivity].
  - rewrite (projectCell_plain row acc col Hcol).
    match goal with |- context [Js.set col ?cell acc] =>
      destruct (IH (Js.set col cell acc)) as (Hnd & Hkeys & Hval);
      set (cell0 := cell) in * end.
    split; [|split].
    + intros H. apply Hnd, NoDup_keys_set, H.
    + intros k. rewrite Hkeys, keys_set, elem_of_cons. tauto.
    + intros k. rewrite Hval, lookup_set.
      destruct (decide (k ∈ columns)) as [Hin|Hout].
      * rewrite decide_True by (right; exact Hin). reflexivity.
      * destruct (String.eqb col k) eqn:Hk.
        -- apply eqb_true in Hk as ->. rewrite decide_True by left.
           reflexivity.
        -- apply eqb_false in Hk. rewrite decide_False; [reflexivity|].
           intros [->|Hin]%elem_of_cons; contradiction.
Qed.

(** When no projected column names a member of [Object.prototype], the new
    row has the projected columns as its keys, each once, and holds the cell
    of the source row or [null]. *)
Lemma projectRow_shape (columns : list string) (row : Row) :
  Forall (fun col => Js.inherited col = false) columns →
  NoDup (Js.keys (projectRow columns row))
  ∧ (∀ col, col ∈ Js.keys (projectRow columns row) ↔ col ∈ columns)
  ∧ (∀ col, col ∈ columns →
            Js.lookup col (projectRow columns row)
            = Some (match Js.lookup col row with
                    | Some v => v
                    | None => JNull
                    end)).
Proof.
  intros Hplain.
  destruct (projectRow_fold row columns [] Hplain) as (Hnd & Hkeys & Hval).
  split; [|split].
  - apply Hnd. constructor.
  - intros col. rewrite Hkeys. split; [|auto].
    intros [Hk|Hk]; [inversion Hk|exact Hk].
  - intros col Hcol. unfold projectRow.
    rewrite Hval, decide_True by exact Hcol. reflexivity.
Qed.

(** Whatever the columns, the new row has no key twice and no key that was
    not asked for. *)
Lemma projectRow_keys (columns : list string) (row : Row) :
  NoDup (Js.keys (projectRow columns row))
  ∧ ∀ k, k ∈ Js.keys (projectRow columns row) → k ∈ columns.
Proof.
  unfold projectRow.
  assert (H : ∀ acc,
             (NoDup (Js.keys acc) →
              NoDup (Js.keys (foldl (projectCell row) acc columns)))
             ∧ ∀ k, k ∈ Js.keys (foldl (projectCell row) acc columns) →
                    k ∈ Js.keys acc ∨ k ∈ columns).
  { induction columns as [|col columns IH]; intros acc; simpl; [auto|].
    destruct (IH (projectCell row acc col)) as [Hnd Hkeys]. split.
    - intros H. apply Hnd, projectCell_NoDup, H.
    - intros k Hk. destruct (Hkeys k Hk) as [Hacc|Hin].
      + apply projectCell_keys in Hacc as [->|Hacc]; [right; left|auto].
      + right. right. exact Hin. }
  destruct (H []) as [Hnd Hkeys]. split; [apply Hnd; constructor|].
  intros k Hk. destruct (Hkeys k Hk) as [Hnil|Hin]; [inversion Hnil|exact Hin].
Qed.

(** A column that a row only inherits from [Object.prototype] is no key of
    the new row. *)
Lemma projectRow_omits_inherited (columns : list string) (row : Row)
    (col : string) :
  Js.lookup col row = None → Js.inherited col = true →
  col ∉ Js.keys (projectRow columns row).
Proof.
  intros Hnone Hin. unfold projectRow.
  assert (H : ∀ acc, col ∉ Js.keys acc →
                     col ∉ Js.keys (foldl (projectCell row) acc columns)).
  { induction columns as [|c columns IH]; intros acc Hacc; simpl; [exact Hacc|].
    apply IH. destruct (decide (c = col)) as [->|Hne].
    - rewrite (projectCell_inherited row acc col Hnone Hin). exact Hacc.
    - intros Hk. apply projectCell_keys in Hk as [Heq|Hk];
        [congruence|contradiction]. }
  apply H. intros Hk. inversion Hk.
Qed.

Lemma applyFilters_subset (entries : list (string * json)) (data data' : list Row) :
  applyFilters entries data = inr data' → ∀ row, row ∈ data' → row ∈ data.
Proof.
  revert data; induction entries as [|[column value] entries IH];
    intros data; simpl.
  - intros [= ->]. auto.
  - destruct (match head data with None => true | Some row0 => _ end);
      [discriminate|].
    intros Hrest row Hrow. specialize (IH _ Hrest row Hrow).
    apply list_elem_of_In, List.filter_In in IH as [IH _].
    apply list_elem_of_In, IH.
Qed.

Lemma applyFilters_error (entries : list (string * json)) (data : list Row)
    (text : JsonText) :
  applyFilters entries data = inl text →
  ∃ error, text = errorJson error.
Proof.
  revert data; induction entries as [|[column value] entries IH];
    intros data; simpl.
  - discriminate.
  - destruct (match head data with None => true | Some row0 => _ end).
    + intros [= <-]. eauto.
    + apply IH.
Qed.

(** The two ways [extractSheetToJson] ends: with an error object, or with the
    rows that passed the filters, projected when a projection was asked. *)
Lemma extractSheetToJson_cases (fs : FileSystem) (filePath sheetName : string)
    (filterConditions : option (list (string * json)))
    (extractColumns : option (list string)) :
  (∃ error, extractSheetToJson fs filePath sheetName filterConditions
              extractColumns = errorJson error)
  ∨ (∃ workbook rows data,
        existsSync fs filePath = true
        ∧ readFile fs filePath = Ret workbook
        ∧ Js.includes sheetName (SheetNames workbook) = true
        ∧ sheet_to_json (getSheet sheetName (Sheets workbook)) = Ret rows
        ∧ match filterConditions with
          | Some conditions => applyFilters conditions rows
          | None => inr rows
          end = inr data
        ∧ (extractColumns ≠ None → data ≠ [])
        ∧ extractSheetToJson fs filePath sheetName filterConditions
            extractColumns
          = JSON_stringify
              (JArr (match extractColumns with
                     | Some columns =>
                         map (fun row => JObj (projectRow columns row)) data
                     | None => map JObj data
                     end))).
Proof.
  unfold extractSheetToJson, extractSheetToJson_try.
  destruct (existsSync fs filePath) eqn:Hexists; simpl; [|eauto].
  destruct (readFile fs filePath) as [workbook|e] eqn:Hread; simpl;
    [|destruct (_ && _); eauto].
  destruct (Js.includes sheetName (SheetNames workbook)) eqn:Hsheet; simpl;
    [|eauto].
  destruct (sheet_to_json (getSheet sheetName (Sheets workbook)))
    as [rows|e] eqn:Hrows; simpl; [|destruct (_ && _); eauto].
  destruct (match filterConditions with
            | Some conditions => applyFilters conditions rows
            | None => inr rows
            end) as [text|data] eqn:Hfilter; simpl.
  { left. destruct filterConditions as [conditions|]; [|discriminate].
    apply applyFilters_error in Hfilter as [error ->]. eauto. }
  destruct extractColumns as [columns|]; simpl.
  - destruct data as [|row data]; simpl; [eauto|].
    right. exists workbook, rows, (row :: data).
    repeat split; auto; congruence.
  - right. exists workbook, rows, data.
    repeat split; auto; congruence.
Qed.

(** C9, the failing input: the projection asks for the column
    [constructor], which no row of the sheet has.  Every row [in]herits a
    member of that name from [Object.prototype], so line 149 copies that
    member instead of storing [null], and [JSON.stringify] leaves a function
    out: the rows come back without the column, not with [null] in it. *)
Theorem projection_omits_inherited_column :
  ∃ rows,
    sheet_to_json (getSheet "process_Al" (Sheets sampleBook)) = Ret rows
    ∧ Forall (fun row : Row => Js.has "constructor" row = false) rows
    ∧ extractSheetToJson sampleFs "T2C_dataset_Al.xlsx" "process_Al" None
        (Some ["process_UUID"; "constructor"])
      = JSON_stringify
          (JArr [JObj [("process_UUID", JStr "p-1")];
                 JObj [("process_UUID", JStr "p-2")]])
    ∧ Forall (fun item => Js.get "constructor" (Some item) ≠ Some JNull)
             [JObj [("process_UUID", JStr "p-1")];
              JObj [("process_UUID", JStr "p-2")]].
Proof.
  eexists. split; [reflexivity|]. split; [repeat constructor|].
  split; [reflexivity|]. repeat constructor; discriminate.
Qed.



Lemma errorJson_isErrorObject (error : string) (v : json) :
  JSON_stringify v = errorJson error → isErrorObject v.
Proof. intros [= ->]. exists error. reflexivity. Qed.

(** C10, the failing input: the filter names the column [constructor],
    which no row of the sheet has.  The test of line 107 finds the member of
    that name that every row inherits from [Object.prototype], so the
    missing column is not reported: the filter then drops every row, and the
    function returns the empty array and no error object.  A missing column
    of any other name is reported. *)
Theorem inherited_filter_column_not_reported :
  ∃ rows,
    sheet_to_json (getSheet "process_Al" (Sheets sampleBook)) = Ret rows
    ∧ Forall (fun row : Row => Js.has "constructor" row = false
                               ∧ Js.has "technology" row = false) rows
    ∧ extractSheetToJson sampleFs "T2C_dataset_Al.xlsx" "process_Al"
        (Some [("constructor", JStr "smelting")]) None
      = JSON_stringify (JArr [])
    ∧ ¬ isErrorObject (JArr [])
    ∧ extractSheetToJson sampleFs "T2C_dataset_Al.xlsx" "process_Al"
        (Some [("technology", JStr "smelting")]) None
      = errorJson "筛选条件中的列 'technology' 不存在。".
Proof.
  eexists. split; [reflexivity|]. split; [repeat constructor|].
  split; [reflexivity|]. split; [|reflexivity].
  intros [error Herror]. discriminate.
Qed.


End DataSourceFacts.

(* --------------------------------------------------------------------- *)
(** ** The stages of the LCA key graph *)
(* --------------------------------------------------------------------- *)

Module KeyAgentFacts.
Import KeyAgent.

Lemma graded_nil (history : list Message) : graded history [].
Proof. intros key entry H. inversion H. Qed.

Ltac graded_step Hap Hin :=
  let key := fresh "key" in
  let entry := fresh "entry" in
  let Helem := fresh "Helem" in
  intros key entry Helem;
  apply elem_of_set in Helem as [[-> ->]|Helem]; [|exact (Hap _ _ Helem)];
  simpl;
  match goal with
  | |- context [Js.lookup ?k ?ap] =>
      let Hl := fresh "Hl" in
      destruct (Js.lookup k ap) as [?entry0|] eqn:Hl;
      [apply lookup_elem_of in Hl; destruct (Hap _ _ Hl) as (? & ? & ?)|]
  end.

Lemma addTechnical_graded history allProcesses summary :
  graded history allProcesses →
  summary ∈ history →
  hasToolCall "technical_summary" summary = true →
  graded history (addTechnical allProcesses summary).
Proof.
  intros Hap Hin Htool. unfold addTechnical.
  destruct (_ && _); [|exact Hap].
  graded_step Hap Hin.
  - repeat split; auto. intros g Hg. exists summary. auto.
  - repeat split; try discriminate. intros g Hg. exists summary. auto.
Qed.

Lemma addSpatial_graded history allProcesses summary :
  graded history allProcesses →
  summary ∈ history →
  hasToolCall "spatial_summary" summary = true →
  graded history (addSpatial allProcesses summary).
Proof.
  intros Hap Hin Htool. unfold addSpatial.
  destruct (_ && _); [|exact Hap].
  graded_step Hap Hin.
  - destruct (Js.truthy (Js.get "location" (firstArgs summary))); simpl;
      (repeat split; auto; intros g Hg; exists summary; auto).
  - repeat split; try discriminate. intros g Hg. exists summary. auto.
Qed.

Lemma addTime_graded history allProcesses summary :
  graded history allProcesses →
  summary ∈ history →
  hasToolCall "time_summary" summary = true →
  graded history (addTime allProcesses summary).
Proof.
  intros Hap Hin Htool. unfold addTime.
  destruct (_ && _); [|exact Hap].
  graded_step Hap Hin.
  - repeat split; auto. intros g Hg. exists summary. auto.
  - repeat split; try discriminate. intros g Hg. exists summary. auto.
Qed.

Lemma filter_Forall (toolName : string) (history : list Message) :
  Forall (fun m => m ∈ history ∧ hasToolCall toolName m = true)
         (List.filter (hasToolCall toolName) history).
Proof.
  apply Forall_forall. intros m Hm.
  apply list_elem_of_In, List.filter_In in Hm as [Hm Htool].
  split; [apply list_elem_of_In, Hm|exact Htool].
Qed.

Lemma collectGrades_graded (history : list Message) :
  graded history (collectGrades history).
Proof.
  unfold collectGrades.
  apply (foldl_invariant (graded history)
           (fun m => m ∈ history ∧ hasToolCall "time_summary" m = true));
    [|intros a b Ha [Hb1 Hb2]; apply addTime_graded; assumption
     |apply filter_Forall].
  apply (foldl_invariant (graded history)
           (fun m => m ∈ history ∧ hasToolCall "spatial_summary" m = true));
    [|intros a b Ha [Hb1 Hb2]; apply addSpatial_graded; assumption
     |apply filter_Forall].
  apply (foldl_invariant (graded history)
           (fun m => m ∈ history ∧ hasToolCall "technical_summary" m = true));
    [apply graded_nil
    |intros a b Ha [Hb1 Hb2]; apply addTechnical_graded; assumption
    |apply filter_Forall].
Qed.

(** On own properties alone, every [final_summary] message is built from an
    entry that has all three grades: the three grades it carries are truthy,
    and each of them was reported for that process by a summary message of
    the history (technical, spatial and time). *)
Lemma own_grades_have_sources (state : State) (msg : Message) :
  msg ∈ new_messages (final_summarizer state) →
  ∃ processUUID processData technical spatial time,
    msg = finalSummaryMessage processUUID processData technical spatial time
    ∧ (processUUID, processData) ∈ collectGrades (messages state)
    ∧ Js.truthy (Some technical) = true
    ∧ Js.truthy (Some spatial) = true
    ∧ Js.truthy (Some time) = true
    ∧ gradeSource "technical_summary" "final_technical_representativeness"
        (messages state) processUUID technical
    ∧ gradeSource "spatial_summary" "final_spatial_representativeness"
        (messages state) processUUID spatial
    ∧ gradeSource "time_summary" "final_time_representativeness"
        (messages state) processUUID time.
Proof.
  unfold final_summarizer. simpl.
  intros [[processUUID processData] [Hentry Hmat]]%list_elem_of_omap.
  destruct (collectGrades_graded (messages state) _ _ Hentry)
    as (Htech & Hspat & Htime).
  unfold materialize in Hmat.
  destruct (technical_grade processData) as [technical|] eqn:Ht;
    [|simpl in Hmat; discriminate].
  destruct (spatial_grade processData) as [spatial|] eqn:Hs;
    [|destruct (negb _); simpl in Hmat; discriminate].
  destruct (time_grade processData) as [time|] eqn:Hti;
    [|destruct (negb _), (negb _); simpl in Hmat; discriminate].
  destruct (Js.truthy (Some technical)) eqn:Htt; [|discriminate].
  destruct (Js.truthy (Some spatial)) eqn:Hst; [|discriminate].
  destruct (Js.truthy (Some time)) eqn:Htit; [|discriminate].
  simpl in Hmat. injection Hmat as <-.
  exists processUUID, processData, technical, spatial, time.
  repeat split; auto.
Qed.

Example summarizedHistory_final_summaries :
  new_messages (final_summarizer (stateOf summarizedHistory))
  = [toolMessage "final_summary"
       [("process_UUID", JStr "p-1"); ("process_name", JStr "smelting");
        ("location", JStr "CN"); ("flow_count", JStr "12");
        ("technical_representativeness", JStr "1");
        ("spatial_representativeness", JStr "2");
        ("time_representativeness", JStr "3")]].
Proof. reflexivity. Qed.

(* --------------------------------------------------------------------- *)
(** *** The summary of the grades *)

Lemma summarizeEach_steady (oracle : Oracle)
    (entries : list (string * list json)) :
  (∀ n m request, oracle n request = oracle m request) →
  ∀ n m, (summarizeEach oracle entries n).1 = (summarizeEach oracle entries m).1.
Proof.
  intros Hsame. induction entries as [|[processUUID grades] entries IH];
    intros n m; simpl; [reflexivity|].
  destruct (length grades =? 0); [apply IH|].
  unfold mbind, Async_bind, tryCatchAsync, invoke, mret, Async_ret. simpl.
  rewrite (Hsame n m). specialize (IH (S n) (S m)).
  destruct (oracle m (summaryRequest processUUID grades)) as [r|e]; simpl;
    destruct (summarizeEach oracle entries (S n)) as [[l1|e1] n1],
             (summarizeEach oracle entries (S m)) as [[l2|e2] n2];
    simpl in *; congruence.
Qed.

Example gradedHistory_groups :
  groupGrades gradedHistory
  = Ret
    [("p-1",
      [JObj [("process_UUID", JStr "p-1"); ("process_name", JStr "smelting");
             ("technical_representativeness", JStr "2")];
       JObj [("process_UUID", JStr "p-1"); ("process_name", JStr "smelting");
             ("technical_representativeness", JStr "1")]]);
     ("p-2",
      [JObj [("process_UUID", JStr "p-2"); ("process_name", JStr "casting");
             ("technical_representativeness", JStr "3")]])].
Proof. reflexivity. Qed.

(** The grade that names [constructor] as its process finds the function of
    that name where its group should be. *)
Example groupGrades_constructor :
  groupGrades [toolMessage "technical_grader"
                 [("process_UUID", JStr "constructor");
                  ("technical_representativeness", JStr "2")]]
  = Throw (typeError "processGrades[processUUID].push is not a function").
Proof. reflexivity. Qed.


Example summarize_technical_grades_twice :
  let first := summarize_technical_grades flaky (stateOf threeSamples) 0 in
  let second :=
    summarize_technical_grades flaky (stateOf threeSamples) first.2 in
  finalTechnicalGrades first.1 = [Some (JStr "2")]
  ∧ finalTechnicalGrades second.1 = [Some (JStr "3")].
Proof. vm_compute. split; reflexivity. Qed.

(** With an oracle whose answers do not depend on when it is asked, the
    loop returns the answers to the requests of the groups, those that fail
    left out. *)
Lemma summarizeEach_answers (oracle : Oracle)
    (entries : list (string * list json)) :
  (∀ n m request, oracle n request = oracle m request) →
  Forall (fun e : string * list json => e.2 ≠ []) entries →
  ∀ n,
    summarizeEach oracle entries n
    = (Ret (omap (fun e : string * list json =>
                    match oracle 0 (summaryRequest e.1 e.2) with
                    | Ret r => Some r
                    | Throw _ => None
                    end) entries),
       n + length entries).
Proof.
  intros Hsame Hne.
  induction Hne as [|[processUUID grades] entries Hgrades _ IH]; intros n.
  - simpl. rewrite Nat.add_0_r. reflexivity.
  - simpl in Hgrades. cbn [summarizeEach].
    destruct (length grades =? 0) eqn:Hlen.
    { apply Nat.eqb_eq in Hlen. destruct grades; [done|discriminate]. }
    unfold mbind, Async_bind, tryCatchAsync, invoke, mret, Async_ret.
    rewrite (Hsame n 0). cbn [omap list_omap fst snd].
    specialize (IH (S n)). unfold mbind, Async_bind in IH |- *.
    destruct (oracle 0 (summaryRequest processUUID grades)) as [r|e];
      rewrite IH; simpl; f_equal; lia.
Qed.

Lemma addGrade_nonempty (processGrades groups : list (string * list json))
    (gradeMsg : Message) :
  Forall (fun e : string * list json => e.2 ≠ []) processGrades →
  addGrade processGrades gradeMsg = Ret groups →
  Forall (fun e : string * list json => e.2 ≠ []) groups.
Proof.
  intros Hall. unfold addGrade.
  destruct (firstArgs gradeMsg) as [gradeData|]; [|intros [= <-]; exact Hall].
  simpl.
  destruct (Js.lookup _ processGrades) as [grades|];
    [|destruct (Js.inherited _); [discriminate|]];
    intros [= <-]; apply Forall_forall; intros [k v] Hin;
    apply elem_of_set in Hin as [[-> ->]|Hin];
    try (rewrite Forall_forall in Hall; apply (Hall _ Hin)); simpl.
  - intros H. apply app_eq_nil in H as [_ H]. discriminate.
  - discriminate.
Qed.

Lemma addGrades_nonempty (allTechnicalGrades : list Message)
    (processGrades groups : list (string * list json)) :
  Forall (fun e : string * list json => e.2 ≠ []) processGrades →
  addGrades processGrades allTechnicalGrades = Ret groups →
  Forall (fun e : string * list json => e.2 ≠ []) groups.
Proof.
  revert processGrades.
  induction allTechnicalGrades as [|gradeMsg rest IH];
    intros processGrades Hall; simpl.
  - intros [= <-]. exact Hall.
  - destruct (addGrade processGrades gradeMsg) as [processGrades'|e] eqn:Hadd;
      [|discriminate].
    simpl. apply IH. eapply addGrade_nonempty; eassumption.
Qed.



(** The stage of [part_002] with the same oracle: the second invocation
    returns another grade as well. *)
Example queue_summarize_technical_grades_twice :
  let state := QueueAgent.queueStateOf threeSamples in
  (QueueKeyStages.summarize_technical_grades flaky state 0).1
  ≠ (QueueKeyStages.summarize_technical_grades flaky state 1).1.
Proof. vm_compute. discriminate. Qed.

(* --------------------------------------------------------------------- *)
(** *** The selection of the process *)

Lemma noHigher_refl (a : option Z) : noHigher a a = true.
Proof. destruct a; simpl; [apply Z.leb_refl|reflexivity]. Qed.

Lemma noHigher_total (a b : option Z) :
  noHigher a b = true ∨ noHigher b a = true.
Proof. destruct a, b; simpl; auto. lia. Qed.

Lemma noHigher_trans (a b c : option Z) :
  noHigher a b = true → noHigher b c = true → noHigher a c = true.
Proof. destruct a, b, c; simpl; try discriminate; auto. lia. Qed.

(** A pool that is not empty has a candidate that no other one beats. *)
Lemma exists_lowest {A : Type} (value : A → option Z) (pool : list A) :
  pool ≠ [] →
  ∃ c, c ∈ pool ∧ ∀ c', c' ∈ pool → noHigher (value c) (value c') = true.
Proof.
  induction pool as [|a pool IH]; [congruence|]. intros _.
  destruct pool as [|b pool].
  { exists a. split; [left|].
    intros c' ->%list_elem_of_singleton. apply noHigher_refl. }
  destruct IH as (c & Hc & Hmin); [discriminate|].
  destruct (noHigher_total (value a) (value c)) as [Hac|Hca].
  - exists a. split; [left|]. intros c' [->|Hc']%elem_of_cons.
    + apply noHigher_refl.
    + eapply noHigher_trans; [exact Hac|auto].
  - exists c. split; [right; exact Hc|].
    intros c' [->|Hc']%elem_of_cons; auto.
Qed.

Lemma exists_highest {A : Type} (value : A → option Z) (pool : list A) :
  pool ≠ [] →
  ∃ c, c ∈ pool ∧ ∀ c', c' ∈ pool → noHigher (value c') (value c) = true.
Proof.
  induction pool as [|a pool IH]; [congruence|]. intros _.
  destruct pool as [|b pool].
  { exists a. split; [left|].
    intros c' ->%list_elem_of_singleton. apply noHigher_refl. }
  destruct IH as (c & Hc & Hmax); [discriminate|].
  destruct (noHigher_total (value a) (value c)) as [Hac|Hca].
  - exists c. split; [right; exact Hc|].
    intros c' [->|Hc']%elem_of_cons; auto.
  - exists a. split; [left|]. intros c' [->|Hc']%elem_of_cons.
    + apply noHigher_refl.
    + eapply noHigher_trans; [|exact Hca]. auto.
Qed.

Lemma elem_of_lowest (name : string) (pool : list json) (c : json) :
  c ∈ lowest name pool
  ↔ c ∈ pool ∧ ∀ c', c' ∈ pool →
                     noHigher (field name c) (field name c') = true.
Proof.
  unfold lowest.
  rewrite list_elem_of_In, List.filter_In, forallb_forall, <- list_elem_of_In.
  split; intros [Hc Hmin]; (split; [exact Hc|]); intros c' Hc'; apply Hmin;
    apply list_elem_of_In; exact Hc'.
Qed.

Lemma elem_of_highest (name : string) (pool : list json) (c : json) :
  c ∈ highest name pool
  ↔ c ∈ pool ∧ ∀ c', c' ∈ pool →
                     noHigher (field name c') (field name c) = true.
Proof.
  unfold highest.
  rewrite list_elem_of_In, List.filter_In, forallb_forall, <- list_elem_of_In.
  split; intros [Hc Hmax]; (split; [exact Hc|]); intros c' Hc'; apply Hmax;
    apply list_elem_of_In; exact Hc'.
Qed.

Lemma lowest_nil_iff (name : string) (pool : list json) :
  lowest name pool = [] ↔ pool = [].
Proof.
  split; [|intros ->; reflexivity]. intros Hempty.
  destruct pool as [|a pool]; [reflexivity|]. exfalso.
  destruct (exists_lowest (field name) (a :: pool)) as (c & Hc & Hmin);
    [discriminate|].
  assert (Hin : c ∈ lowest name (a :: pool)) by (apply elem_of_lowest; auto).
  rewrite Hempty in Hin. inversion Hin.
Qed.

Lemma highest_nil_iff (name : string) (pool : list json) :
  highest name pool = [] ↔ pool = [].
Proof.
  split; [|intros ->; reflexivity]. intros Hempty.
  destruct pool as [|a pool]; [reflexivity|]. exfalso.
  destruct (exists_highest (field name) (a :: pool)) as (c & Hc & Hmax);
    [discriminate|].
  assert (Hin : c ∈ highest name (a :: pool)) by (apply elem_of_highest; auto).
  rewrite Hempty in Hin. inversion Hin.
Qed.

(** Whoever is left after step 4 passed step 1. *)
Lemma instructed_lowest_technical (heterogeneity : json) (pool remaining : list json)
    (c : json) :
  instructed heterogeneity pool = Some remaining →
  c ∈ remaining →
  c ∈ lowest "technical_representativeness" pool.
Proof.
  unfold instructed.
  destruct (Js.isStr _ "RESULT_A");
    [|destruct (Js.isStr _ "RESULT_B"); [|discriminate]];
    intros [= <-] Hc;
    apply elem_of_highest in Hc as [Hc _];
    apply elem_of_lowest in Hc as [Hc _];
    apply elem_of_lowest in Hc as [Hc _]; exact Hc.
Qed.

Lemma instructed_nil_iff (heterogeneity : json) (pool remaining : list json) :
  instructed heterogeneity pool = Some remaining →
  remaining = [] ↔ pool = [].
Proof.
  unfold instructed.
  destruct (Js.isStr _ "RESULT_A");
    [|destruct (Js.isStr _ "RESULT_B"); [|discriminate]];
    intros [= <-]; rewrite highest_nil_iff, !lowest_nil_iff; reflexivity.
Qed.

(** The scenario of the specification: A and B tie on the technical grade,
    the spatial grade leaves B. *)
Example scenario_instructed :
  instructed (heterogeneityInfo (stateOf scenarioHistory))
             (allProcesses (stateOf scenarioHistory))
  = Some [JObj candidateB].
Proof. reflexivity. Qed.

Example scenario_follows_instructions :
  followsInstructions (stateOf scenarioHistory)
    (JObj [("process_UUID", JStr "B"); ("process_name", JStr "process B");
           ("location", JStr "CN"); ("flow_count", JStr "2")]).
Proof.
  exists [JObj candidateB], (JObj candidateB).
  split; [reflexivity|]. split; [left|reflexivity].
Qed.




(** In [part_002] the oracle sees the first [final_summary] alone: an
    oracle that selects the process it is shown returns the first of two
    candidates, although the second has the lower technical grade. *)
Example queue_process_selector_first_summary :
  QueueKeyStages.selectedProcess
    (QueueKeyStages.process_selector DataSource.sampleFs
       "T2C_dataset_Al.xlsx" QueueKeyStages.shown
       QueueKeyStages.twoSummaries 0).1
  = Some (JObj [("process_UUID", JStr "A");
                ("technical_representativeness", JStr "2")])
  ∧ JObj [("process_UUID", JStr "B");
          ("technical_representativeness", JStr "1")]
    ∈ allProcesses
        (stateOf (QueueAgent.messages QueueKeyStages.twoSummaries))
  ∧ noHigher
      (field "technical_representativeness"
         (JObj [("process_UUID", JStr "A");
                ("technical_representativeness", JStr "2")]))
      (field "technical_representativeness"
         (JObj [("process_UUID", JStr "B");
                ("technical_representativeness", JStr "1")]))
    = false.
Proof.
  split; [reflexivity|]. split; [|reflexivity].
  right. left.
Qed.

End KeyAgentFacts.

(* --------------------------------------------------------------------- *)
(** ** The final summary and [Object.prototype] *)
(* --------------------------------------------------------------------- *)

Module FinalSummarizerFacts.
Import KeyAgent.

(** What the last loop reads from an entry while [Object.prototype] has
    gained nothing *)
Local Notation "'view'" :=
  (FinalSummarizer.processDataOf FinalSummarizer.cleanPrototype).

Local Notation "'views'" :=
  (map (fun e : string * FinalSummarizer.Entry => (e.1, view e.2))).

Local Notation "'clean'" := FinalSummarizer.cleanPrototype.

Local Notation "'keyOf'" :=
  (fun m : Message => Js.toPropertyKey (Js.get "process_UUID" (firstArgs m))).

Lemma lookup_views (k : string) (es : list (string * FinalSummarizer.Entry)) :
  Js.lookup k (views es) = view <$> Js.lookup k es.
Proof.
  induction es as [|[k' e] es IH]; simpl; [reflexivity|].
  destruct (String.eqb k' k); [reflexivity|exact IH].
Qed.

Lemma set_views (k : string) (e : FinalSummarizer.Entry)
    (es : list (string * FinalSummarizer.Entry)) :
  Js.set k (view e) (views es) = views (Js.set k e es).
Proof.
  induction es as [|[k' e'] es IH]; simpl; [reflexivity|].
  destruct (String.eqb k' k); simpl; [reflexivity|rewrite IH; reflexivity].
Qed.

(** While [Object.prototype] is as it was, a key that names none of its
    members finds an entry of the mapping or nothing. *)
Lemma target_clean (es : list (string * FinalSummarizer.Entry)) (k : string) :
  Js.inherited k = false →
  FinalSummarizer.target (es, clean) k
  = match Js.lookup k es with
    | Some e => FinalSummarizer.IsEntry e
    | None => FinalSummarizer.IsMissing
    end.
Proof.
  intros Hk. unfold FinalSummarizer.target. cbn [fst snd].
  destruct (Js.lookup k es); [reflexivity|]. rewrite Hk.
  destruct (String.eqb k "__proto__") eqn:Hproto.
  { apply String.eqb_eq in Hproto. subst k. discriminate. }
  destruct (FinalSummarizer.fieldOfName k) as [[]|]; reflexivity.
Qed.

Lemma assign_entry (es : list (string * FinalSummarizer.Entry)) (k : string)
    (f : FinalSummarizer.Field) (v : option json) (e : FinalSummarizer.Entry) :
  Js.inherited k = false →
  Js.lookup k es = Some e →
  FinalSummarizer.assign (es, clean) k f v
  = Ret (Js.set k (FinalSummarizer.assignEntry f v e) es, clean).
Proof.
  intros Hk He. unfold FinalSummarizer.assign.
  rewrite (target_clean es k Hk), He. reflexivity.
Qed.

Lemma assign_created (es : list (string * FinalSummarizer.Entry)) (k : string)
    (f : FinalSummarizer.Field) (v : option json) (e : FinalSummarizer.Entry) :
  Js.inherited k = false →
  FinalSummarizer.assign (FinalSummarizer.create (es, clean) k e) k f v
  = Ret (Js.set k (FinalSummarizer.assignEntry f v e) es, clean).
Proof.
  intros Hk. unfold FinalSummarizer.create. cbn [fst snd].
  rewrite (assign_entry _ k f v e Hk), set_set; [reflexivity|].
  rewrite lookup_set, String.eqb_refl. reflexivity.
Qed.

Lemma present_clean (es : list (string * FinalSummarizer.Entry)) (k : string) :
  Js.inherited k = false →
  FinalSummarizer.present (es, clean) k
  = match Js.lookup k es with Some _ => true | None => false end.
Proof.
  intros Hk. unfold FinalSummarizer.present. rewrite (target_clean es k Hk).
  destruct (Js.lookup k es); reflexivity.
Qed.

Lemma addTechnical_plain (es : list (string * FinalSummarizer.Entry))
    (m : Message) :
  Js.inherited (keyOf m) = false →
  ∃ es', FinalSummarizer.addTechnical (es, clean) m = Ret (es', clean)
         ∧ views es' = addTechnical (views es) m.
Proof.
  intros Hk. unfold FinalSummarizer.addTechnical, addTechnical. cbv zeta.
  destruct (Js.truthy _ && Js.truthy _); [|eexists; split; reflexivity].
  rewrite (present_clean es _ Hk), lookup_views.
  destruct (Js.lookup _ es) as [e|] eqn:He; cbn [fmap option_fmap option_map].
  - rewrite (assign_entry es _ _ _ e Hk He).
    eexists. split; [reflexivity|]. rewrite <- set_views. reflexivity.
  - rewrite (assign_created es _ _ _ _ Hk).
    eexists. split; [reflexivity|]. rewrite <- set_views. reflexivity.
Qed.

Lemma addTime_plain (es : list (string * FinalSummarizer.Entry))
    (m : Message) :
  Js.inherited (keyOf m) = false →
  ∃ es', FinalSummarizer.addTime (es, clean) m = Ret (es', clean)
         ∧ views es' = addTime (views es) m.
Proof.
  intros Hk. unfold FinalSummarizer.addTime, addTime. cbv zeta.
  destruct (Js.truthy _ && Js.truthy _); [|eexists; split; reflexivity].
  rewrite (present_clean es _ Hk), lookup_views.
  destruct (Js.lookup _ es) as [e|] eqn:He; cbn [fmap option_fmap option_map].
  - rewrite (assign_entry es _ _ _ e Hk He).
    eexists. split; [reflexivity|]. rewrite <- set_views. reflexivity.
  - rewrite (assign_created es _ _ _ _ Hk).
    eexists. split; [reflexivity|]. rewrite <- set_views. reflexivity.
Qed.

Lemma addSpatial_plain (es : list (string * FinalSummarizer.Entry))
    (m : Message) :
  Js.inherited (keyOf m) = false →
  ∃ es', FinalSummarizer.addSpatial (es, clean) m = Ret (es', clean)
         ∧ views es' = addSpatial (views es) m.
Proof.
  intros Hk. unfold FinalSummarizer.addSpatial, addSpatial. cbv zeta.
  destruct (Js.truthy _ && Js.truthy _); [|eexists; split; reflexivity].
  rewrite (present_clean es _ Hk), lookup_views.
  destruct (Js.lookup _ es) as [e|] eqn:He; cbn [fmap option_fmap option_map].
  - destruct (Js.truthy (Js.get "location" (firstArgs m))).
    + rewrite (assign_entry es _ _ _ e Hk He). cbn [mbind Result_bind].
      erewrite (assign_entry _ _ _ _ _ Hk);
        [|rewrite lookup_set, String.eqb_refl; reflexivity].
      rewrite set_set.
      eexists. split; [reflexivity|]. rewrite <- set_views. reflexivity.
    + cbn [mbind Result_bind]. rewrite (assign_entry es _ _ _ e Hk He).
      eexists. split; [reflexivity|]. rewrite <- set_views. reflexivity.
  - cbn [mbind Result_bind]. rewrite (assign_created es _ _ _ _ Hk).
    eexists. split; [reflexivity|]. rewrite <- set_views. reflexivity.
Qed.

Lemma forEach_plain
    (body : FinalSummarizer.Store → Message → Result FinalSummarizer.Store)
    (plain : list (string * ProcessData) → Message
             → list (string * ProcessData))
    (summaries : list Message) :
  (∀ es m, Js.inherited (keyOf m) = false →
     ∃ es', body (es, clean) m = Ret (es', clean)
            ∧ views es' = plain (views es) m) →
  Forall (fun m => Js.inherited (keyOf m) = false) summaries →
  ∀ es, ∃ es',
    FinalSummarizer.forEach body (es, clean) summaries = Ret (es', clean)
    ∧ views es' = foldl plain (views es) summaries.
Proof.
  intros Hbody Hall.
  induction Hall as [|m summaries Hm _ IH]; intros es; simpl.
  - eexists. split; reflexivity.
  - destruct (Hbody es m Hm) as (es1 & -> & Hviews). simpl.
    destruct (IH es1) as (es' & -> & Hviews').
    eexists. split; [reflexivity|]. rewrite Hviews', Hviews. reflexivity.
Qed.

Lemma plain_filter (p : Message → bool) (history : list Message) :
  FinalSummarizer.plainHistory history →
  Forall (fun m => Js.inherited (keyOf m) = false) (List.filter p history).
Proof.
  unfold FinalSummarizer.plainHistory. rewrite !Forall_forall.
  intros Hall m Hin. apply Hall.
  apply list_elem_of_In, List.filter_In in Hin as [Hin _].
  apply list_elem_of_In, Hin.
Qed.

(** In a history where no [process_UUID] names a member of
    [Object.prototype], the three loops leave [Object.prototype] as it was
    and build the mapping of own properties. *)
Lemma collectGrades_plain (history : list Message) :
  FinalSummarizer.plainHistory history →
  ∃ es, FinalSummarizer.collectGrades history = Ret (es, clean)
        ∧ views es = collectGrades history.
Proof.
  intros Hplain. unfold FinalSummarizer.collectGrades, collectGrades.
  destruct (forEach_plain FinalSummarizer.addTechnical addTechnical _
              addTechnical_plain
              (plain_filter (hasToolCall "technical_summary") _ Hplain) [])
    as (es1 & -> & H1).
  destruct (forEach_plain FinalSummarizer.addSpatial addSpatial _
              addSpatial_plain
              (plain_filter (hasToolCall "spatial_summary") _ Hplain) es1)
    as (es2 & H2run & H2).
  destruct (forEach_plain FinalSummarizer.addTime addTime _
              addTime_plain
              (plain_filter (hasToolCall "time_summary") _ Hplain) es2)
    as (es3 & H3run & H3).
  exists es3. cbn [mbind Result_bind]. rewrite H2run. cbn [mbind Result_bind].
  split; [exact H3run|]. rewrite H3, H2, H1. reflexivity.
Qed.

Lemma final_summarizer_plain (state : State) :
  FinalSummarizer.plainHistory (messages state) →
  FinalSummarizer.final_summarizer state = Ret (final_summarizer state).
Proof.
  intros Hplain. unfold FinalSummarizer.final_summarizer, final_summarizer.
  destruct (collectGrades_plain _ Hplain) as (es & -> & <-).
  cbn [mbind Result_bind fst snd]. do 2 f_equal.
  induction es as [|[k e] es IH]; [reflexivity|].
  cbn [omap list_omap map fst snd]. rewrite IH. reflexivity.
Qed.

(** C8, the failing input: the history holds a technical summary for the
    process [__proto__], and for the process [p-2] a spatial and a time
    summary but no technical one.  [allProcesses["__proto__"]] is
    [Object.prototype], which takes the technical grade; the test of line
    1058 then reads that grade through the entry of [p-2], and a
    [final_summary] is made for [p-2] with a technical grade that no
    summary reported for it. *)
Theorem final_summary_without_technical_grade :
  (∀ m, m ∈ FinalSummarizer.pollutedHistory →
        hasToolCall "technical_summary" m = true →
        Js.get "process_UUID" (firstArgs m) ≠ Some (JStr "p-2"))
  ∧ FinalSummarizer.final_summarizer
      (stateOf FinalSummarizer.pollutedHistory)
    = Ret (mkUpdate
             [toolMessage "final_summary"
                [("process_UUID", JStr "p-2");
                 ("process_name", JStr "casting");
                 ("location", JStr "DE"); ("flow_count", JStr "0");
                 ("technical_representativeness", JStr "1");
                 ("spatial_representativeness", JStr "1");
                 ("time_representativeness", JStr "2")]] None).
Proof.
  split; [|reflexivity].
  intros m Hin Htool.
  repeat (apply elem_of_cons in Hin as [->|Hin];
          [try discriminate Htool; simpl; discriminate|]).
  inversion Hin.
Qed.



Lemma materialize_grades (entry : string * ProcessData) (msg : Message) :
  materialize entry = Some msg →
  ∃ technical spatial time,
    msg = finalSummaryMessage entry.1 entry.2 technical spatial time
    ∧ technical_grade entry.2 = Some technical
    ∧ spatial_grade entry.2 = Some spatial
    ∧ time_grade entry.2 = Some time
    ∧ Js.truthy (Some technical) = true
    ∧ Js.truthy (Some spatial) = true
    ∧ Js.truthy (Some time) = true.
Proof.
  destruct entry as [processUUID processData]. unfold materialize.
  cbn [fst snd].
  destruct (technical_grade processData) as [technical|] eqn:Ht;
    [|simpl; discriminate].
  destruct (spatial_grade processData) as [spatial|] eqn:Hs;
    [|destruct (negb _); simpl; discriminate].
  destruct (time_grade processData) as [time|] eqn:Hti;
    [|destruct (negb _), (negb _); simpl; discriminate].
  destruct (Js.truthy (Some technical)) eqn:Htechnical; [|discriminate].
  destruct (Js.truthy (Some spatial)) eqn:Hspatial; [|discriminate].
  destruct (Js.truthy (Some time)) eqn:Htime; [|discriminate].
  cbn [negb orb]. intros [= <-]. exists technical, spatial, time.
  repeat split; assumption.
Qed.



End FinalSummarizerFacts.

(* --------------------------------------------------------------------- *)
(** ** The routing of the graph with a queue of demands *)
(* --------------------------------------------------------------------- *)

Module QueueAgentFacts.
Import QueueAgent.

Example tenExtractions_count : iterationCount tenExtractions = 10.
Proof. reflexivity. Qed.

(** C3, counterexample: ten [demand_extractor] messages are in the history,
    so the maximum of 10 is reached, and the routing still continues. *)
Lemma boundary_check_continues_at_ten :
  iterationCount tenExtractions = 10
  ∧ shouldContinueBoundaryAnalysis tenExtractions = "continue_analysis"
  ∧ shouldContinueBoundaryAnalysis tenExtractions ≠ "end_workflow".
Proof. vm_compute. repeat split; discriminate. Qed.

Lemma boundary_check_exceeded (state : State) :
  10 < iterationCount state →
  shouldContinueBoundaryAnalysis state = "end_workflow".
Proof.
  intros Hcount. unfold shouldContinueBoundaryAnalysis.
  destruct (10 <? iterationCount state) eqn:Hlt; [reflexivity|].
  apply Nat.ltb_ge in Hlt. lia.
Qed.

Lemma boundary_check_continue (state : State) :
  shouldContinueBoundaryAnalysis state = "continue_analysis" →
  iterationCount state ≤ 10.
Proof.
  intros Hcont. destruct (decide (10 < iterationCount state)) as [Hlt|]; [|lia].
  rewrite (boundary_check_exceeded state Hlt) in Hcont. discriminate.
Qed.

Lemma successiveChecks_length (state : State) (states : list State) :
  successiveChecks (state :: states) →
  Forall (fun s => iterationCount s ≤ 10) (state :: states) →
  length (state :: states) + iterationCount state ≤ 11.
Proof.
  revert state; induction states as [|state2 states IH]; intros state.
  - intros _ [Hle _]%Forall_cons. simpl. lia.
  - intros [Hlt Hrest] [Hle Hall]%Forall_cons.
    specialize (IH state2 Hrest Hall). simpl in *. lia.
Qed.

(** C3, amended: [shouldContinueBoundaryAnalysis] routes to [end_workflow]
    whenever the history holds more than 10 messages with a
    [demand_extractor] tool call, whatever the boundary judgement says; with
    exactly 10 it still follows the judgement.  So in a run whose history
    gains at least one such message from one boundary check to the next, the
    first after at least one, at most 10 checks let the analysis continue,
    however many demands each pass queues. *)
Theorem boundary_check_cap :
  (∀ state, 10 < iterationCount state →
            shouldContinueBoundaryAnalysis state = "end_workflow")
  ∧ (∀ states,
       successiveChecks states →
       (∀ state, head states = Some state → 1 ≤ iterationCount state) →
       Forall (fun state =>
                 shouldContinueBoundaryAnalysis state = "continue_analysis")
              states →
       length states ≤ 10).
Proof.
  split; [exact boundary_check_exceeded|].
  intros [|state states] Hchain Hfirst Hcont; [simpl; lia|].
  specialize (Hfirst state eq_refl).
  assert (Hle : Forall (fun s => iterationCount s ≤ 10) (state :: states)).
  { eapply Forall_impl; [exact Hcont|]. apply boundary_check_continue. }
  pose proof (successiveChecks_length state states Hchain Hle). lia.
Qed.

Lemma boundary_check_cap_witness :
  shouldContinueBoundaryAnalysis (queueStateOf (replicate 11 extracted))
  = "end_workflow".
Proof.
  apply (proj1 boundary_check_cap (queueStateOf (replicate 11 extracted))).
  vm_compute. lia.
Defined.

(* --------------------------------------------------------------------- *)
(** *** The queue of demands *)

Example queueOfThree_routing :
  shouldProcessNextDemand queueOfThree = "process_next_demand".
Proof. reflexivity. Qed.

(** The self-loop at [demand_extractor] asks the oracle once for every demand
    that is still queued and then leaves the loop; the cap on the iterations
    is not looked at in between.  The queued demands are not [null]. *)
Lemma demand_extractor_queued (oracle : Oracle) (state : State) (n : nat) :
  has_parallel_demands state = true →
  current_demand_index state < length (demands state) →
  Forall (fun demand => demand ≠ JNull) (demands state) →
  ∃ request,
    demand_extractor oracle state n
    = match oracle n request with
      | Ret response =>
          (Ret (mkUpdate [response] None None None
                  (Some (current_demand_index state + 1))
                  (Some (current_demand_index state + 1
                         <? length (demands state)))), S n)
      | Throw e => (Throw e, S n)
      end.
Proof.
  intros Hflag Hidx Hdemands. unfold demand_extractor. rewrite Hflag.
  assert (Hpos : (0 <? length (demands state)) = true)
    by (apply Nat.ltb_lt; lia).
  assert (Hlt : (current_demand_index state <? length (demands state)) = true)
    by (apply Nat.ltb_lt; lia).
  rewrite Hpos, Hlt. simpl.
  exists (extractorRequest
            (Js.toPropertyKey
               (Js.get "content"
                  (demands state !! current_demand_index state)))).
  assert (Hnull : demands state !! current_demand_index state ≠ Some JNull).
  { intros Hnull. rewrite Forall_forall in Hdemands.
    apply (Hdemands JNull); [|reflexivity].
    eapply list_elem_of_lookup_2. exact Hnull. }
  unfold mbind, Async_bind, invoke, mret, Async_ret.
  destruct (demands state !! current_demand_index state) as [[]|];
    try (destruct (oracle n _); reflexivity).
  contradiction Hnull. reflexivity.
Qed.

Lemma queue_is_drained (oracle : Oracle) (k : nat) :
  (∀ n request, ∃ response, oracle n request = Ret response) →
  ∀ (fuel : nat) (state : State) (n : nat),
    has_parallel_demands state = true →
    current_demand_index state + S k = length (demands state) →
    Forall (fun demand => demand ≠ JNull) (demands state) →
    S k ≤ fuel →
    ∃ state',
      extractDemands fuel oracle state n = (Ret state', n + S k)
      ∧ length (messages state') = length (messages state) + S k
      ∧ shouldProcessNextDemand state' = "normal_flow".
Proof.
  intros Htotal. induction k as [|k IH];
    intros fuel state n Hflag Hidx Hqueue Hfuel;
    (destruct fuel as [|fuel]; [lia|]);
    (destruct (demand_extractor_queued oracle state n Hflag)
       as [request Hstage]; [lia|exact Hqueue|]);
    (destruct (Htotal n request) as [response Hresponse]);
    rewrite Hresponse in Hstage;
    cbn [extractDemands]; unfold mbind, Async_bind at 1; rewrite Hstage;
    match goal with |- context [applyUpdate state ?u] =>
      set (state' := applyUpdate state u) end;
    assert (Hmessages : length (messages state')
                        = length (messages state) + 1)
      by (subst state'; simpl; rewrite length_app; reflexivity);
    assert (Hdemands : demands state' = demands state) by reflexivity;
    assert (Hindex : current_demand_index state'
                     = current_demand_index state + 1) by reflexivity;
    assert (Hflag' : has_parallel_demands state'
                     = (current_demand_index state + 1
                        <? length (demands state))) by reflexivity.
  - assert (Hroute : shouldProcessNextDemand state' = "normal_flow").
    { unfold shouldProcessNextDemand. rewrite Hflag'.
      replace (current_demand_index state + 1 <? length (demands state))
        with false by (symmetry; apply Nat.ltb_ge; lia).
      reflexivity. }
    rewrite Hroute. simpl. exists state'.
    replace (n + 1) with (S n) by lia. auto.
  - assert (Hroute : shouldProcessNextDemand state' = "process_next_demand").
    { unfold shouldProcessNextDemand. rewrite Hflag', Hdemands, Hindex.
      replace (current_demand_index state + 1 <? length (demands state))
        with true by (symmetry; apply Nat.ltb_lt; lia).
      replace (0 <? length (demands state))
        with true by (symmetry; apply Nat.ltb_lt; lia).
      reflexivity. }
    rewrite Hroute. simpl.
    destruct (IH fuel state' (S n)) as (state'' & Hrun & Hlen & Hout).
    + rewrite Hflag'. apply Nat.ltb_lt. lia.
    + rewrite Hdemands, Hindex. lia.
    + rewrite Hdemands. exact Hqueue.
    + lia.
    + exists state''. split; [rewrite Hrun; f_equal; lia|].
      split; [lia|exact Hout].
Qed.

Example queueOfThree_drained :
  (extractDemands 100 (KeyAgent.steady extracted) queueOfThree 0).2 = 3.
Proof. reflexivity. Qed.

(* --------------------------------------------------------------------- *)
(** *** The routing after the fan-in of the flow analysts *)

(** The routing looks at the first [flow_judger] message of the history. *)
Lemma shouldContinueFlowJudger_first (state : State) (judgerOutput : Message) :
  length (List.filter (hasToolCall "flow_judger") (messages state)) ≤ 10 →
  find (hasToolCall "flow_judger") (messages state) = Some judgerOutput →
  shouldContinueFlowJudger state
  = if reportsEmpty judgerOutput then "end_workflow" else "continue_workflow".
Proof.
  intros Hcount Hfind. unfold shouldContinueFlowJudger, reportsEmpty.
  destruct (10 <? _) eqn:Hlt; [apply Nat.ltb_lt in Hlt; lia|].
  rewrite Hfind. reflexivity.
Qed.

(** In a history with a single [flow_judger] message, the one the routing
    looks at is the output of the fan-in that has just run. *)
Lemma shouldContinueFlowJudger_single (state : State) (judgerOutput : Message) :
  List.filter (hasToolCall "flow_judger") (messages state) = [judgerOutput] →
  shouldContinueFlowJudger state
  = if reportsEmpty judgerOutput then "end_workflow" else "continue_workflow".
Proof.
  intros Hsingle. apply shouldContinueFlowJudger_first.
  - rewrite Hsingle. simpl. lia.
  - induction (messages state) as [|m history IH]; [discriminate|].
    simpl in *. destruct (hasToolCall "flow_judger" m).
    + injection Hsingle as -> _. reflexivity.
    + auto.
Qed.

(** C6, the failing input: in the second pass of a run the fan-in reports an
    empty merged list, the routing looks at the report of the first pass and
    continues to [flow_filter]. *)
Theorem shouldContinueFlowJudger_stale :
  (∃ judgerOutput,
      latestFlowJudger secondFanInEmpty = Some judgerOutput
      ∧ reportsEmpty judgerOutput = true)
  ∧ shouldContinueFlowJudger secondFanInEmpty = "continue_workflow".
Proof.
  split; [|reflexivity].
  eexists. split; [reflexivity|reflexivity].
Qed.

End QueueAgentFacts.

(* ===================================================================== *)
(** * Further properties of the code *)
(* ===================================================================== *)

(* --------------------------------------------------------------------- *)
(** ** The data source: filters and the other tools *)
(* --------------------------------------------------------------------- *)

Module DataSourceToolsFacts.
Import DataSource DataSourceTools.

Lemma filter_filter {A : Type} (p q : A → bool) (l : list A) :
  List.filter q (List.filter p l) = List.filter (fun x => p x && q x) l.
Proof.
  induction l as [|x l IH]; simpl; [reflexivity|].
  destruct (p x); simpl; [destruct (q x)|]; rewrite IH; reflexivity.
Qed.

Lemma filter_ext_in {A : Type} (p q : A → bool) (l : list A) :
  (∀ x, p x = q x) → List.filter p l = List.filter q l.
Proof. intros H. apply List.filter_ext. exact H. Qed.

(** The loop over the filter conditions, when it reports no missing column,
    keeps the rows that pass every condition, in their order. *)
Lemma applyFilters_exact (conditions : list (string * json))
    (rows data : list Row) :
  applyFilters conditions rows = inr data →
  data = List.filter (passes conditions) rows.
Proof.
  revert rows; induction conditions as [|[column value] conditions IH];
    intros rows; simpl.
  - intros [= <-]. induction rows as [|r rows IHr]; simpl; congruence.
  - destruct (match head rows with None => true | Some row0 => _ end);
      [discriminate|].
    intros Hrest. apply IH in Hrest. rewrite Hrest, filter_filter.
    reflexivity.
Qed.



(** X2.  The presence of a filter column is tested on the first row that is left.
    When no row passes the first condition, a second condition is reported
    as a missing column, whether or not the sheet has that column. *)
Theorem second_filter_reported_missing (fs : FileSystem)
    (filePath sheetName : string) (workbook : Workbook) (rows : list Row)
    (row0 : Row) (column1 column2 : string) (value1 value2 : json)
    (conditions : list (string * json))
    (extractColumns : option (list string)) :
  existsSync fs filePath = true →
  readFile fs filePath = Ret workbook →
  Js.includes sheetName (SheetNames workbook) = true →
  sheet_to_json (getSheet sheetName (Sheets workbook)) = Ret rows →
  head rows = Some row0 →
  Js.has column1 row0 = true →
  List.filter (passes [(column1, value1)]) rows = [] →
  extractSheetToJson fs filePath sheetName
    (Some ((column1, value1) :: (column2, value2) :: conditions))
    extractColumns
  = errorJson ("筛选条件中的列 '" +:+ column2 +:+ "' 不存在。").
Proof.
  intros Hexists Hread Hsheet Hrows Hhead Hhas Hnone.
  unfold extractSheetToJson, extractSheetToJson_try.
  rewrite Hexists, Hread. simpl. rewrite Hsheet, Hrows. simpl.
  rewrite Hhead. unfold Js.hasIn. rewrite Hhas. simpl.
  assert (Hfil : List.filter
                   (fun row => Js.strictEq (Js.lookup column1 row) (Some value1))
                   rows = []).
  { etransitivity; [|exact Hnone]. apply List.filter_ext. intros row. simpl.
    rewrite andb_true_r. reflexivity. }
  rewrite Hfil. reflexivity.
Qed.

Lemma second_filter_reported_missing_witness :
  extractSheetToJson sampleFs "T2C_dataset_Al.xlsx" "process_Al"
    (Some [("process_UUID", JStr "p-9"); ("process_name", JStr "casting")])
    None
  = errorJson ("筛选条件中的列 '" +:+ "process_name" +:+ "' 不存在。").
Proof.
  eapply (second_filter_reported_missing sampleFs "T2C_dataset_Al.xlsx"
            "process_Al" sampleBook); reflexivity.
Defined.

Lemma pick_cons (c : string) (columns : list string) (row : Row) :
  pick (c :: columns) row
  = match Js.lookup c row with
    | Some v => (c, v) :: pick columns row
    | None => pick columns row
    end.
Proof. unfold pick. simpl. destruct (Js.lookup c row); reflexivity. Qed.

Lemma lookup_pick (columns : list string) (row : Row) (col : string) :
  Js.lookup col (pick columns row)
  = if decide (col ∈ columns) then Js.lookup col row else None.
Proof.
  induction columns as [|c columns IH].
  - destruct (decide (col ∈ [])) as [H|_]; [inversion H|reflexivity].
  - rewrite pick_cons. destruct (decide (col = c)) as [->|Hne].
    + rewrite decide_True by left.
      destruct (Js.lookup c row) as [v|] eqn:Hc.
      * simpl. rewrite String.eqb_refl. reflexivity.
      * rewrite IH. destruct (decide (c ∈ columns)); auto.
    + assert (Hdec : (if decide (col ∈ c :: columns)
                      then Js.lookup col row else None)
                     = (if decide (col ∈ columns)
                        then Js.lookup col row else None)).
      { destruct (decide (col ∈ columns)) as [Hin|Hout].
        - rewrite decide_True by (right; exact Hin). reflexivity.
        - rewrite decide_False; [reflexivity|].
          intros [->|Hin]%elem_of_cons; contradiction. }
      rewrite Hdec, <- IH.
      destruct (Js.lookup c row) as [v|]; [|reflexivity].
      simpl. assert (Heq : String.eqb c col = false)
        by (apply eqb_false; congruence).
      rewrite Heq. reflexivity.
Qed.

Lemma cellIs_true (column text : string) (row : Row) :
  cellIs column text row = true ↔ Js.lookup column row = Some (JStr text).
Proof.
  unfold cellIs. destruct (Js.lookup column row) as [[| | |s| |]|]; simpl;
    try (split; [discriminate|intros [=]]).
  rewrite eqb_true. split; [intros ->; reflexivity|intros [= ->]; reflexivity].
Qed.

Lemma loadExcel_Process_nil_length (rows : list Row) :
  (length rows =? 0) = true ↔ rows = [].
Proof.
  destruct rows; simpl; split; try reflexivity; try discriminate.
Qed.

(** X3.  [extractDownstreamProcess] answers with the error object whenever
    [loadExcel] yields no row for the sheet [Process] (file or sheet missing,
    an exception, or an empty sheet).  Otherwise each row it returns comes
    from a row of the sheet whose [process_UUID] is the one asked for, and
    holds of the four columns exactly those the source row has: a missing
    cell is left out, not set to [null]. *)
Theorem extractDownstreamProcess_rows (fs : FileSystem)
    (filePath processUUID : string) :
  (loadExcel fs filePath "Process" = [] →
   extractDownstreamProcess fs filePath processUUID
   = errorJson "无法加载Process工作表")
  ∧ (loadExcel fs filePath "Process" ≠ [] →
     ∃ items,
       extractDownstreamProcess fs filePath processUUID
       = JSON_stringify (JArr items)
       ∧ Forall (fun item =>
                   ∃ newRow source,
                     item = JObj newRow
                     ∧ source ∈ loadExcel fs filePath "Process"
                     ∧ Js.lookup "process_UUID" newRow
                       = Some (JStr processUUID)
                     ∧ ∀ col,
                         Js.lookup col newRow
                         = if decide (col ∈ ["process_UUID"; "process_name";
                                             "location"; "validity_start"])
                           then Js.lookup col source else None) items).
Proof.
  unfold extractDownstreamProcess. split.
  - intros ->. reflexivity.
  - intros Hrows.
    destruct (length (loadExcel fs filePath "Process") =? 0) eqn:Hlen.
    { apply loadExcel_Process_nil_length in Hlen. contradiction. }
    eexists. split; [reflexivity|].
    apply Forall_forall. intros item Hitem.
    apply list_elem_of_fmap in Hitem as [newRow [-> Hrow]].
    apply list_elem_of_fmap in Hrow as [source [-> Hsrc]].
    apply list_elem_of_In, List.filter_In in Hsrc as [Hsrc Hid].
    apply cellIs_true in Hid.
    exists (pick ["process_UUID"; "process_name"; "location"; "validity_start"]
                 source), source.
    split; [reflexivity|]. split; [apply list_elem_of_In, Hsrc|].
    split; [|intros col; apply lookup_pick].
    rewrite lookup_pick, decide_True by left. exact Hid.
Qed.

Example extractDownstreamProcess_omits :
  extractDownstreamProcess lcaFs "T2C.xlsx" "p-2"
  = JSON_stringify
      (JArr [JObj [("process_UUID", JStr "p-2");
                   ("process_name", JStr "casting")]]).
Proof. reflexivity. Qed.

(** X4.  [extractDownstreamFlow] answers with the error object whenever
    [loadExcel] yields no row for the sheet [Flow].  Otherwise each row it
    returns comes from a row of the sheet that is an input of the process
    asked for, and holds of the five columns exactly those the source row
    has. *)
Theorem extractDownstreamFlow_rows (fs : FileSystem)
    (filePath processUUID : string) :
  (loadExcel fs filePath "Flow" = [] →
   extractDownstreamFlow fs filePath processUUID
   = errorJson "无法加载Flow工作表")
  ∧ (loadExcel fs filePath "Flow" ≠ [] →
     ∃ items,
       extractDownstreamFlow fs filePath processUUID
       = JSON_stringify (JArr items)
       ∧ Forall (fun item =>
                   ∃ newRow source,
                     item = JObj newRow
                     ∧ source ∈ loadExcel fs filePath "Flow"
                     ∧ Js.lookup "process_UUID" source
                       = Some (JStr processUUID)
                     ∧ Js.lookup "Input/Output" source = Some (JStr "Input")
                     ∧ ∀ col,
                         Js.lookup col newRow
                         = if decide (col ∈ ["flow_name"; "flow_UUID";
                                             "flow_classification";
                                             "flow_type"; "process_UUID"])
                           then Js.lookup col source else None) items).
Proof.
  unfold extractDownstreamFlow. split.
  - intros ->. reflexivity.
  - intros Hrows.
    destruct (length (loadExcel fs filePath "Flow") =? 0) eqn:Hlen.
    { apply loadExcel_Process_nil_length in Hlen. contradiction. }
    eexists. split; [reflexivity|].
    apply Forall_forall. intros item Hitem.
    apply list_elem_of_fmap in Hitem as [newRow [-> Hrow]].
    apply list_elem_of_fmap in Hrow as [source [-> Hsrc]].
    apply list_elem_of_In, List.filter_In in Hsrc as [Hsrc Hcond].
    apply andb_true_iff in Hcond as [Hid Hin].
    apply cellIs_true in Hid, Hin.
    eexists _, source.
    split; [reflexivity|]. split; [apply list_elem_of_In, Hsrc|].
    split; [exact Hid|]. split; [exact Hin|].
    intros col; apply lookup_pick.
Qed.

Lemma getProcessIds_returns (processData : json)
    (processIds : list (option json)) :
  getProcessIds processData = Ret processIds →
  ∃ items, processData = JArr items.
Proof. destruct processData; try discriminate. eauto. Qed.

Lemma idListed_true (processIds : list (option json)) (row : Row) :
  idListed processIds row = true →
  ∃ id, id ∈ processIds
        ∧ Js.strictEq (Js.lookup "process_UUID" row) id = true.
Proof.
  unfold idListed. intros (id & Hin & Heq)%existsb_exists.
  exists id. split; [apply list_elem_of_In, Hin|exact Heq].
Qed.

(** X5.  [cleanJson] returns the object of a fenced block or the text that
    it was given, never an array (its pattern captures a text between
    braces); [getProcessIds] calls [map] on that value.  So
    [extractUpstreamFlow] and [extractUpstreamProcess] throw on every text,
    a fenced block and a bare JSON array as the other tools write it
    included, and nothing catches it. *)
Theorem extractUpstream_throws
    (fencedJson : string → option string)
    (JSON_parse_object : string → Result (list (string * json)))
    (fs : FileSystem) (jsonStr filePath : string) :
  (∀ items, cleanJson fencedJson JSON_parse_object jsonStr ≠ JArr items)
  ∧ (∃ e, extractUpstreamFlow fencedJson JSON_parse_object fs jsonStr filePath
          = Throw e)
  ∧ (∃ e, extractUpstreamProcess fencedJson JSON_parse_object fs jsonStr
            filePath = Throw e).
Proof.
  unfold extractUpstreamFlow, extractUpstreamProcess, cleanJson.
  destruct (fencedJson jsonStr) as [jsonCleaned|];
    [destruct (JSON_parse_object jsonCleaned) as [fields|e]|];
    simpl; (split; [discriminate|split; eexists; reflexivity]).
Qed.

Example extractUpstreamFlow_bare_array_throws :
  extractUpstreamFlow (fun _ => None) (fun _ => Ret []) lcaFs
    "[{ process_UUID: p-1 }]" "T2C.xlsx"
  = Throw (typeError "processData.map is not a function").
Proof. reflexivity. Qed.

Example extractUpstreamProcess_fenced_object_throws :
  extractUpstreamProcess (fun _ => Some "block")
    (fun _ => Ret [("process_UUID", JStr "p-1")]) lcaFs
    "text" "T2C.xlsx"
  = Throw (typeError "processData.map is not a function").
Proof. reflexivity. Qed.

Ltac not_listed :=
  let H := fresh "H" in
  intros H;
  repeat (apply elem_of_cons in H as [H|H]; [discriminate|]);
  inversion H.

Lemma lookup_app {V : Type} (k : string) (a b : list (string * V)) :
  Js.lookup k (a ++ b)
  = match Js.lookup k a with
    | Some v => Some v
    | None => Js.lookup k b
    end.
Proof.
  induction a as [|[k0 v0] a IH]; simpl; [reflexivity|].
  destruct (String.eqb k0 k); [reflexivity|exact IH].
Qed.

(** X6.  [extractDownstreamDemand] returns one entry per row of the sheet [Flow]
    that is a reference flow of the process asked for.  Every entry carries
    the technique type that was passed in, and the location and the validity
    start of the first row of the process in the sheet [Process]; when the
    process has no row there, or that row lacks the cell, the key is left
    out. *)
Theorem extractDownstreamDemand_entries (fs : FileSystem)
    (filePath processUUID techniqueType : string) :
  ∃ items,
    extractDownstreamDemand fs filePath processUUID techniqueType
    = JSON_stringify (JArr items)
    ∧ length items
      = length (List.filter
                  (fun row => cellIs "process_UUID" processUUID row
                              && cellIs "reference" "Siu" row)
                  (loadExcel fs filePath "Flow"))
    ∧ Forall (fun item =>
                ∃ entry,
                  item = JObj entry
                  ∧ Js.lookup "technique_type" entry
                    = Some (JStr techniqueType)
                  ∧ ∀ col, col = "location" ∨ col = "validity_start" →
                      Js.lookup col entry
                      = match head (List.filter
                                      (cellIs "process_UUID" processUUID)
                                      (loadExcel fs filePath "Process")) with
                        | Some processRow => Js.lookup col processRow
                        | None => None
                        end) items.
Proof.
  unfold extractDownstreamDemand. eexists. split; [reflexivity|].
  split; [rewrite !length_map; reflexivity|].
  apply Forall_forall. intros item Hitem.
  apply list_elem_of_fmap in Hitem as [entry [-> Hentry]].
  apply list_elem_of_fmap in Hentry as [flowItem [-> _]].
  eexists. split; [reflexivity|].
  match goal with |- context [default [] ?h] =>
    set (processItem := default [] h) end.
  assert (Hprocess : ∀ col, col = "location" ∨ col = "validity_start" →
            Js.lookup col processItem
            = match head (List.filter (cellIs "process_UUID" processUUID)
                            (loadExcel fs filePath "Process")) with
              | Some processRow => Js.lookup col processRow
              | None => None
              end).
  { intros col Hcol. subst processItem.
    destruct (List.filter _ (loadExcel fs filePath "Process"))
      as [|processRow others]; [reflexivity|].
    change (Js.lookup col (pick ["location"; "validity_start"] processRow)
            = Js.lookup col processRow).
    rewrite lookup_pick.
    destruct Hcol as [-> | ->];
      [rewrite decide_True by left|rewrite decide_True by (right; left)];
      reflexivity. }
  split.
  - rewrite lookup_app, lookup_pick. simpl. reflexivity.
  - intros col Hcol. rewrite <- (Hprocess col Hcol).
    assert (Hflow : ∀ columns,
              col ∉ columns → Js.lookup col (pick columns flowItem) = None)
      by (intros columns Hout; rewrite lookup_pick, decide_False; auto).
    rewrite lookup_app, (Hflow ["flow_name"]), lookup_app.
    + assert (Htech : Js.lookup col [("technique_type", JStr techniqueType)]
                      = None)
        by (destruct Hcol as [-> | ->]; reflexivity).
      rewrite Htech, lookup_app, Hflow, lookup_pick, decide_True.
      * reflexivity.
      * destruct Hcol as [-> | ->]; [right; left|left].
      * destruct Hcol as [-> | ->]; not_listed.
    + destruct Hcol as [-> | ->]; not_listed.
Qed.

Example extractDownstreamDemand_sample :
  extractDownstreamDemand lcaFs "T2C.xlsx" "p-1" "Bayer"
  = JSON_stringify
      (JArr [JObj [("flow_name", JStr "aluminium");
                   ("technique_type", JStr "Bayer");
                   ("validity_start", JNum 2020); ("location", JStr "CN")]]).
Proof. reflexivity. Qed.

Lemma extractDownstreamProcess_rows_witness :
  ∃ items,
    extractDownstreamProcess lcaFs "T2C.xlsx" "p-2"
    = JSON_stringify (JArr items)
    ∧ Forall (fun item =>
                ∃ newRow source,
                  item = JObj newRow
                  ∧ source ∈ loadExcel lcaFs "T2C.xlsx" "Process"
                  ∧ Js.lookup "process_UUID" newRow = Some (JStr "p-2")
                  ∧ ∀ col,
                      Js.lookup col newRow
                      = if decide (col ∈ ["process_UUID"; "process_name";
                                          "location"; "validity_start"])
                        then Js.lookup col source else None) items.
Proof.
  apply (proj2 (extractDownstreamProcess_rows lcaFs "T2C.xlsx" "p-2")).
  intros H. vm_compute in H. discriminate.
Defined.

Lemma extractDownstreamFlow_rows_witness :
  ∃ items,
    extractDownstreamFlow lcaFs "T2C.xlsx" "p-1"
    = JSON_stringify (JArr items)
    ∧ Forall (fun item =>
                ∃ newRow source,
                  item = JObj newRow
                  ∧ source ∈ loadExcel lcaFs "T2C.xlsx" "Flow"
                  ∧ Js.lookup "process_UUID" source = Some (JStr "p-1")
                  ∧ Js.lookup "Input/Output" source = Some (JStr "Input")
                  ∧ ∀ col,
                      Js.lookup col newRow
                      = if decide (col ∈ ["flow_name"; "flow_UUID";
                                          "flow_classification";
                                          "flow_type"; "process_UUID"])
                        then Js.lookup col source else None) items.
Proof.
  apply (proj2 (extractDownstreamFlow_rows lcaFs "T2C.xlsx" "p-1")).
  intros H. vm_compute in H. discriminate.
Defined.

End DataSourceToolsFacts.

(* --------------------------------------------------------------------- *)
(** ** The recursion: depth, fan-out and the result of the root *)
(* --------------------------------------------------------------------- *)

Module RecursionShapeFacts.
Import Recursion RecursionShape.

Lemma wellFormed_InBatches (depth : nat) (running : list call)
    (rest : list Demand) :
  wellFormed (InBatches depth running rest)
  ↔ depth < MAX_RECURSION_DEPTH
    ∧ length running ≤ CONCURRENCY_LIMIT
    ∧ Forall wellFormed running.
Proof.
  simpl. split; intros (Hd & Hlen & Hall); (split; [exact Hd|]);
    (split; [exact Hlen|]); clear Hlen.
  - induction running as [|c cs IH]; constructor; tauto.
  - induction Hall as [|c cs Hc Hcs IH]; simpl; auto.
Qed.

Lemma enter_shape (st : Store) (demand : string) (depth : nat) :
  depth ≤ MAX_RECURSION_DEPTH →
  wellFormed (enter st demand depth).1.2
  ∧ Forall withinDepth (enter st demand depth).2.
Proof.
  intros Hdepth. unfold enter.
  destruct (MAX_RECURSION_DEPTH <=? depth) eqn:Hmax.
  - apply Nat.leb_le in Hmax. simpl. split; [exact I|].
    assert (depth = MAX_RECURSION_DEPTH) by lia.
    repeat (apply List.Forall_cons; [simpl; lia|]). constructor.
  - apply Nat.leb_gt in Hmax.
    destruct (decide _); simpl; (split; [auto|]);
      repeat (apply List.Forall_cons; [simpl; auto; lia|]); constructor.
Qed.

Lemma enterAll_shape (batch : list Demand) (depth : nat) (st : Store) :
  depth ≤ MAX_RECURSION_DEPTH →
  Forall wellFormed (enterAll st batch depth).1.2
  ∧ Forall withinDepth (enterAll st batch depth).2
  ∧ length (enterAll st batch depth).1.2 = length batch.
Proof.
  intros Hdepth. revert st; induction batch as [|d batch IH]; intros st; simpl.
  { repeat split; constructor. }
  pose proof (enter_shape st (demand_content d) depth Hdepth) as [Hc Hevs].
  destruct (enter st (demand_content d) depth) as [[st1 c] evs1].
  destruct (IH st1) as (Hcs & Hevs2 & Hlen).
  destruct (enterAll st1 batch depth) as [[st2 cs] evs2]. simpl in *.
  split; [constructor; assumption|]. split; [apply Forall_app; auto|].
  congruence.
Qed.

Lemma processInBatches_shape (st : Store) (depth : nat)
    (pending : list Demand) :
  depth < MAX_RECURSION_DEPTH →
  wellFormed (processInBatches st depth pending).1.2
  ∧ Forall withinDepth (processInBatches st depth pending).2.
Proof.
  intros Hdepth. destruct pending as [|d pending]; [simpl; auto|].
  unfold processInBatches.
  assert (Hd : depth + 1 ≤ MAX_RECURSION_DEPTH) by lia.
  destruct (enterAll_shape (take CONCURRENCY_LIMIT (d :: pending))
              (depth + 1) st Hd) as (Hcs & Hevs & Hlen).
  destruct (enterAll st _ (depth + 1)) as [[st2 cs] evs2].
  cbn [fst snd] in *. split; [|exact Hevs].
  apply wellFormed_InBatches. split; [exact Hdepth|]. split; [|exact Hcs].
  rewrite Hlen, length_take. lia.
Qed.

Lemma resume_shape (st : Store) (depth : nat) (result : GraphResult) :
  depth < MAX_RECURSION_DEPTH →
  wellFormed (resume st depth result).1.2
  ∧ Forall withinDepth (resume st depth result).2.
Proof.
  intros Hdepth. unfold resume.
  destruct (find (hasToolCall "workflow_restarter") (messages result));
    [|simpl; auto].
  destruct (0 <? length (demands result)); [|simpl; auto].
  apply processInBatches_shape, Hdepth.
Qed.

Section AnyGraph.

Variable graph : string → GraphOutcome → Prop.

Lemma step_shape cfg evs cfg' :
  step graph cfg evs cfg' →
  wellFormed cfg.2 →
  wellFormed cfg'.2 ∧ Forall withinDepth evs.
Proof.
  induction 1 as [st demand depth result Hg|st demand depth error Hg
                 |st depth running rest Hdone
                 |st st' depth before c c' after rest evs Hstep IH];
    cbn [fst snd].
  - intros Hwf. apply resume_shape, Hwf.
  - intros _. simpl. auto.
  - intros (Hd & _ & _)%wellFormed_InBatches.
    apply processInBatches_shape, Hd.
  - intros (Hd & Hlen & Hall)%wellFormed_InBatches.
    apply Forall_app in Hall as [Hbefore Hafter].
    apply Forall_cons in Hafter as [Hc Hafter].
    destruct (IH Hc) as [Hc' Hevs]. split; [|exact Hevs].
    apply wellFormed_InBatches. split; [exact Hd|]. split.
    + rewrite length_app in *. simpl in *. exact Hlen.
    + apply Forall_app. split; [exact Hbefore|]. constructor; assumption.
Qed.

Lemma steps_shape cfg evs cfg' :
  steps graph cfg evs cfg' →
  wellFormed cfg.2 →
  wellFormed cfg'.2 ∧ Forall withinDepth evs.
Proof.
  induction 1 as [cfg|cfg1 evs1 cfg2 evs2 cfg3 Hstep Hsteps IH]; intros Hwf.
  - split; [exact Hwf|constructor].
  - destruct (step_shape _ _ _ Hstep Hwf) as [Hwf2 Hevs1].
    destruct (IH Hwf2) as [Hwf3 Hevs2].
    split; [exact Hwf3|apply Forall_app; auto].
Qed.

(** X7.  In every run of a lifecycle analysis, whatever the graph answers and in
    whatever order the promises settle, the graph is only invoked at depths
    below [MAX_RECURSION_DEPTH], calls are issued down to that depth at
    most, and no call ever awaits a batch of more than [CONCURRENCY_LIMIT]
    calls. *)
Theorem lifecycle_depth_and_fanout (initialDemand : string)
    (evs : list event) (cfg : Store * call) :
  lifecycle graph initialDemand evs cfg →
  Forall withinDepth evs ∧ wellFormed cfg.2.
Proof.
  intros (evs' & Hsteps & ->).
  assert (Hstart : wellFormed (analyzeCompleteLifeCycle initialDemand).1.2
                   ∧ Forall withinDepth
                       (analyzeCompleteLifeCycle initialDemand).2)
    by (apply enter_shape; unfold MAX_RECURSION_DEPTH; lia).
  destruct Hstart as [Hwf Hevs0].
  destruct (steps_shape _ _ _ Hsteps Hwf) as [Hwf' Hevs'].
  split; [apply Forall_app; auto|exact Hwf'].
Qed.

Lemma step_rootShape (initialDemand : string) cfg evs cfg' :
  step graph cfg evs cfg' →
  rootShape graph initialDemand cfg.2 →
  rootShape graph initialDemand cfg'.2.
Proof.
  destruct 1 as [st demand depth result Hg|st demand depth error Hg
                |st depth running rest Hdone
                |st st' depth before c c' after rest evs Hstep];
    cbn [fst snd].
  - intros [-> ->]. unfold resume.
    destruct (find (hasToolCall "workflow_restarter") (messages result));
      [|exact I].
    destruct (0 <? length (demands result)); [|exact I].
    destruct (demands result) as [|d ds]; [exact I|].
    unfold processInBatches.
    destruct (enterAll _ _ _) as [[st2 cs] evs2]. reflexivity.
  - intros [-> ->]. exact Hg.
  - intros ->. destruct rest as [|d ds]; [exact I|].
    unfold processInBatches.
    destruct (enterAll _ _ _) as [[st2 cs] evs2]. reflexivity.
  - intros ->. reflexivity.
Qed.

Lemma steps_rootShape (initialDemand : string) cfg evs cfg' :
  steps graph cfg evs cfg' →
  rootShape graph initialDemand cfg.2 →
  rootShape graph initialDemand cfg'.2.
Proof.
  induction 1 as [cfg|cfg1 evs1 cfg2 evs2 cfg3 Hstep Hsteps IH]; [auto|].
  intros Hroot. apply IH. eapply step_rootShape; eassumption.
Qed.

(** X8.  The errors that [analyzeCompleteLifeCycle] reports come from the root
    call alone: when the run is over, the list of errors is empty or holds
    the one error with which the graph run of the initial demand itself
    failed.  A depth limit that stops a descendant, or a graph run of a
    descendant that fails, is never reported.  (The new demands are objects
    with a text as [content], as the interface [Demand] has them.) *)
Theorem lifecycle_errors_from_root (initialDemand : string)
    (evs : list event) (st : Store) (r : CallResult) :
  lifecycle graph initialDemand evs (st, Returned r) →
  Lifecycle.new_errors (Lifecycle.lifeCycleComplete st r) = []
  ∨ ∃ error,
      graph initialDemand (Rejected error)
      ∧ Lifecycle.new_errors (Lifecycle.lifeCycleComplete st r)
        = ["处理需求时出错: " +:+ error].
Proof.
  intros (evs' & Hsteps & _).
  apply (steps_rootShape initialDemand) in Hsteps; [|split; reflexivity].
  simpl in Hsteps. destruct r as [| |error]; simpl.
  - left. reflexivity.
  - contradiction.
  - right. exists error. auto.
Qed.

End AnyGraph.

Lemma lifecycle_depth_and_fanout_witness :
  Forall withinDepth (analyze fourInputs 100 "Al").2
  ∧ wellFormed (analyze fourInputs 100 "Al").1.2.
Proof.
  exact (lifecycle_depth_and_fanout _ "Al" _ _
           (RecursionFacts.analyze_lifecycle fourInputs 100 "Al")).
Defined.

(** Both inputs of the root fail, and the root returns without error. *)
Example failingInputs_run :
  (analyze failingInputs 10 "Al").1.2 = Returned Success
  ∧ admittedKeys (analyze failingInputs 10 "Al").2
    = ["al"; "alumina"; "power"].
Proof. vm_compute. split; reflexivity. Qed.

Lemma failingInputs_lifecycle :
  lifecycle (fun demand o => o = failingInputs demand) "Al"
    (analyze failingInputs 10 "Al").2
    ((analyze failingInputs 10 "Al").1.1, Returned Success).
Proof.
  pose proof (RecursionFacts.analyze_lifecycle failingInputs 10 "Al") as H.
  destruct (analyze failingInputs 10 "Al") as [[st c] evs] eqn:Hrun.
  assert (Hc : c = Returned Success).
  { change c with (st, c, evs).1.2. rewrite <- Hrun.
    apply failingInputs_run. }
  subst c. exact H.
Qed.

Lemma lifecycle_errors_from_root_witness :
  Lifecycle.new_errors
    (Lifecycle.lifeCycleComplete (analyze failingInputs 10 "Al").1.1 Success)
  = []
  ∨ ∃ error,
      (fun demand o => o = failingInputs demand) "Al" (Rejected error)
      ∧ Lifecycle.new_errors
          (Lifecycle.lifeCycleComplete (analyze failingInputs 10 "Al").1.1
             Success)
        = ["处理需求时出错: " +:+ error].
Proof.
  exact (lifecycle_errors_from_root _ "Al" _ _ _ failingInputs_lifecycle).
Defined.

(* --------------------------------------------------------------------- *)
(** *** What the recursion collects *)

Lemma enter_arrays (st : Store) (demand : string) (depth : nat) :
  processSelectors (enter st demand depth).1.1 = processSelectors st
  ∧ workflowRestarters (enter st demand depth).1.1 = workflowRestarters st
  ∧ awaiting (enter st demand depth).1.2
    = length (admittedKeys (enter st demand depth).2).
Proof.
  unfold enter. destruct (MAX_RECURSION_DEPTH <=? depth); [auto|].
  destruct (decide _); auto.
Qed.

Lemma enterAll_arrays (batch : list Demand) (depth : nat) (st : Store) :
  processSelectors (enterAll st batch depth).1.1 = processSelectors st
  ∧ workflowRestarters (enterAll st batch depth).1.1 = workflowRestarters st
  ∧ sum_list_with awaiting (enterAll st batch depth).1.2
    = length (admittedKeys (enterAll st batch depth).2).
Proof.
  revert st; induction batch as [|d batch IH]; intros st; simpl; [auto|].
  pose proof (enter_arrays st (demand_content d) depth) as (Hp & Hw & Ha).
  destruct (enter st (demand_content d) depth) as [[st1 c] evs1].
  destruct (IH st1) as (Hp2 & Hw2 & Ha2).
  destruct (enterAll st1 batch depth) as [[st2 cs] evs2]. simpl in *.
  rewrite RecursionFacts.admittedKeys_app, length_app.
  split; [congruence|]. split; [congruence|lia].
Qed.

Lemma processInBatches_arrays (st : Store) (depth : nat)
    (pending : list Demand) :
  processSelectors (processInBatches st depth pending).1.1
  = processSelectors st
  ∧ workflowRestarters (processInBatches st depth pending).1.1
    = workflowRestarters st
  ∧ awaiting (processInBatches st depth pending).1.2
    = length (admittedKeys (processInBatches st depth pending).2).
Proof.
  destruct pending as [|d pending]; [simpl; auto|].
  unfold processInBatches.
  pose proof (enterAll_arrays (take CONCURRENCY_LIMIT (d :: pending))
                (depth + 1) st) as H.
  destruct (enterAll st _ (depth + 1)) as [[st2 cs] evs2]. exact H.
Qed.

Lemma find_hasToolCall (toolName : string) (history : list Message)
    (m : Message) :
  find (hasToolCall toolName) history = Some m → hasToolCall toolName m = true.
Proof. intros H. apply List.find_some in H. tauto. Qed.

Lemma resume_collected (st : Store) (depth : nat) (result : GraphResult)
    (admitted : nat) (others : nat) :
  Forall (fun m => hasToolCall "process_selector" m = true)
         (processSelectors st) →
  Forall (fun m => hasToolCall "workflow_restarter" m = true)
         (workflowRestarters st) →
  let st' := (resume st depth result).1.1 in
  let c' := (resume st depth result).1.2 in
  let evs := (resume st depth result).2 in
  Forall (fun m => hasToolCall "process_selector" m = true)
         (processSelectors st')
  ∧ Forall (fun m => hasToolCall "workflow_restarter" m = true)
           (workflowRestarters st')
  ∧ length (processSelectors st') + awaiting c'
    ≤ length (processSelectors st) + 1 + length (admittedKeys evs)
  ∧ length (workflowRestarters st') + awaiting c'
    ≤ length (workflowRestarters st) + 1 + length (admittedKeys evs).
Proof.
  intros Hps Hwr. unfold resume.
  destruct (find (hasToolCall "process_selector") (messages result))
    as [ps|] eqn:Hfps;
    destruct (find (hasToolCall "workflow_restarter") (messages result))
      as [wr|] eqn:Hfwr;
    try apply find_hasToolCall in Hfps; try apply find_hasToolCall in Hfwr;
    try (destruct (0 <? length (demands result));
         [match goal with |- context [processInBatches ?s ?d ?p] =>
            pose proof (processInBatches_arrays s d p) as (Hp & Hw & Ha);
            destruct (processInBatches s d p) as [[st2 c2] evs2]
          end|]);
    cbn [fst snd processSelectors workflowRestarters awaiting admittedKeys
         omap length] in *;
    try rewrite Hp; try rewrite Hw; cbn [processSelectors workflowRestarters];
    repeat split;
    try (apply Forall_app; split; [assumption|constructor; [assumption|constructor]]);
    try assumption; rewrite ?length_app; simpl; try lia.
Qed.

Section AnyGraphCollects.

Variable graph : string → GraphOutcome → Prop.

Lemma step_collected cfg evs cfg' :
  step graph cfg evs cfg' →
  ∀ admitted,
    collected cfg.1 cfg.2 admitted →
    collected cfg'.1 cfg'.2 (admitted + length (admittedKeys evs)).
Proof.
  induction 1 as [st demand depth result Hg|st demand depth error Hg
                 |st depth running rest Hdone
                 |st st' depth before c c' after rest evs Hstep IH];
    intros admitted (Hps & Hwr & Hnp & Hnw); cbn [fst snd] in *.
  - destruct (resume_collected st depth result admitted 0 Hps Hwr)
      as (Hps' & Hwr' & Hnp' & Hnw').
    simpl in Hnp, Hnw. repeat split; auto; lia.
  - repeat split; auto; simpl in *; lia.
  - pose proof (processInBatches_arrays st depth rest) as (Hp & Hw & Ha).
    destruct (processInBatches st depth rest) as [[st2 c2] evs2].
    cbn [fst snd] in *. unfold collected. rewrite Hp, Hw.
    assert (Hzero : sum_list_with awaiting running = 0).
    { clear -Hdone. induction running as [|c cs IHc]; [reflexivity|].
      simpl in *. apply andb_true_iff in Hdone as [Hc Hcs].
      destruct c; try discriminate. simpl. auto. }
    simpl in Hnp, Hnw. rewrite Hzero in Hnp, Hnw.
    repeat split; auto; lia.
  - simpl in Hnp, Hnw. rewrite !sum_list_with_app in Hnp, Hnw.
    simpl in Hnp, Hnw.
    destruct (IH (admitted - sum_list_with awaiting before
                  - sum_list_with awaiting after))
      as (Hps' & Hwr' & Hnp' & Hnw').
    { repeat split; auto; simpl; lia. }
    simpl in Hnp', Hnw'. unfold collected. simpl.
    rewrite !sum_list_with_app. simpl. repeat split; auto; lia.
Qed.

Lemma steps_collected cfg evs cfg' :
  steps graph cfg evs cfg' →
  ∀ admitted,
    collected cfg.1 cfg.2 admitted →
    collected cfg'.1 cfg'.2 (admitted + length (admittedKeys evs)).
Proof.
  induction 1 as [cfg|cfg1 evs1 cfg2 evs2 cfg3 Hstep Hsteps IH];
    intros admitted Hc.
  - simpl. rewrite Nat.add_0_r. exact Hc.
  - rewrite RecursionFacts.admittedKeys_app, length_app, Nat.add_assoc.
    apply IH. eapply step_collected; eassumption.
Qed.

Lemma lifecycle_collected initialDemand evs cfg :
  lifecycle graph initialDemand evs cfg →
  collected cfg.1 cfg.2 (length (admittedKeys evs)).
Proof.
  intros (evs' & Hsteps & ->).
  rewrite RecursionFacts.admittedKeys_app, length_app.
  apply (steps_collected _ _ _ Hsteps). simpl.
  repeat split; simpl; auto.
Qed.

End AnyGraphCollects.

End RecursionShapeFacts.

(* ===================================================================== *)
(** ** The graph of the lifecycle analysis (part_001, lines 147-315) *)

Module LifecycleFacts.
Import Recursion RecursionShape.

Lemma toolArgs_hasToolCall (toolName : string) (m : Message) :
  hasToolCall toolName m = true →
  is_Some (Lifecycle.toolArgs toolName m).
Proof.
  unfold hasToolCall, Lifecycle.toolArgs.
  induction (tool_calls m) as [|tool tools IH]; simpl; [discriminate|].
  destruct (String.eqb (name tool) toolName); simpl; [eauto|exact IH].
Qed.

(** A message is dropped by [filter(Boolean)] only when it has no call of
    the tool. *)
Lemma length_formatted (toolName : string) (l : list Message) :
  Forall (fun m => hasToolCall toolName m = true) l →
  length (omap (Lifecycle.toolArgs toolName) l) = length l.
Proof.
  induction 1 as [|m l Hm _ IH]; [reflexivity|].
  destruct (toolArgs_hasToolCall _ _ Hm) as [fields Hfields].
  cbn [omap list_omap]. rewrite Hfields. simpl. f_equal. exact IH.
Qed.

Lemma find_app_none {A} (p : A → bool) (l1 l2 : list A) :
  Forall (fun x => p x = false) l1 →
  find p (l1 ++ l2) = find p l2.
Proof.
  induction 1 as [|x l1 Hx _ IH]; [reflexivity|].
  simpl. rewrite Hx. exact IH.
Qed.

Lemma find_app_some {A} (p : A → bool) (l1 l2 : list A) (x : A) :
  find p l1 = Some x → find p (l1 ++ l2) = Some x.
Proof.
  induction l1 as [|y l1 IH]; simpl; [discriminate|].
  destruct (p y); [auto|exact IH].
Qed.

Lemma formattedResultsOf_first (toolName content : string)
    (before after : list Message) (results : list json) :
  Forall (fun m => hasToolCall toolName m = false) before →
  Lifecycle.formattedResultsOf toolName
    (before
     ++ mkMessage content [mkToolCall toolName [("results", JArr results)]]
     :: after)
  = JArr results.
Proof.
  intros Hbefore. unfold Lifecycle.formattedResultsOf.
  rewrite (find_app_none _ _ _ Hbefore).
  cbn [find hasToolCall existsb tool_calls name].
  rewrite String.eqb_refl. cbn [orb].
  unfold Lifecycle.toolArgs. cbn [find tool_calls name].
  rewrite String.eqb_refl. reflexivity.
Qed.

Section AnyGraph.

Variable graph : string → GraphOutcome → Prop.


(** X10.  [summarizeResults] takes the first message of each formatting
    stage in the whole history.  When the history the graph starts from
    already holds a [formatted_process_selectors] message, the summary
    reports the results of that message, whatever the run collected. *)
Theorem analysis_summary_reads_first_formatted (state : Lifecycle.State)
    (old : Message) (st : Store) (r : CallResult) :
  find (hasToolCall "formatted_process_selectors") (Lifecycle.messages state)
  = Some old →
  ∃ fields,
    Lifecycle.analysisSummary (Lifecycle.graphFrom state st r) = Some fields
    ∧ Js.lookup "processSelectors" fields
      = Some (Lifecycle.formattedResultsOf "formatted_process_selectors"
                [old]).
Proof.
  intros Hold.
  unfold Lifecycle.analysisSummary, Lifecycle.graphFrom.
  unfold Lifecycle.summarizeResults at 1.
  cbn [Lifecycle.applyUpdate Lifecycle.messages Lifecycle.new_messages].
  rewrite last_snoc.
  cbn [Lifecycle.toolArgs find tool_calls name String.eqb Ascii.eqb
       Bool.eqb args].
  eexists; split; [reflexivity|].
  cbn [Js.lookup find String.eqb Ascii.eqb Bool.eqb fst snd option_map].
  unfold Js.lookup. cbn [find fst String.eqb Ascii.eqb Bool.eqb option_map snd].
  f_equal. unfold Lifecycle.formattedResultsOf.
  cbn [Lifecycle.applyUpdate Lifecycle.messages Lifecycle.new_messages].
  rewrite <- !(assoc_L (++)).
  rewrite (find_app_some _ _ _ _ Hold).
  cbn [find]. apply List.find_some in Hold as [_ ->]. reflexivity.
Qed.

End AnyGraph.

Lemma twoInputs_lifecycle :
  lifecycle (fun demand o => o = twoInputs demand) "Al"
    (analyze twoInputs 20 "Al").2
    ((analyze twoInputs 20 "Al").1.1, Returned Success).
Proof.
  pose proof (RecursionFacts.analyze_lifecycle twoInputs 20 "Al") as H.
  destruct (analyze twoInputs 20 "Al") as [[st c] evs] eqn:Hrun.
  assert (Hc : c = Returned Success).
  { change c with (st, c, evs).1.2. rewrite <- Hrun.
    apply RecursionFacts.twoInputs_run. }
  subst c. exact H.
Qed.


(** The second run collects seven selectors more; its summary lists the one
    of the first run. *)
Lemma analysis_summary_reads_first_formatted_witness :
  length (processSelectors (analyze twoInputs 20 "Cu").1.1) = 7
  ∧ ∃ fields,
      Lifecycle.analysisSummary
        (Lifecycle.graphFrom secondRun (analyze twoInputs 20 "Cu").1.1
           Success)
      = Some fields
      ∧ Js.lookup "processSelectors" fields = Some (JArr [JObj []]).
Proof.
  split; [vm_compute; reflexivity|].
  refine (analysis_summary_reads_first_formatted secondRun
            (mkMessage "格式化了 1 个process_selector结果"
               [mkToolCall "formatted_process_selectors"
                  [("results", JArr [JObj []])]])
            (analyze twoInputs 20 "Cu").1.1 Success _).
  vm_compute. reflexivity.
Defined.

End LifecycleFacts.

(* ===================================================================== *)
(** ** The recursion for any number of new demands per graph run *)

Module BranchingFacts.
Import Recursion RecursionShape.

Section BudgetsK.

Variables K wc wi : nat.

Lemma weightBelowK_calls (depth : nat) :
  K * weightFromK K wc wi (depth + 1) ≤ weightBelowK K wc wi depth.
Proof.
  unfold weightFromK, MAX_RECURSION_DEPTH.
  destruct depth as [|[|[|depth]]]; simpl; nia.
Qed.

Lemma enter_budgetK (st : Store) (demand : string) (depth : nat) :
  totalWeight wc wi (enter st demand depth).2
  + budgetK K wc wi (enter st demand depth).1.2
  ≤ weightFromK K wc wi depth.
Proof.
  unfold enter, weightFromK.
  destruct (MAX_RECURSION_DEPTH <=? depth); [simpl; lia|].
  destruct (decide _); simpl; lia.
Qed.

Lemma enterAll_budgetK (batch : list Demand) (depth : nat) (st : Store) :
  totalWeight wc wi (enterAll st batch depth).2
  + sum_list_with (budgetK K wc wi) (enterAll st batch depth).1.2
  ≤ length batch * weightFromK K wc wi depth.
Proof.
  revert st; induction batch as [|d batch IH]; intros st; simpl; [lia|].
  pose proof (enter_budgetK st (demand_content d) depth) as H1.
  destruct (enter st (demand_content d) depth) as [[st1 c] evs1].
  specialize (IH st1).
  destruct (enterAll st1 batch depth) as [[st2 cs] evs2]. simpl in *.
  rewrite RecursionFacts.totalWeight_app. lia.
Qed.

Lemma processInBatches_budgetK (st : Store) (depth : nat)
    (pending : list Demand) :
  totalWeight wc wi (processInBatches st depth pending).2
  + budgetK K wc wi (processInBatches st depth pending).1.2
  ≤ length pending * weightFromK K wc wi (depth + 1).
Proof.
  destruct pending as [|d pending]; [simpl; lia|].
  unfold processInBatches.
  pose proof (enterAll_budgetK (take CONCURRENCY_LIMIT (d :: pending))
                (depth + 1) st) as H.
  destruct (enterAll st _ (depth + 1)) as [[st2 cs] evs2].
  cbn [fst snd budgetK] in *.
  pose proof (length_take (d :: pending) CONCURRENCY_LIMIT) as Htake.
  pose proof (length_drop (d :: pending) CONCURRENCY_LIMIT) as Hdrop.
  rewrite Hdrop. nia.
Qed.

Lemma resume_budgetK (st : Store) (depth : nat) (result : GraphResult) :
  length (demands result) ≤ K →
  totalWeight wc wi (resume st depth result).2
  + budgetK K wc wi (resume st depth result).1.2
  ≤ weightBelowK K wc wi depth.
Proof.
  intros HK. unfold resume.
  destruct (find (hasToolCall "workflow_restarter") (messages result));
    [|simpl; lia].
  destruct (0 <? length (demands result)); [|simpl; lia].
  match goal with |- context [processInBatches ?s ?d ?p] =>
    pose proof (processInBatches_budgetK s d p) as H end.
  pose proof (weightBelowK_calls depth). nia.
Qed.

Section AtMostK.

Variable graph : string → GraphOutcome → Prop.

(** Every graph run that resolves yields at most [K] new demands. *)
Hypothesis graph_K :
  ∀ demand result, graph demand (Resolved result) →
                   length (demands result) ≤ K.

Lemma step_budgetK cfg evs cfg' :
  step graph cfg evs cfg' →
  totalWeight wc wi evs + budgetK K wc wi cfg'.2 ≤ budgetK K wc wi cfg.2.
Proof.
  induction 1 as [st demand depth result Hg|st demand depth error Hg
                 |st depth running rest Hdone
                 |st st' depth before c c' after rest evs Hstep IH].
  - apply resume_budgetK. eauto.
  - simpl. lia.
  - pose proof (processInBatches_budgetK st depth rest). simpl in *. lia.
  - simpl in *. rewrite !sum_list_with_app. simpl. lia.
Qed.

Lemma steps_budgetK cfg evs cfg' :
  steps graph cfg evs cfg' →
  totalWeight wc wi evs + budgetK K wc wi cfg'.2 ≤ budgetK K wc wi cfg.2.
Proof.
  induction 1 as [cfg|cfg1 evs1 cfg2 evs2 cfg3 Hstep Hsteps IH]; [simpl; lia|].
  apply step_budgetK in Hstep. rewrite RecursionFacts.totalWeight_app. lia.
Qed.

End AtMostK.

End BudgetsK.

(** X11.  When every graph run that resolves yields at most [K] new demands,
    at most K + K² calls below the root are admitted (they reach the graph)
    and at most K + K² + K³ calls are issued below the root, in every run
    and for every order of the turns: the depth check closes the tree at
    depth 3 whatever the graph answers. *)
Theorem branching_bounded (K : nat) (graph : string → GraphOutcome → Prop)
    (initialDemand : string) (evs : list event) (cfg : Store * call) :
  (∀ demand result, graph demand (Resolved result) →
                    length (demands result) ≤ K) →
  lifecycle graph initialDemand evs cfg →
  childAdmissions evs ≤ K + K * K
  ∧ childCalls evs ≤ K + K * K + K * K * K.
Proof.
  intros HK (evs' & Hsteps & ->).
  pose proof (steps_budgetK K 0 1 graph HK _ _ _ Hsteps) as Hadm.
  pose proof (steps_budgetK K 1 0 graph HK _ _ _ Hsteps) as Hcalls.
  rewrite RecursionFacts.childAdmissions_app, RecursionFacts.childCalls_app.
  rewrite RecursionFacts.root_call_events.
  pose proof (RecursionFacts.childAdmissions_weight evs').
  pose proof (RecursionFacts.childCalls_weight evs').
  unfold childAdmissions at 1. unfold childCalls at 1.
  change (budgetK K 0 1 _) with (weightBelowK K 0 1 0) in Hadm at 2.
  change (budgetK K 1 0 _) with (weightBelowK K 1 0 0) in Hcalls at 2.
  unfold weightBelowK in Hadm, Hcalls. simpl length. split; nia.
Qed.

Lemma fourInputs_four (demand : string) (result : GraphResult) :
  Resolved result = fourInputs demand → length (demands result) ≤ 4.
Proof. intros [= ->]. simpl. lia. Qed.

Lemma branching_bounded_witness :
  childAdmissions (analyze fourInputs 100 "Al").2 ≤ 4 + 4 * 4
  ∧ childCalls (analyze fourInputs 100 "Al").2 ≤ 4 + 4 * 4 + 4 * 4 * 4.
Proof.
  exact (branching_bounded 4 _ "Al" _ _ fourInputs_four
           (RecursionFacts.analyze_lifecycle fourInputs 100 "Al")).
Defined.

(** The bounds are reached: four inputs each give 4 + 16 admitted calls and
    4 + 16 + 64 calls below the root. *)
Example fourInputs_run :
  childAdmissions (analyze fourInputs 100 "Al").2 = 20
  ∧ childCalls (analyze fourInputs 100 "Al").2 = 84
  ∧ (analyze fourInputs 100 "Al").1.2 = Returned Success.
Proof. vm_compute. repeat split; reflexivity. Qed.

End BranchingFacts.

(* ===================================================================== *)
(** ** Demands with the same canonical key (part_001, line 65) *)

Module CanonicalKeyFacts.
Import JsString CanonicalKey.

Lemma trimStart_toLowerCase (s : string) :
  trimStart (toLowerCase s) = toLowerCase (trimStart s).
Proof.
  induction s as [|c s IH]; [reflexivity|]. simpl.
  rewrite isWhiteSpace_toLowerCaseUnit.
  destruct (isWhiteSpace c); [exact IH|reflexivity].
Qed.

Lemma trimEnd_toLowerCase (s : string) :
  trimEnd (toLowerCase s) = toLowerCase (trimEnd s).
Proof.
  induction s as [|c s IH]; [reflexivity|]. simpl. rewrite IH.
  destruct (trimEnd s); simpl; [|reflexivity].
  rewrite isWhiteSpace_toLowerCaseUnit.
  destruct (isWhiteSpace c); reflexivity.
Qed.

Lemma trim_toLowerCase (s : string) :
  trim (toLowerCase s) = toLowerCase (trim s).
Proof. unfold trim. rewrite trimStart_toLowerCase. apply trimEnd_toLowerCase. Qed.

Lemma toLowerCase_app (s1 s2 : string) :
  toLowerCase (s1 +:+ s2) = toLowerCase s1 +:+ toLowerCase s2.
Proof. induction s1 as [|c s1 IH]; simpl; [reflexivity|]. rewrite IH. done. Qed.

Lemma trimStart_blank (ws s : string) :
  isBlank ws = true → trimStart (ws +:+ s) = trimStart s.
Proof.
  induction ws as [|c ws IH]; simpl; [reflexivity|].
  intros [Hc Hws]%andb_true_iff. rewrite Hc. auto.
Qed.

Lemma trimEnd_blank (ws : string) : isBlank ws = true → trimEnd ws = "".
Proof.
  induction ws as [|c ws IH]; simpl; [reflexivity|].
  intros [Hc Hws]%andb_true_iff. rewrite (IH Hws), Hc. reflexivity.
Qed.

Lemma trimEnd_app_blank (s ws : string) :
  isBlank ws = true → trimEnd (s +:+ ws) = trimEnd s.
Proof.
  intros Hws. induction s as [|c s IH]; simpl.
  - apply trimEnd_blank, Hws.
  - rewrite IH. reflexivity.
Qed.

Lemma trim_app_blank (s ws : string) :
  isBlank ws = true → trim (s +:+ ws) = trim s.
Proof.
  intros Hws. unfold trim. induction s as [|c s IH]; simpl.
  - clear -Hws. induction ws as [|c ws IH]; [reflexivity|]. simpl in *.
    apply andb_true_iff in Hws as [-> Hws]. auto.
  - destruct (isWhiteSpace c); [exact IH|].
    apply (trimEnd_app_blank (String c s)), Hws.
Qed.

Lemma demandHash_same_lower (T1 T2 : string) :
  toLowerCase T1 = toLowerCase T2 → demandHash T1 = demandHash T2.
Proof.
  intros H. rewrite !demandHash_unfold, <- !trim_toLowerCase, H. reflexivity.
Qed.

(** X12.  Two demands that differ only in the case of their letters and in
    white space around them have the same canonical key. *)
Theorem demandHash_ignores_case_and_padding (ws1 ws2 T1 T2 : string) :
  isBlank ws1 = true → isBlank ws2 = true →
  toLowerCase T1 = toLowerCase T2 →
  demandHash (ws1 +:+ T1 +:+ ws2) = demandHash T2.
Proof.
  intros H1 H2 Hlow. rewrite <- (demandHash_same_lower T1 T2 Hlow).
  rewrite !demandHash_unfold. f_equal. f_equal.
  unfold trim at 1. rewrite (trimStart_blank _ _ H1).
  apply (trim_app_blank T1 ws2 H2).
Qed.

Lemma demandHash_ignores_case_and_padding_witness :
  demandHash ("  " +:+ "Alumina PRODUCTION" +:+ " ")
  = demandHash "alumina production".
Proof.
  apply demandHash_ignores_case_and_padding; reflexivity.
Defined.

Lemma trimEnd_app_solid (p s : string) :
  p ≠ "" → endsWithWhiteSpace p = false →
  trimEnd (p +:+ s) = p +:+ trimEnd s.
Proof.
  induction p as [|c p IH]; [done|]. intros _ Hend.
  destruct p as [|c' p'].
  - clear IH. simpl in Hend.
    change (trimEnd (String c s) = String c (trimEnd s)).
    simpl. destruct (trimEnd s); [rewrite Hend|]; reflexivity.
  - assert (IH' := IH ltac:(discriminate) Hend).
    change (match trimEnd (String c' p' +:+ s) with
            | EmptyString =>
                if isWhiteSpace c then EmptyString else String c EmptyString
            | r => String c r
            end = String c (String c' p' +:+ trimEnd s)).
    rewrite IH'. reflexivity.
Qed.

Lemma prefix_app (n : nat) (s1 s2 : string) :
  n ≤ String.length s1 →
  String.substring 0 n (s1 +:+ s2) = String.substring 0 n s1.
Proof.
  revert s1; induction n as [|n IH]; intros [|c s1] Hlen; simpl in *;
    try lia.
  - destruct s2; reflexivity.
  - reflexivity.
  - f_equal. apply IH. lia.
Qed.

(** X13.  For demands of Latin-1 characters (every code unit below 256,
    which is what a [string] holds here), what follows the first 100 code
    units does not reach the key: a demand that continues a text of at
    least 100 code units without white space at its ends has the key of
    that text. *)
Theorem demandHash_ignores_beyond_100 (p s : string) :
  100 ≤ String.length p →
  startsWithWhiteSpace p = false → endsWithWhiteSpace p = false →
  demandHash (p +:+ s) = demandHash p.
Proof.
  intros Hlen Hstart Hend.
  assert (Hp : p ≠ "") by (intros ->; simpl in Hlen; lia).
  rewrite !demandHash_unfold. unfold trim.
  rewrite (trimStart_fixed p Hstart), (trimEnd_fixed p Hend).
  rewrite (trimStart_fixed (p +:+ s)).
  - rewrite (trimEnd_app_solid p s Hp Hend), toLowerCase_app.
    apply prefix_app. rewrite toLowerCase_length. exact Hlen.
  - destruct p; [done|exact Hstart].
Qed.

Lemma demandHash_ignores_beyond_100_witness :
  demandHash (hundred_units +:+ " (primary, Guinea)")
  = demandHash hundred_units.
Proof.
  apply demandHash_ignores_beyond_100; [vm_compute; lia|reflexivity..].
Defined.

End CanonicalKeyFacts.

(* ===================================================================== *)
(** ** More on the stages of the LCA key graph (lcaKeyAgent.ts) *)

Module KeyAgentStageFacts.
Import KeyAgent.

(** *** The grouping of the grades *)

(** The groups are well formed: no key twice, no empty group, and every
    grade in the group of its own [process_UUID]. *)
Local Notation "'wellGrouped'" :=
  (fun groups : list (string * list json) =>
     NoDup (Js.keys groups)
     ∧ Forall (fun e : string * list json =>
                 e.2 ≠ []
                 ∧ Forall (fun g =>
                             Js.toPropertyKey
                               (Js.get "process_UUID" (Some g)) = e.1)
                          e.2)
              groups).

Lemma push_concat (k : string) (g : json) (acc : list (string * list json)) :
  concat (map snd (Js.set k (match Js.lookup k acc with
                             | Some grades => grades
                             | None => []
                             end ++ [g]) acc))
  ≡ₚ concat (map snd acc) ++ [g].
Proof.
  induction acc as [|[k0 v0] acc IH]; simpl; [reflexivity|].
  destruct (String.eqb k0 k) eqn:Hk; simpl.
  - rewrite <- !(assoc_L (++)). apply Permutation_app_head.
    apply Permutation_app_comm.
  - rewrite IH, (assoc_L (++)). reflexivity.
Qed.

Lemma push_wellGrouped (g : json) (acc : list (string * list json)) :
  wellGrouped acc →
  wellGrouped
    (Js.set (Js.toPropertyKey (Js.get "process_UUID" (Some g)))
       (match Js.lookup (Js.toPropertyKey (Js.get "process_UUID" (Some g)))
                acc with
        | Some grades => grades
        | None => []
        end ++ [g]) acc).
Proof.
  intros [Hnd Hall]. split; [apply NoDup_keys_set, Hnd|].
  apply Forall_forall. intros [k' v'] Hin.
  apply elem_of_set in Hin as [[-> ->]|Hin].
  - simpl. split; [intros H; apply app_eq_nil in H as [_ H]; discriminate|].
    apply Forall_app. split; [|constructor; [reflexivity|constructor]].
    destruct (Js.lookup _ acc) as [grades|] eqn:Hlook; [|constructor].
    apply lookup_elem_of in Hlook.
    rewrite Forall_forall in Hall. apply (Hall _ Hlook).
  - rewrite Forall_forall in Hall. apply (Hall _ Hin).
Qed.

(** The key under which a grade is filed *)
Local Notation "'keyOf'" :=
  (fun g : json => Js.toPropertyKey (Js.get "process_UUID" (Some g))).

(** One pass of the loop, when every group made so far has a key of its
    own: a grade whose key names a member of [Object.prototype] throws, any
    other grade is appended to the group of its key. *)
Lemma addGrade_step (acc : list (string * list json)) (m : Message) :
  Forall (fun e : string * list json => Js.inherited e.1 = false) acc →
  match firstArgs m with
  | None => addGrade acc m = Ret acc
  | Some g =>
      if Js.inherited (keyOf g)
      then ∃ e, addGrade acc m = Throw e
      else addGrade acc m
           = Ret (Js.set (keyOf g)
                    (match Js.lookup (keyOf g) acc with
                     | Some grades => grades
                     | None => []
                     end ++ [g]) acc)
  end.
Proof.
  intros Hown. unfold addGrade.
  destruct (firstArgs m) as [g|]; [|reflexivity]. cbv zeta.
  destruct (Js.lookup _ acc) as [grades|] eqn:Hlook.
  - apply lookup_elem_of in Hlook. rewrite Forall_forall in Hown.
    apply Hown in Hlook. cbn [fst] in Hlook. rewrite Hlook. reflexivity.
  - destruct (Js.inherited _); [eexists|]; reflexivity.
Qed.

Lemma groupGrades_from (l : list Message) (acc : list (string * list json)) :
  wellGrouped acc →
  Forall (fun e : string * list json => Js.inherited e.1 = false) acc →
  match addGrades acc l with
  | Ret groups =>
      Forall (fun g => Js.inherited (keyOf g) = false) (omap firstArgs l)
      ∧ wellGrouped groups
      ∧ concat (map snd groups) ≡ₚ concat (map snd acc) ++ omap firstArgs l
  | Throw _ =>
      Exists (fun g => Js.inherited (keyOf g) = true) (omap firstArgs l)
  end.
Proof.
  revert acc; induction l as [|m l IH]; intros acc Hacc Hown;
    cbn [addGrades omap list_omap].
  - split; [constructor|]. split; [exact Hacc|].
    rewrite app_nil_r. reflexivity.
  - pose proof (addGrade_step acc m Hown) as Hstep.
    destruct (firstArgs m) as [g|] eqn:Hg.
    + destruct (Js.inherited (keyOf g)) eqn:Hinh.
      * destruct Hstep as [e ->]. simpl. left. exact Hinh.
      * rewrite Hstep. simpl.
        match goal with |- context [addGrades ?acc' l] =>
          specialize (IH acc' (push_wellGrouped g acc Hacc)) end.
        destruct (addGrades _ l) as [groups|e].
        -- destruct IH as (Hall & Hwell & Hperm).
           { apply Forall_forall. intros [k v] Hin.
             apply elem_of_set in Hin as [[-> ->]|Hin]; [exact Hinh|].
             rewrite Forall_forall in Hown. apply (Hown _ Hin). }
           split; [constructor; assumption|]. split; [exact Hwell|].
           rewrite Hperm, push_concat, <- (assoc_L (++)). reflexivity.
        -- right. apply IH.
           apply Forall_forall. intros [k v] Hin.
           apply elem_of_set in Hin as [[-> ->]|Hin]; [exact Hinh|].
           rewrite Forall_forall in Hown. apply (Hown _ Hin).
    + rewrite Hstep. simpl. apply IH; assumption.
Qed.


(** *** One call of the oracle per process *)

Lemma summarizeEach_calls (oracle : Oracle)
    (entries : list (string * list json)) :
  Forall (fun e : string * list json => e.2 ≠ []) entries →
  ∀ n, ∃ summaries,
    summarizeEach oracle entries n = (Ret summaries, n + length entries)
    ∧ length summaries ≤ length entries
    ∧ Forall (fun summary =>
                ∃ i e, n ≤ i < n + length entries ∧ e ∈ entries
                       ∧ oracle i (summaryRequest e.1 e.2) = Ret summary)
             summaries
    ∧ ((∀ i request, ∃ r, oracle i request = Ret r) →
       length summaries = length entries).
Proof.
  induction 1 as [|[processUUID grades] entries Hne _ IH]; intros n.
  - exists []. simpl. rewrite Nat.add_0_r. repeat split; auto.
  - simpl in Hne. cbn [summarizeEach].
    destruct (length grades =? 0) eqn:Hlen.
    { apply Nat.eqb_eq in Hlen. destruct grades; [done|discriminate]. }
    destruct (IH (S n)) as (rest & Hrun & Hle & Hfrom & Htotal).
    assert (Hrest : Forall (fun summary =>
                ∃ i e, n ≤ i < n + length ((processUUID, grades) :: entries)
                       ∧ e ∈ (processUUID, grades) :: entries
                       ∧ oracle i (summaryRequest e.1 e.2) = Ret summary)
             rest).
    { eapply Forall_impl; [exact Hfrom|].
      intros summary (i & e & Hi & He & Hanswer). exists i, e.
      split; [simpl; lia|]. split; [right; exact He|exact Hanswer]. }
    unfold mbind, Async_bind, tryCatchAsync, invoke, mret, Async_ret.
    destruct (oracle n (summaryRequest processUUID grades)) as [r|e] eqn:Hr;
      unfold mbind, Async_bind in Hrun |- *; rewrite Hrun.
    + exists (r :: rest). split; [simpl; f_equal; lia|].
      split; [simpl; lia|]. split.
      * constructor; [|exact Hrest].
        exists n, (processUUID, grades).
        split; [simpl; lia|]. split; [left|exact Hr].
      * intros Hall. simpl. rewrite (Htotal Hall). reflexivity.
    + exists rest. split; [simpl; f_equal; lia|].
      split; [simpl; lia|]. split; [exact Hrest|].
      intros Hall. destruct (Hall n (summaryRequest processUUID grades))
        as [r Hr']. congruence.
Qed.



(** A history in which a grade names [constructor] as its process: the
    stage throws and asks nothing. *)
Example summarize_technical_grades_throws :
  summarize_technical_grades flaky
    (stateOf [toolMessage "technical_grader"
                [("process_UUID", JStr "constructor");
                 ("technical_representativeness", JStr "2")]]) 0
  = (Throw (typeError "processGrades[processUUID].push is not a function"),
     0).
Proof. reflexivity. Qed.

(** *** One final summary per process *)

Lemma addTechnical_keys allProcesses summary :
  NoDup (Js.keys allProcesses) →
  NoDup (Js.keys (addTechnical allProcesses summary)).
Proof.
  intros H. unfold addTechnical.
  destruct (_ && _); [apply NoDup_keys_set, H|exact H].
Qed.

Lemma addSpatial_keys allProcesses summary :
  NoDup (Js.keys allProcesses) →
  NoDup (Js.keys (addSpatial allProcesses summary)).
Proof.
  intros H. unfold addSpatial.
  destruct (_ && _); [apply NoDup_keys_set, H|exact H].
Qed.

Lemma addTime_keys allProcesses summary :
  NoDup (Js.keys allProcesses) →
  NoDup (Js.keys (addTime allProcesses summary)).
Proof.
  intros H. unfold addTime.
  destruct (_ && _); [apply NoDup_keys_set, H|exact H].
Qed.

Lemma collectGrades_keys (history : list Message) :
  NoDup (Js.keys (collectGrades history)).
Proof.
  unfold collectGrades.
  apply (foldl_invariant (fun a => NoDup (Js.keys a)) (fun _ => True));
    [|intros; apply addTime_keys; assumption|apply Forall_true; done].
  apply (foldl_invariant (fun a => NoDup (Js.keys a)) (fun _ => True));
    [|intros; apply addSpatial_keys; assumption|apply Forall_true; done].
  apply (foldl_invariant (fun a => NoDup (Js.keys a)) (fun _ => True));
    [|intros; apply addTechnical_keys; assumption|apply Forall_true; done].
  constructor.
Qed.

Lemma materialize_key (key : string) (processData : ProcessData)
    (summary : Message) :
  materialize (key, processData) = Some summary →
  Js.get "process_UUID" (firstArgs summary) = Some (JStr key).
Proof.
  unfold materialize.
  destruct (_ || _); [discriminate|].
  destruct (technical_grade processData); [|discriminate].
  destruct (spatial_grade processData); [|discriminate].
  destruct (time_grade processData); [|discriminate].
  intros [= <-]. reflexivity.
Qed.

Lemma materialized_keys (entries : list (string * ProcessData)) :
  map (fun summary => Js.get "process_UUID" (firstArgs summary))
      (omap materialize entries)
  = map (fun e : string * ProcessData => Some (JStr e.1))
        (List.filter (fun e => bool_decide (is_Some (materialize e)))
           entries).
Proof.
  induction entries as [|[key processData] entries IH]; [reflexivity|].
  cbn [omap list_omap List.filter].
  destruct (materialize (key, processData)) as [summary|] eqn:Hm.
  - rewrite bool_decide_eq_true_2 by eauto. cbn [map]. f_equal; [|exact IH].
    apply (materialize_key _ _ _ Hm).
  - rewrite bool_decide_eq_false_2 by (intros [? ?]; discriminate).
    exact IH.
Qed.

(** X16.  [final_summarizer] returns at most one [final_summary] per
    process: no two of the messages it returns name the same
    [process_UUID], and each names a process of the summaries in the
    history. *)
Theorem final_summarizer_one_per_process (state : State) :
  NoDup (map (fun summary => Js.get "process_UUID" (firstArgs summary))
             (new_messages (final_summarizer state)))
  ∧ Forall (fun summary =>
              ∃ key, Js.get "process_UUID" (firstArgs summary)
                     = Some (JStr key)
                     ∧ key ∈ Js.keys (collectGrades (messages state)))
           (new_messages (final_summarizer state)).
Proof.
  unfold final_summarizer. cbn [new_messages]. split.
  - rewrite materialized_keys.
    pose proof (collectGrades_keys (messages state)) as Hnd.
    induction (collectGrades (messages state)) as [|[k d] entries IH];
      [constructor|].
    apply NoDup_cons in Hnd as [Hnotin Hnd]. cbn [List.filter].
    destruct (bool_decide _); [|exact (IH Hnd)].
    cbn [map]. apply NoDup_cons. split; [|exact (IH Hnd)].
    intros Hin. apply Hnotin. clear -Hin.
    apply list_elem_of_fmap in Hin as ([k' d'] & [= ->] & Hin).
    apply list_elem_of_In, List.filter_In in Hin as [Hin _].
    apply list_elem_of_In in Hin.
    unfold Js.keys. apply list_elem_of_fmap. exists (k', d'). auto.
  - apply Forall_forall. intros summary Hin.
    apply list_elem_of_omap in Hin as ([key processData] & Hin & Hm).
    exists key. split; [apply (materialize_key _ _ _ Hm)|].
    unfold Js.keys. apply list_elem_of_fmap. exists (key, processData). auto.
Qed.

End KeyAgentStageFacts.

(* ===================================================================== *)
(** ** The restart of the queue graph (part_002) *)

Module QueueGraphFacts.
Import QueueAgent QueueGraph.

(** One pass of [demand_extractor] over a queued demand that is not [null] *)
Lemma demand_extractor_queue (oracle : Oracle) (state : State) (n : nat) :
  has_parallel_demands state = true →
  current_demand_index state < length (demands state) →
  Forall (fun demand => demand ≠ JNull) (demands state) →
  demand_extractor oracle state n
  = match oracle n (extractorRequest
                      (Js.toPropertyKey
                         (Js.get "content"
                            (demands state !! current_demand_index state))))
    with
    | Ret response =>
        (Ret (mkUpdate [response] None None None
                (Some (current_demand_index state + 1))
                (Some (current_demand_index state + 1
                       <? length (demands state)))), S n)
    | Throw e => (Throw e, S n)
    end.
Proof.
  intros Hflag Hidx Hqueue. unfold demand_extractor. rewrite Hflag.
  assert (Hpos : (0 <? length (demands state)) = true)
    by (apply Nat.ltb_lt; lia).
  assert (Hlt : (current_demand_index state <? length (demands state)) = true)
    by (apply Nat.ltb_lt; lia).
  rewrite Hpos, Hlt. simpl.
  assert (Hnull : demands state !! current_demand_index state ≠ Some JNull).
  { intros Hnull. rewrite Forall_forall in Hqueue.
    apply (Hqueue JNull); [|reflexivity].
    eapply list_elem_of_lookup_2. exact Hnull. }
  unfold mbind, Async_bind, invoke, mret, Async_ret.
  destruct (demands state !! current_demand_index state) as [[]|];
    try (destruct (oracle n _); reflexivity).
  contradiction Hnull. reflexivity.
Qed.

(** The self-loop of [demand_extractor] over the [S k] demands that are
    still queued: one request per demand, in the order of the queue. *)
Lemma extractDemands_queue (oracle : Oracle) (k : nat) :
  (∀ i request, ∃ r, oracle i request = Ret r) →
  ∀ (fuel : nat) (state : State) (n : nat),
    has_parallel_demands state = true →
    current_demand_index state + S k = length (demands state) →
    Forall (fun demand => demand ≠ JNull) (demands state) →
    S k ≤ fuel →
    ∃ responses,
      length responses = S k
      ∧ extractDemands fuel oracle state n
        = (Ret (mkState (messages state ++ responses) (selected_flow state)
                  (upstream_process_info state) (upstream_flow_info state)
                  (iteration_count state) (demands state)
                  (length (demands state)) false),
           n + S k)
      ∧ ∀ i r,
          responses !! i = Some r →
          oracle (n + i)
            (extractorRequest
               (Js.toPropertyKey
                  (Js.get "content"
                     (demands state !! (current_demand_index state + i)))))
          = Ret r.
Proof.
  intros Htotal. induction k as [|k IH];
    intros fuel state n Hflag Hidx Hqueue Hfuel;
    (destruct fuel as [|fuel]; [lia|]);
    pose proof (demand_extractor_queue oracle state n Hflag ltac:(lia) Hqueue)
      as Hstage;
    match type of Hstage with context [oracle n ?request] =>
      destruct (Htotal n request) as [response Hresponse] end;
    rewrite Hresponse in Hstage;
    cbn [extractDemands]; unfold mbind, Async_bind at 1; rewrite Hstage;
    match goal with |- context [applyUpdate state ?u] =>
      set (state' := applyUpdate state u) end;
    assert (Hmessages : messages state' = messages state ++ [response])
      by reflexivity;
    assert (Hdemands : demands state' = demands state) by reflexivity;
    assert (Hindex : current_demand_index state'
                     = current_demand_index state + 1) by reflexivity;
    assert (Hflag' : has_parallel_demands state'
                     = (current_demand_index state + 1
                        <? length (demands state))) by reflexivity.
  - assert (Hlast : (current_demand_index state + 1
                     <? length (demands state)) = false)
      by (apply Nat.ltb_ge; lia).
    assert (Hroute : shouldProcessNextDemand state' = "normal_flow").
    { unfold shouldProcessNextDemand. rewrite Hflag', Hlast. reflexivity. }
    rewrite Hroute. simpl. exists [response].
    split; [reflexivity|]. split.
    + unfold mret, Async_ret. f_equal; [|lia]. f_equal.
      subst state'. unfold applyUpdate. simpl. rewrite Hlast.
      f_equal. lia.
    + intros [|i] r [=]. subst r. rewrite !Nat.add_0_r. exact Hresponse.
  - assert (Hmore : (current_demand_index state + 1
                     <? length (demands state)) = true)
      by (apply Nat.ltb_lt; lia).
    assert (Hroute : shouldProcessNextDemand state' = "process_next_demand").
    { unfold shouldProcessNextDemand. rewrite Hflag', Hdemands, Hindex, Hmore.
      replace (0 <? length (demands state))
        with true by (symmetry; apply Nat.ltb_lt; lia).
      reflexivity. }
    rewrite Hroute. simpl.
    destruct (IH fuel state' (S n)) as (responses & Hlen & Hrun & Hasked).
    + rewrite Hflag'. exact Hmore.
    + rewrite Hdemands, Hindex. lia.
    + rewrite Hdemands. exact Hqueue.
    + lia.
    + exists (response :: responses). split; [simpl; lia|]. split.
      * rewrite Hrun, Hmessages, Hdemands, <- (assoc_L (++)).
        f_equal. lia.
      * intros [|i] r Hr.
        -- injection Hr as <-. rewrite !Nat.add_0_r. exact Hresponse.
        -- specialize (Hasked i r Hr).
           rewrite Hdemands, Hindex in Hasked.
           replace (n + S i) with (S n + i) by lia.
           replace (current_demand_index state + S i)
             with (current_demand_index state + 1 + i) by lia.
           exact Hasked.
Qed.

Lemma demandMessage_content (item d : json) :
  demandMessage item = Ret d →
  Js.get "content" (Some d) = Js.get "new_demand" (Some item).
Proof.
  destruct item as [|b|z|s|items|fields]; simpl;
    try discriminate; try (intros [= <-]; reflexivity).
  intros [= <-].
  destruct (Js.lookup "new_demand" fields);
    destruct (Js.lookup "flow_name" fields);
    destruct (Js.lookup "flow_UUID" fields); reflexivity.
Qed.

Lemma demandMessages_items (items : list json) :
  Forall (fun item => item ≠ JNull) items →
  ∃ demands,
    demandMessages items = Ret demands
    ∧ length demands = length items
    ∧ Forall (fun demand => demand ≠ JNull) demands
    ∧ ∀ i item, items !! i = Some item →
        Js.get "content" (demands !! i) = Js.get "new_demand" (Some item).
Proof.
  induction 1
    as [|item items Hitem _ (demands & Hrun & Hlen & Hqueue & Hcontent)].
  - exists []. repeat split; auto. intros i item [=].
  - assert (∃ d, demandMessage item = Ret d ∧ d ≠ JNull) as (d & Hd & Hobj)
      by (destruct item; simpl; eauto; done).
    exists (d :: demands). simpl. rewrite Hd, Hrun.
    split; [reflexivity|]. split; [simpl; lia|].
    split; [constructor; assumption|].
    intros [|i] item' Hlook; simpl in *.
    + injection Hlook as <-. apply (demandMessage_content _ _ Hd).
    + apply (Hcontent i item' Hlook).
Qed.


Lemma twoNewDemands_total (i : nat) (request : Request) :
  ∃ r, twoNewDemands i request = Ret r.
Proof. unfold twoNewDemands. destruct (String.eqb _ _); eauto. Qed.


(** X18.  The restart never ends the run.  When [workflow_restarter] gets no
    new demand, it clears the queue and the edge to [demand_extractor] is
    taken all the same: the extractor takes its query from the last message
    of the history, which is the answer of the restarter itself, and the
    routing then goes on to [title_matcher]. *)
Theorem restart_without_new_demand (oracle : Oracle) (state : State)
    (n fuel : nat) (response : Message) :
  oracle n (restarterRequest state) = Ret response →
  Js.isZero (Js.length (newDemandsOf response)) = true →
  restart (S fuel) oracle state n
  = match oracle (S n) (extractorRequest (content response)) with
    | Ret extraction =>
        (Ret (mkState (messages state ++ [response; extraction])
                (selected_flow state) (upstream_process_info state)
                (upstream_flow_info state) (iteration_count state + 1)%Z
                [] 0 false),
         S (S n))
    | Throw e => (Throw e, S (S n))
    end
  ∧ (∀ extraction,
       oracle (S n) (extractorRequest (content response)) = Ret extraction →
       nextNode "demand_extractor"
         (mkState (messages state ++ [response; extraction])
            (selected_flow state) (upstream_process_info state)
            (upstream_flow_info state) (iteration_count state + 1)%Z
            [] 0 false)
       = Some "title_matcher").
Proof.
  intros Hresponse Hzero. split; [|reflexivity].
  unfold restart, workflow_restarter, mbind, Async_bind, invoke.
  rewrite Hresponse, Hzero. unfold mret, Async_ret.
  match goal with |- context [applyUpdate state ?u] =>
    set (state' := applyUpdate state u) end.
  assert (Hflag : has_parallel_demands state' = false) by reflexivity.
  assert (Hlast : last (messages state') = Some response)
    by apply last_snoc.
  assert (Hstage : demand_extractor oracle state' (S n)
                   = match oracle (S n) (extractorRequest (content response))
                     with
                     | Ret extraction =>
                         (Ret (mkUpdate [extraction] None None None None
                                 None), S (S n))
                     | Throw e => (Throw e, S (S n))
                     end).
  { unfold demand_extractor. rewrite Hflag, Hlast. cbn [andb].
    unfold mbind, Async_bind, invoke, mret, Async_ret.
    destruct (oracle (S n) _); reflexivity. }
  cbn [extractDemands]. unfold mbind, Async_bind. rewrite Hstage.
  destruct (oracle (S n) (extractorRequest (content response)))
    as [extraction|e]; [|reflexivity].
  unfold mret, Async_ret. subst state'. simpl.
  unfold applyUpdate. simpl.
  rewrite <- (assoc_L (++)). reflexivity.
Qed.

Lemma restart_without_new_demand_witness :
  restart 1 noNewDemand (queueStateOf [extracted]) 0
  = match noNewDemand 1 (extractorRequest "no further flows") with
    | Ret extraction =>
        (Ret (mkState
                ([extracted]
                 ++ [mkMessage "no further flows"
                       [mkToolCall "workflow_restarter"
                          [("new_demands", JArr [])]];
                     extraction])
                None None None (0 + 1)%Z [] 0 false),
         2)
    | Throw e => (Throw e, 2)
    end
  ∧ (∀ extraction,
       noNewDemand 1 (extractorRequest "no further flows") = Ret extraction →
       nextNode "demand_extractor"
         (mkState
            ([extracted]
             ++ [mkMessage "no further flows"
                   [mkToolCall "workflow_restarter"
                      [("new_demands", JArr [])]];
                 extraction])
            None None None (0 + 1)%Z [] 0 false)
       = Some "title_matcher").
Proof.
  apply (restart_without_new_demand noNewDemand (queueStateOf [extracted])
           0 0); reflexivity.
Defined.

(* --------------------------------------------------------------------- *)
(** *** The three routings after a judgement *)

Lemma stageCount_later (toolName : string) (state : State)
    (more : list Message) :
  stageCount toolName state ≤ stageCount toolName (later state more).
Proof.
  unfold stageCount, later. simpl.
  rewrite List.filter_app, length_app. lia.
Qed.

Lemma find_later (toolName : string) (state : State) (more : list Message)
    (m : Message) :
  find (hasToolCall toolName) (messages state) = Some m →
  find (hasToolCall toolName) (messages (later state more)) = Some m.
Proof. intros H. simpl. apply LifecycleFacts.find_app_some, H. Qed.

Ltac within_cap :=
  repeat match goal with
         | |- context [10 <? ?count] =>
             replace (10 <? count) with false
               by (symmetry; apply Nat.ltb_ge; lia)
         end.

(** X19.  Each of the three routings reads the first message of its stage in
    the history.  Once the history holds such a message, nothing that is
    appended later changes where the routing goes, until the cap on the
    number of iterations is passed: a later judgement of the same stage is
    not looked at. *)
Theorem routing_keeps_first_judgement (state : State)
    (more : list Message) :
  (is_Some (find (hasToolCall "boundary_judger") (messages state)) →
   stageCount "demand_extractor" (later state more) ≤ 10 →
   shouldContinueBoundaryAnalysis (later state more)
   = shouldContinueBoundaryAnalysis state)
  ∧ (is_Some (find (hasToolCall "flow_judger") (messages state)) →
     stageCount "flow_judger" (later state more) ≤ 10 →
     shouldContinueFlowJudger (later state more)
     = shouldContinueFlowJudger state)
  ∧ (is_Some (find (hasToolCall "flow_filter") (messages state)) →
     stageCount "flow_filter" (later state more) ≤ 10 →
     shouldContinueFlowAnalysis (later state more)
     = shouldContinueFlowAnalysis state).
Proof.
  split; [|split]; intros [m Hm] Hcap.
  - pose proof (stageCount_later "demand_extractor" state more) as Hle.
    unfold shouldContinueBoundaryAnalysis, iterationCount.
    fold (stageCount "demand_extractor" (later state more)).
    fold (stageCount "demand_extractor" state).
    within_cap.
    rewrite (find_later _ _ more _ Hm), Hm. reflexivity.
  - pose proof (stageCount_later "flow_judger" state more) as Hle.
    unfold shouldContinueFlowJudger.
    fold (stageCount "flow_judger" (later state more)).
    fold (stageCount "flow_judger" state).
    within_cap.
    rewrite (find_later _ _ more _ Hm), Hm. reflexivity.
  - pose proof (stageCount_later "flow_filter" state more) as Hle.
    unfold shouldContinueFlowAnalysis.
    fold (stageCount "flow_filter" (later state more)).
    fold (stageCount "flow_filter" state).
    within_cap.
    rewrite (find_later _ _ more _ Hm), Hm. reflexivity.
Qed.

(** The analysis went on after a first judgement that said No; a second
    judgement says Yes, and the routing still continues. *)
Lemma routing_keeps_first_judgement_witness :
  shouldContinueBoundaryAnalysis
    (later judgedTwice
       [extracted;
        toolMessage "boundary_judger" [("whether_reach_cradle", JStr "Yes")]])
  = shouldContinueBoundaryAnalysis judgedTwice.
Proof.
  apply (proj1 (routing_keeps_first_judgement judgedTwice _)).
  - eexists. reflexivity.
  - vm_compute. lia.
Defined.

Example judgedTwice_continues :
  shouldContinueBoundaryAnalysis
    (later judgedTwice
       [extracted;
        toolMessage "boundary_judger" [("whether_reach_cradle", JStr "Yes")]])
  = "continue_analysis".
Proof. reflexivity. Qed.

(** X20.  The conditional edges are closed and fail towards the end: every
    label a routing returns is a label of its edge, and the three routings
    after a judgement lead to [__end__] whenever the history holds no
    message of their stage or more than 10 messages of the stage they
    count. *)
Theorem conditional_edges_closed (state : State) :
  (∀ node, is_Some (Js.lookup node conditionalEdges) →
           is_Some (nextNode node state))
  ∧ (find (hasToolCall "boundary_judger") (messages state) = None
     ∨ 10 < stageCount "demand_extractor" state →
     nextNode "boundary_judger" state = Some "__end__")
  ∧ (find (hasToolCall "flow_judger") (messages state) = None
     ∨ 10 < stageCount "flow_judger" state →
     nextNode "flow_judger" state = Some "__end__")
  ∧ (find (hasToolCall "flow_filter") (messages state) = None
     ∨ 10 < stageCount "flow_filter" state →
     nextNode "flow_filter" state = Some "__end__").
Proof.
  split; [|split; [|split]].
  - intros node [edge Hedge]. unfold nextNode. rewrite Hedge.
    unfold conditionalEdges in Hedge. simpl in Hedge.
    repeat match type of Hedge with
           | (if ?b then _ else _) = _ => destruct b
           end;
      try discriminate; injection Hedge as <-.
    + unfold shouldProcessNextDemand.
      destruct (_ && _); [destruct (_ <? _)|]; eexists; reflexivity.
    + unfold shouldContinueBoundaryAnalysis.
      destruct (10 <? _); [eexists; reflexivity|].
      destruct (find _ _); [|eexists; reflexivity].
      destruct (Js.isStr _ _); eexists; reflexivity.
    + unfold shouldContinueFlowJudger.
      destruct (10 <? _); [eexists; reflexivity|].
      destruct (find _ _); [|eexists; reflexivity].
      destruct (_ || _); eexists; reflexivity.
    + unfold shouldContinueFlowAnalysis.
      destruct (10 <? _); [eexists; reflexivity|].
      destruct (find _ _); [|eexists; reflexivity].
      destruct (_ || _); eexists; reflexivity.
  - intros H. unfold nextNode. simpl.
    unfold shouldContinueBoundaryAnalysis, iterationCount.
    fold (stageCount "demand_extractor" state).
    destruct (10 <? stageCount "demand_extractor" state) eqn:Hcap;
      [reflexivity|].
    destruct H as [->|H]; [reflexivity|]. apply Nat.ltb_ge in Hcap. lia.
  - intros H. unfold nextNode. simpl. unfold shouldContinueFlowJudger.
    fold (stageCount "flow_judger" state).
    destruct (10 <? stageCount "flow_judger" state) eqn:Hcap;
      [reflexivity|].
    destruct H as [->|H]; [reflexivity|]. apply Nat.ltb_ge in Hcap. lia.
  - intros H. unfold nextNode. simpl. unfold shouldContinueFlowAnalysis.
    fold (stageCount "flow_filter" state).
    destruct (10 <? stageCount "flow_filter" state) eqn:Hcap;
      [reflexivity|].
    destruct H as [->|H]; [reflexivity|]. apply Nat.ltb_ge in Hcap. lia.
Qed.

Lemma conditional_edges_closed_witness :
  nextNode "flow_filter" (queueStateOf [extracted]) = Some "__end__".
Proof.
  apply (proj2 (proj2 (proj2 (conditional_edges_closed
                                (queueStateOf [extracted]))))).
  left. reflexivity.
Defined.

End QueueGraphFacts.

(* ===================================================================== *)
(** ** What the later stages of the queue graph are asked (part_002) *)

Module QueueStagesFacts.
Import QueueAgent QueueGraph QueueStages.

Lemma analystOutput_app (l more : list Message) (i : nat) :
  i < length l → analystOutput (l ++ more) i = analystOutput l i.
Proof.
  intros Hi. unfold analystOutput. rewrite (lookup_app_l l more i Hi).
  reflexivity.
Qed.

(** X21.  In a run that passes through the flow stages more than once, the
    stages are asked about the first pass every time.  [flow_judger] takes
    the first three [flow_analyst] messages of the history, [flow_filter]
    the first [flow_judger] message, and [workflow_restarter] the first
    [flow_filter] and the first [demand_extractor] message: once the
    history holds them, the request of each stage stays the same whatever
    later passes append. *)
Theorem requests_keep_first_outputs (state : State) (more : list Message) :
  (3 ≤ stageCount "flow_analyst" state →
   judgerRequest (later state more) = judgerRequest state)
  ∧ (is_Some (find (hasToolCall "flow_judger") (messages state)) →
     filterRequest (later state more) = filterRequest state)
  ∧ (is_Some (find (hasToolCall "flow_filter") (messages state)) →
     is_Some (find (hasToolCall "demand_extractor") (messages state)) →
     restarterRequest (later state more) = restarterRequest state).
Proof.
  split; [|split].
  - unfold stageCount. intros Hthree. unfold judgerRequest.
    cbn [later applyUpdate messages new_messages].
    rewrite List.filter_app, !analystOutput_app by lia. reflexivity.
  - intros [m Hm]. unfold filterRequest.
    rewrite (QueueGraphFacts.find_later _ _ more _ Hm), Hm. reflexivity.
  - intros [m Hm] [m' Hm']. unfold restarterRequest.
    rewrite (QueueGraphFacts.find_later _ _ more _ Hm), Hm.
    rewrite (QueueGraphFacts.find_later _ _ more _ Hm'), Hm'. reflexivity.
Qed.

Lemma requests_keep_first_outputs_witness :
  judgerRequest (later firstPass secondPass) = judgerRequest firstPass.
Proof.
  apply (proj1 (requests_keep_first_outputs firstPass secondPass)).
  vm_compute. lia.
Defined.

(** The second pass found that all flows are elementary; the restarter is
    asked about the flow of the first pass again. *)
Example secondPass_restarts_first :
  Js.lookup "flow_filter_output"
    (inputs (restarterRequest (later firstPass secondPass)))
  = Some (JObj [("all_elementary_flows", JBool false);
                ("non_elementary_flows", JArr [JStr "alumina"])]).
Proof. reflexivity. Qed.

End QueueStagesFacts.

(* ===================================================================== *)
(** ** The flows of the selected process (lcaKeyAgent.ts, lines 29-62 and
       1146-1232) *)

Module SelectedFlowFacts.
Import DataSource DataSourceTools KeyAgent.



End SelectedFlowFacts.
